(** * The console renderer: a shallow embedding

    The code is class Renderer (renderer.cpp, held in src/host/history.h).
    The Renderer owns a list of render engines (the Backends), a borrowed
    IRenderData (the content provider), the previous viewport and the
    previous selection, and a render thread (the paint scheduler).

    Every method is a function on the Renderer object extended with the log
    of what it has done so far: its calls into engines with their answers,
    the taking and letting go of the console lock, what the WIL LOG macros
    logged, the nothrow allocations, and its calls into the render thread.
    What an engine answers is decided by the environment, as a function of
    the log, so an engine may answer differently each time.

    Conventions. SHORT, int and size_t values are integers, with the
    wrap-around written where the source converts. A pointer into a text and
    an iterator into a row are the list from there to the end. An HRESULT
    is an integer, negative when FAILED. RETURN_IF_FAILED is its early
    return. An exception is modelled where the source catches it: the call
    that may throw gives [Throws]. *)

From Stdlib Require Import ZArith List Bool Lia.
Import ListNotations.
Local Open Scope Z_scope.

(** * Machine integers *)

(** SHORT is a 16-bit signed integer: the value a conversion to SHORT
    keeps of an int. *)
Definition SHORT_of (z : Z) : Z := (z + 32768) mod 65536 - 32768.

(** size_t is a 64-bit unsigned integer. *)
Definition size_t_of (z : Z) : Z := z mod 18446744073709551616.

(** int is a 32-bit signed integer. *)
Definition int_of (z : Z) : Z := (z + 2147483648) mod 4294967296 - 2147483648.

Definition INFINITE : Z := 4294967295.

(** * HRESULT *)

Definition HRESULT := Z.
Definition S_OK : HRESULT := 0.
Definition S_FALSE : HRESULT := 1.
Definition E_FAIL : HRESULT := -2147467259.
Definition E_OUTOFMEMORY : HRESULT := -2147024882.
Definition FAILED (hr : HRESULT) : bool := hr <? 0.
Definition SUCCEEDED (hr : HRESULT) : bool := 0 <=? hr.

(** * Plain data *)

Definition WCHAR := Z.
Definition wstring := list WCHAR.
Definition COLORREF := Z.
Definition WORD := Z.

Record COORD := { X : Z; Y : Z }.
Record SMALL_RECT := { Left : Z; Top : Z; Right : Z; Bottom : Z }.

(** A character cell's width class (DbcsAttribute): Single, Leading (the
    left half of a wide glyph) or Trailing (its right half). *)
Inductive DbcsAttribute := Single | Leading | Trailing.

Definition IsTrailing (a : DbcsAttribute) : bool :=
  match a with Trailing => true | _ => false end.
Definition IsLeading (a : DbcsAttribute) : bool :=
  match a with Leading => true | _ => false end.

Record CharRowCell := { Char : WCHAR; DbcsAttr : DbcsAttribute }.

(** The part of TextAttribute the renderer reads. *)
Record TextAttribute := {
  GetLegacyAttributes : WORD;
  IsBold : bool;
  IsTopHorizontalDisplayed : bool;
  IsBottomHorizontalDisplayed : bool;
  IsLeftVerticalDisplayed : bool;
  IsRightVerticalDisplayed : bool
}.

Definition defaultAttribute : TextAttribute :=
  {| GetLegacyAttributes := 0; IsBold := false;
     IsTopHorizontalDisplayed := false; IsBottomHorizontalDisplayed := false;
     IsLeftVerticalDisplayed := false; IsRightVerticalDisplayed := false |}.

(** IRenderEngine::GridLines, a set of four flags. *)
Record GridLines := {
  GridTop : bool; GridBottom : bool; GridLeft : bool; GridRight : bool }.

Record FontInfo := { IsTrueTypeFont : bool; GetCodePage : Z }.
Record FontInfoDesired := { DesiredFaceName : wstring; DesiredSize : COORD }.

(** What a call that may throw gives back. *)
Inductive Thrown (A : Type) :=
| Returns (a : A)
| Throws (hr : HRESULT).
Arguments Returns {A} a.
Arguments Throws {A} hr.

(** * Viewport *)

(** Modelled from the spec: class Types::Viewport is not under src/. It is
    "an axis-aligned rectangle in row/column space", kept as an inclusive
    SMALL_RECT. The operations that compute (bounds test, trimming, origin
    conversion) are taken from the environment, see [Environment]. *)
Record Viewport := FromInclusive { ToInclusive : SMALL_RECT }.

(** Modelled from the spec: the accessors of Viewport, not under src/, read
    the sides of the rectangle; Left() and Top() are vLeft and vTop here. *)
Definition vLeft (v : Viewport) : Z := Left (ToInclusive v).
Definition vTop (v : Viewport) : Z := Top (ToInclusive v).
Definition RightInclusive (v : Viewport) : Z := Right (ToInclusive v).
Definition BottomInclusive (v : Viewport) : Z := Bottom (ToInclusive v).

(** Modelled from the spec: Viewport::RightExclusive and Viewport::Width,
    not under src/: the column past the right side, and the number of
    columns, as SHORTs. *)
Definition RightExclusive (v : Viewport) : Z := SHORT_of (RightInclusive v + 1).
Definition Width (v : Viewport) : Z := SHORT_of (RightExclusive v - vLeft v).

(** * The text buffer, as the renderer reads it *)

(** Modelled from the spec: ATTR_ROW is not under src/. An AttributeRun is
    "a maximal run of consecutive columns sharing one resolved style;
    queried lazily by starting column, returns run length". An attribute
    row is the list of the row's runs in column order, each with its style
    and its length. *)
Record TextAttributeRun := { RunAttr : TextAttribute; RunLength : Z }.
Definition ATTR_ROW := list TextAttributeRun.

(** Modelled from the spec: ATTR_ROW::GetAttrByColumn is not under src/.
    It gives the style of the run that holds [column] and, as [applies],
    how many columns of that run are left from [column] on. Past the last
    run there is no run left: length 0. *)
Fixpoint GetAttrByColumn (runs : ATTR_ROW) (column : Z) : TextAttribute * Z :=
  match runs with
  | [] => (defaultAttribute, 0)
  | r :: rest =>
      if column <? RunLength r then (RunAttr r, RunLength r - column)
      else GetAttrByColumn rest (column - RunLength r)
  end.

Record CharRow := {
  cells : list CharRowCell;
  GetTextRaw : Thrown wstring;
  WasWrapForced : bool;
  MeasureRight : Z
}.

Record ROW := { GetCharRow : CharRow; GetAttrRow : ATTR_ROW }.

Record TextBuffer := {
  Dimensions : COORD;
  GetRowByOffset : Z -> ROW
}.

(** * The content provider (IRenderData) *)

Record AreaBufferInfo := { coordConView : COORD; rcViewCaWindow : SMALL_RECT }.
Record ConversionAreaInfo := { IsHidden : bool; GetAreaBufferInfo : AreaBufferInfo }.

Record IRenderData := {
  GetViewport : Viewport;
  GetTextBuffer : TextBuffer;
  GetFontInfo : FontInfo;
  GetDefaultBrushColors : TextAttribute;
  GetForegroundColor : TextAttribute -> COLORREF;
  GetBackgroundColor : TextAttribute -> COLORREF;
  GetCursorPosition : COORD;
  IsCursorVisible : bool;
  GetCursorHeight : Z;
  GetCursorStyle : Z;
  GetCursorColor : COLORREF;
  IsCursorDoubleWidth : bool;
  ConvAreaCompStr : list ConversionAreaInfo;
  GetImeCompositionStringBuffer : nat -> Thrown TextBuffer;
  IsGridLineDrawingAllowed : bool;
  GetSelectionRects : Thrown (list SMALL_RECT);
  GetConsoleTitle : wstring
}.

Definition INVALID_COLOR : COLORREF := 4294967295.

(** * Render engines (IRenderEngine) and the log *)

(** An engine is known by its address. *)
Definition IRenderEngine := nat.

Inductive EngineCall :=
| StartPaint
| EndPaint
| Present
| ScrollFrame
| PaintBackground
| InvalidateCursor (c : COORD)
| InvalidateScroll (delta : COORD)
| InvalidateSelection (rects : list SMALL_RECT)
| UpdateViewport (r : SMALL_RECT)
| PrepareForTeardown
| UpdateDrawingBrushes (fg bg : COLORREF) (legacy : WORD) (bold includeBackground : bool)
| PaintBufferLine (text : list WCHAR) (widths : list Z) (cch : Z)
                  (target : COORD) (trimLeft lineWrapped : bool)
| PaintBufferGridLines (lines : GridLines) (color : COLORREF) (cch : Z) (target : COORD)
| PaintSelection (r : SMALL_RECT)
| PaintCursor (c : COORD) (height : Z) (isDoubleWidth : bool) (style : Z)
              (useColor : bool) (color : COLORREF)
| UpdateTitle (title : wstring)
| GetDirtyRectInChars
| EngineGetFontSize
| EngineGetProposedFont (desired : FontInfoDesired) (dpi : Z)
| EngineIsGlyphWideByFont (glyph : wstring).

(** What an engine gives back: the HRESULT, the rectangle
    (GetDirtyRectInChars), and what it wrote through an out pointer, if it
    wrote. *)
Record Response := {
  hr_of : HRESULT;
  rect_of : SMALL_RECT;
  bool_out : option bool;
  coord_out : option COORD;
  font_out : option FontInfo
}.

Inductive ThreadCall :=
| NotifyPaint
| WaitForPaintCompletionAndDisable (dwTimeoutMs : Z).

Inductive Event :=
| EngineEv (pEngine : IRenderEngine) (c : EngineCall) (r : Response)
| LockConsole
| UnlockConsole
| Log (hr : HRESULT)
| Alloc (n : Z) (ok : bool)
| ThreadEv (c : ThreadCall).

(** * The paint scheduler (RenderThread) *)

(** Modelled from the spec: class RenderThread is not under src/. Its states
    are "Disabled (initial; also final, after teardown) and Enabled". *)
Inductive SchedulerState := Disabled | Enabled.

(** Modelled from the spec: the state of RenderThread, not under src/: its
    scheduler state, the level-triggered request-paint signal, and whether
    a paint is in flight. *)
Record RenderThread := {
  scheduler : SchedulerState;
  signalled : bool;
  paintInFlight : bool
}.

(** Modelled from the spec: RenderThread::NotifyPaint is not under src/.
    Request-paint is a "level-triggered signal: any number of calls before
    the next paint collapse into exactly one paint". *)
Definition thread_NotifyPaint (t : RenderThread) : RenderThread :=
  {| scheduler := scheduler t; signalled := true; paintInFlight := paintInFlight t |}.

(** Modelled from the spec: RenderThread::WaitForPaintCompletionAndDisable
    is not under src/. It "blocks until any in-flight paint finishes or the
    timeout elapses, then forces Disabled": without a timeout no paint is in
    flight when it returns. *)
Definition thread_WaitForPaintCompletionAndDisable (dwTimeoutMs : Z) (t : RenderThread)
  : RenderThread :=
  {| scheduler := Disabled;
     signalled := signalled t;
     paintInFlight := if dwTimeoutMs =? INFINITE then false else paintInFlight t |}.

(** * The environment *)

(** Everything the renderer calls and does not own: the engines' answers,
    the heap, the two Win32 code page conversions, and the computing
    operations of Viewport. An answer may depend on every call made so far.
    A code page conversion gives the converted text; the count the Win32
    call returns is its length, 0 for a failure. TrimToViewport gives the
    rectangle as trimmed, with the flag it returns.

    With them the one thing the renderer reads and never writes: _fDebug,
    the switch of the block that _PaintBufferOutput has under #if DBG. The
    member exists in a build with DBG only, and no method of renderer.cpp
    assigns it; false stands for a build without DBG as well, where the
    block is compiled out. *)
Record Environment := {
  answer : list Event -> IRenderEngine -> EngineCall -> Response;
  allocates : list Event -> Z -> bool;
  _fDebug : bool;
  WideCharToMultiByte : Z -> list WCHAR -> list Z;
  MultiByteToWideChar : list Z -> list WCHAR;
  IsInBounds : Viewport -> COORD -> bool;
  ConvertToOrigin : Viewport -> COORD -> COORD;
  ConvertToOrigin_Viewport : Viewport -> Viewport -> Viewport;
  ConvertFromOrigin : Viewport -> SMALL_RECT -> SMALL_RECT;
  TrimToViewport : Viewport -> SMALL_RECT -> bool * SMALL_RECT
}.

(** * The Renderer object *)

Record Renderer := {
  _pData : IRenderData;
  _rgpEngines : list IRenderEngine;
  _srViewportPrevious : SMALL_RECT;
  _previousSelection : list SMALL_RECT;
  _pThread : RenderThread;
  events : list Event
}.

Definition record (evs : list Event) (s : Renderer) : Renderer :=
  {| _pData := _pData s; _rgpEngines := _rgpEngines s;
     _srViewportPrevious := _srViewportPrevious s;
     _previousSelection := _previousSelection s;
     _pThread := _pThread s; events := events s ++ evs |}.

Definition set_srViewportPrevious (r : SMALL_RECT) (s : Renderer) : Renderer :=
  {| _pData := _pData s; _rgpEngines := _rgpEngines s;
     _srViewportPrevious := r;
     _previousSelection := _previousSelection s;
     _pThread := _pThread s; events := events s |}.

Definition set_previousSelection (rs : list SMALL_RECT) (s : Renderer) : Renderer :=
  {| _pData := _pData s; _rgpEngines := _rgpEngines s;
     _srViewportPrevious := _srViewportPrevious s;
     _previousSelection := rs;
     _pThread := _pThread s; events := events s |}.

Definition set_pThread (t : RenderThread) (s : Renderer) : Renderer :=
  {| _pData := _pData s; _rgpEngines := _rgpEngines s;
     _srViewportPrevious := _srViewportPrevious s;
     _previousSelection := _previousSelection s;
     _pThread := t; events := events s |}.

(** * The monad of renderer methods *)

Definition M (A : Type) : Type := Renderer -> A * Renderer.

Definition ret {A} (a : A) : M A := fun s => (a, s).
Definition bind {A B} (m : M A) (k : A -> M B) : M B :=
  fun s => let (a, s') := m s in k a s'.
Definition gets {A} (f : Renderer -> A) : M A := fun s => (f s, s).
Definition modify (f : Renderer -> Renderer) : M unit := fun s => (tt, f s).
Definition emit (ev : Event) : M unit := modify (record [ev]).

Declare Scope renderer_scope.
Delimit Scope renderer_scope with renderer.
Notation "x <- m ;; k" := (bind m (fun x => k))
  (at level 61, m at next level, right associativity) : renderer_scope.
Notation "m ;; k" := (bind m (fun _ => k))
  (at level 61, right associativity) : renderer_scope.
Local Open Scope renderer_scope.

(** std::for_each and the range-for loops over a container. *)
Fixpoint for_each {A} (l : list A) (body : A -> M unit) : M unit :=
  match l with
  | [] => ret tt
  | a :: rest => body a ;; for_each rest body
  end.

(** LOG_IF_FAILED(hr): logs a failure, and gives hr back. *)
Definition LOG_IF_FAILED (hr : HRESULT) : M HRESULT :=
  if FAILED hr then emit (Log hr) ;; ret hr else ret hr.

(** What a method that may fail fast gives back: FAIL_FAST_IF ends the
    process. *)
Inductive Outcome (A : Type) :=
| Done (a : A)
| FailFast.
Arguments Done {A} a.
Arguments FailFast {A}.

(** The segment buffers of _PaintBufferOutputDoubleByteHelper. The two
    arrays are written at index cchSegment only, which then grows by one:
    each is kept as the list of what was written. *)
Record DbcsSegment := {
  pwsSegment : list WCHAR;
  rgSegmentWidth : list Z;
  cchSegment : Z;
  coordTargetAdjustable : COORD;
  fTrimLeft : bool
}.

(** The loop state of _PaintBufferOutputColorHelper. A pointer into the
    text and an iterator into the cells are kept as the list from there to
    the end. *)
Record ColorSegment := {
  cchWritten : Z;
  coordOffset : COORD;
  pwsSegmentAt : list WCHAR;
  itSegment : list CharRowCell
}.

(** The rows iRow = top; iRow <= bottom; iRow++ visits. Where it is used
    bottom was clamped to the buffer height less one, so iRow stays below
    the largest SHORT and never wraps. *)
Definition rows_through (top bottom : Z) : list Z :=
  map (fun k => top + Z.of_nat k) (seq 0 (Z.to_nat (bottom - top + 1))).

(** The rows iRow = top; iRow < bottom; iRow++ visits. *)
Definition rows_below (top bottom : Z) : list Z :=
  map (fun k => top + Z.of_nat k) (seq 0 (Z.to_nat (bottom - top))).

Section RendererMethods.

Variable env : Environment.

(** A call into an engine: the environment answers, the log keeps both. *)
Definition call (pEngine : IRenderEngine) (c : EngineCall) : M Response :=
  fun s => let r := answer env (events s) pEngine c in
           (r, record [EngineEv pEngine c r] s).

(** wil::make_unique_nothrow<T[]>(n) and new(std::nothrow) T[n]: true when
    the array was allocated. *)
Definition make_unique_nothrow (n : Z) : M bool :=
  fun s => let ok := allocates env (events s) n in (ok, record [Alloc n ok] s).

(** _pThread->NotifyPaint() *)
Definition _NotifyPaintFrame : M unit :=
  emit (ThreadEv NotifyPaint) ;;
  modify (fun s => set_pThread (thread_NotifyPaint (_pThread s)) s).

(** ** Drawing helpers *)

Definition _UpdateDrawingBrushes (pEngine : IRenderEngine)
    (textAttributes : TextAttribute) (fIncludeBackground : bool) : M HRESULT :=
  pData <- gets _pData ;;
  let rgbForeground := GetForegroundColor pData textAttributes in
  let rgbBackground := GetBackgroundColor pData textAttributes in
  let legacyAttributes := GetLegacyAttributes textAttributes in
  let isBold := IsBold textAttributes in
  r <- call pEngine (UpdateDrawingBrushes rgbForeground rgbBackground
                       legacyAttributes isBold fIncludeBackground) ;;
  if FAILED (hr_of r) then ret (hr_of r) else ret S_OK.

Definition _PerformScrolling (pEngine : IRenderEngine) : M HRESULT :=
  r <- call pEngine ScrollFrame ;; ret (hr_of r).

Definition _PaintBackground (pEngine : IRenderEngine) : M HRESULT :=
  r <- call pEngine PaintBackground ;; ret (hr_of r).

Definition _PaintTitle (pEngine : IRenderEngine) : M HRESULT :=
  pData <- gets _pData ;;
  let newTitle := GetConsoleTitle pData in
  r <- call pEngine (UpdateTitle newTitle) ;; ret (hr_of r).

(** The for loop of _PaintBufferOutputDoubleByteHelper, from iLine and
    itCurrent on: it runs while iLine < cchLine && itCurrent < itEnd.
    pwsLine[iLine] is read for iLine < cchLine only, which the parameter's
    _In_reads_(cchLine) promises to be inside the text. For a text of fewer
    than cchLine characters the source reads outside it, and no value is
    defined for that read: the 0 that [nth] gives there stands for nothing
    the program does, and what is proved of the text drawn is proved for
    texts of at least cchLine characters. *)
Fixpoint DoubleByte_walk (pwsLine : list WCHAR) (cchLine : Z) (iLine : Z)
    (itCurrent : list CharRowCell) (st : DbcsSegment) : DbcsSegment :=
  match itCurrent with
  | [] => st
  | cell :: itNext =>
      if iLine <? cchLine then
        DoubleByte_walk pwsLine cchLine (iLine + 1) itNext
          (if negb (IsTrailing (DbcsAttr cell)) then
             {| pwsSegment := pwsSegment st ++ [nth (Z.to_nat iLine) pwsLine 0];
                rgSegmentWidth :=
                  rgSegmentWidth st ++ [if IsLeading (DbcsAttr cell) then 2 else 1];
                cchSegment := cchSegment st + 1;
                coordTargetAdjustable := coordTargetAdjustable st;
                fTrimLeft := fTrimLeft st |}
           else if iLine =? 0 then
             {| pwsSegment := pwsSegment st ++ [nth (Z.to_nat iLine) pwsLine 0];
                rgSegmentWidth := rgSegmentWidth st ++ [2];
                cchSegment := cchSegment st + 1;
                coordTargetAdjustable :=
                  {| X := SHORT_of (X (coordTargetAdjustable st) - 1);
                     Y := Y (coordTargetAdjustable st) |};
                fTrimLeft := true |}
           else st)
      else st
  end.

Definition _PaintBufferOutputDoubleByteHelper (pEngine : IRenderEngine)
    (pwsLine : list WCHAR) (it : list CharRowCell) (cchLine : Z)
    (coordTarget : COORD) (lineWrapped : bool) : M HRESULT :=
  okSegment <- make_unique_nothrow cchLine ;;
  if negb okSegment then ret E_OUTOFMEMORY else
  okWidth <- make_unique_nothrow cchLine ;;
  if negb okWidth then ret E_OUTOFMEMORY else
  let st := DoubleByte_walk pwsLine cchLine 0 it
              {| pwsSegment := []; rgSegmentWidth := []; cchSegment := 0;
                 coordTargetAdjustable := coordTarget; fTrimLeft := false |} in
  r <- call pEngine (PaintBufferLine (pwsSegment st) (rgSegmentWidth st)
                       (Z.min (cchSegment st) cchLine)
                       (coordTargetAdjustable st) (fTrimLeft st) lineWrapped) ;;
  if FAILED (hr_of r) then ret (hr_of r) else ret S_OK.

Definition s_GetGridlines (textAttribute : TextAttribute) : GridLines :=
  {| GridTop := IsTopHorizontalDisplayed textAttribute;
     GridBottom := IsBottomHorizontalDisplayed textAttribute;
     GridLeft := IsLeftVerticalDisplayed textAttribute;
     GridRight := IsRightVerticalDisplayed textAttribute |}.

Definition _PaintBufferOutputGridLineHelper (pEngine : IRenderEngine)
    (textAttribute : TextAttribute) (cchLine : Z) (coordTarget : COORD) : M unit :=
  pData <- gets _pData ;;
  let rgb := GetForegroundColor pData textAttribute in
  let lines := s_GetGridlines textAttribute in
  r <- call pEngine (PaintBufferGridLines lines rgb cchLine coordTarget) ;;
  LOG_IF_FAILED (hr_of r) ;;
  ret tt.

(** The do-while loop of _PaintBufferOutputColorHelper. Every turn that
    goes round again has moved itSegment at least one cell nearer to itEnd,
    so [fuel] above the number of cells left is never used up. *)
Fixpoint ColorHelper_loop (fuel : nat) (pEngine : IRenderEngine) (Row : ROW)
    (cchLine iFirstAttr : Z) (lineWrapped : bool) (st : ColorSegment) : M unit :=
  match fuel with
  | O => ret tt
  | S fuel' =>
      let (attr, cAttrApplies) :=
        GetAttrByColumn (GetAttrRow Row) (size_t_of (iFirstAttr + cchWritten st)) in
      hrBrushes <- _UpdateDrawingBrushes pEngine attr false ;;
      LOG_IF_FAILED hrBrushes ;;
      let cchSegment := Z.min (size_t_of (cchLine - cchWritten st)) cAttrApplies in
      if cchSegment <=? 0 then ret tt else
      hrLine <- _PaintBufferOutputDoubleByteHelper pEngine (pwsSegmentAt st)
                  (itSegment st) cchSegment (coordOffset st) lineWrapped ;;
      LOG_IF_FAILED hrLine ;;
      pData <- gets _pData ;;
      (if IsGridLineDrawingAllowed pData
       then _PaintBufferOutputGridLineHelper pEngine attr cchSegment (coordOffset st)
       else ret tt) ;;
      let st' :=
        {| cchWritten := size_t_of (cchWritten st + cchSegment);
           coordOffset := {| X := SHORT_of (X (coordOffset st) + SHORT_of cchSegment);
                             Y := Y (coordOffset st) |};
           pwsSegmentAt := skipn (Z.to_nat cchSegment) (pwsSegmentAt st);
           itSegment := skipn (Z.to_nat cchSegment) (itSegment st) |} in
      if (cchWritten st' <? cchLine) && negb (Nat.eqb (length (itSegment st')) 0)
      then ColorHelper_loop fuel' pEngine Row cchLine iFirstAttr lineWrapped st'
      else ret tt
  end.

Definition _PaintBufferOutputColorHelper (pEngine : IRenderEngine) (Row : ROW)
    (pwsLine : list WCHAR) (it : list CharRowCell) (cchLine iFirstAttr : Z)
    (coordTarget : COORD) (lineWrapped : bool) : M unit :=
  ColorHelper_loop (S (length it)) pEngine Row cchLine iFirstAttr lineWrapped
    {| cchWritten := 0; coordOffset := coordTarget;
       pwsSegmentAt := pwsLine; itSegment := it |}.

(** With a raster font the text goes to the font's code page and back
    through the ANSI code page; where any step fails the line data is used
    as it is. Each conversion is called twice, for the size and for the
    text: the second count is the first. *)
Definition _PaintBufferOutputRasterFontHelper (pEngine : IRenderEngine) (Row : ROW)
    (pwsLine : list WCHAR) (it : list CharRowCell) (cchLine iFirstAttr : Z)
    (coordTarget : COORD) (lineWrapped : bool) : M unit :=
  pData <- gets _pData ;;
  let pFontInfo := GetFontInfo pData in
  pwsData <-
    (if negb (IsTrueTypeFont pFontInfo) then
       let uiCodePage := GetCodePage pFontInfo in
       let psConverted :=
         WideCharToMultiByte env uiCodePage
           (firstn (Z.to_nat (int_of cchLine)) pwsLine) in
       let cbRequired := Z.of_nat (length psConverted) in
       if negb (cbRequired =? 0) then
         okConverted <- make_unique_nothrow cbRequired ;;
         if okConverted then
           let pwsConvert := MultiByteToWideChar env psConverted in
           let cchRequired := Z.of_nat (length pwsConvert) in
           if negb (cchRequired =? 0) then
             okConvert <- make_unique_nothrow cchRequired ;;
             if okConvert then ret pwsConvert else ret pwsLine
           else ret pwsLine
         else ret pwsLine
       else ret pwsLine
     else ret pwsLine) ;;
  _PaintBufferOutputColorHelper pEngine Row pwsData it cchLine iFirstAttr
    coordTarget lineWrapped.

(** ** Painting the buffer *)

(** gsl::narrow<SHORT> gives its argument back when a SHORT holds it. It
    is applied to a buffer dimension less one, which a SHORT holds. *)
Definition narrow_SHORT (z : Z) : Z := z.

(** RGB(r, g, b) of wingdi.h: the three bytes, red lowest. *)
Definition RGB (r g b : Z) : Z :=
  Z.lor (Z.lor (Z.land r 255) (Z.shiftl (Z.land g 255) 8))
        (Z.shiftl (Z.land b 255) 16).

(** The body of the row loop of _PaintBufferOutput, over the rows still to
    visit. The catch block returns from the method: no later row is
    drawn. With _fDebug set, a wrapped row gets a frame drawn at its last
    character, whether grid lines are allowed or not. *)
Fixpoint _PaintBufferOutput_rows (pEngine : IRenderEngine) (view : Viewport)
    (textBuffer : TextBuffer) (viewDirty : Viewport) (rows : list Z) : M unit :=
  match rows with
  | [] => ret tt
  | iRow :: later =>
      let Row := GetRowByOffset textBuffer iRow in
      let iLeft := size_t_of (vLeft viewDirty) in
      let iRight := size_t_of (RightExclusive viewDirty) in
      if iRight >? iLeft then
        let charRow := GetCharRow Row in
        match GetTextRaw charRow with
        | Throws hr => emit (Log hr)
        | Returns rowText =>
            let it := skipn (Z.to_nat iLeft) (cells charRow) in
            let pwsLine := skipn (Z.to_nat iLeft) rowText in
            let cchLine := size_t_of (iRight - iLeft) in
            let coordTarget :=
              {| X := SHORT_of (SHORT_of iLeft - vLeft view);
                 Y := SHORT_of (iRow - vTop view) |} in
            let lineWrapped :=
              WasWrapForced charRow
              && (iRight =? size_t_of (MeasureRight charRow)) in
            _PaintBufferOutputRasterFontHelper pEngine Row pwsLine it cchLine
              iLeft coordTarget lineWrapped ;;
            (if _fDebug env then
               if lineWrapped then
                 let lines :=
                   {| GridTop := false; GridBottom := true;
                      GridLeft := false; GridRight := true |} in
                 let coordDebugTarget :=
                   {| X := SHORT_of (SHORT_of iRight - vLeft view - 1);
                      Y := SHORT_of (iRow - vTop view) |} in
                 r <- call pEngine (PaintBufferGridLines lines (RGB 153 119 49) 1
                                      coordDebugTarget) ;;
                 LOG_IF_FAILED (hr_of r) ;; ret tt
               else ret tt
             else ret tt) ;;
            _PaintBufferOutput_rows pEngine view textBuffer viewDirty later
        end
      else _PaintBufferOutput_rows pEngine view textBuffer viewDirty later
  end.

Definition _PaintBufferOutput (pEngine : IRenderEngine) : M unit :=
  pData <- gets _pData ;;
  let view := GetViewport pData in
  r <- call pEngine GetDirtyRectInChars ;;
  let srDirty := ConvertFromOrigin env view (rect_of r) in
  let textBuffer := GetTextBuffer pData in
  let coordBufferSize := Dimensions textBuffer in
  let srDirty :=
    {| Left := Z.max (Left srDirty) 0;
       Top := Z.max (Top srDirty) 0;
       Right := Z.min (Right srDirty) (narrow_SHORT (X coordBufferSize - 1));
       Bottom := Z.min (Bottom srDirty) (narrow_SHORT (Y coordBufferSize - 1)) |} in
  let srDirty :=
    {| Left := Z.max (Left srDirty) (vLeft view);
       Top := Z.max (Top srDirty) (vTop view);
       Right := Z.min (Right srDirty) (RightInclusive view);
       Bottom := Z.min (Bottom srDirty) (BottomInclusive view) |} in
  let viewDirty := FromInclusive srDirty in
  _PaintBufferOutput_rows pEngine view textBuffer viewDirty
    (rows_through (vTop viewDirty) (BottomInclusive viewDirty)).

(** ** Painting the IME composition areas *)

Fixpoint _PaintIme_rows (pEngine : IRenderEngine) (placementInfo : AreaBufferInfo)
    (textBuffer : TextBuffer) (viewDirty : Viewport) (rows : list Z) : M unit :=
  match rows with
  | [] => ret tt
  | iRow :: later =>
      let Row :=
        GetRowByOffset textBuffer (iRow - Y (coordConView placementInfo)) in
      let charRow := GetCharRow Row in
      match GetTextRaw charRow with
      | Throws hr => emit (Log hr)
      | Returns rowText =>
          let first := vLeft viewDirty - X (coordConView placementInfo) in
          let it := skipn (Z.to_nat first) (cells charRow) in
          let pwsLine := skipn (Z.to_nat first) rowText in
          let cchLine := size_t_of (Width viewDirty - 1) in
          let coordTarget := {| X := vLeft viewDirty; Y := iRow |} in
          _PaintBufferOutputRasterFontHelper pEngine Row pwsLine it cchLine
            (size_t_of first) coordTarget false ;;
          _PaintIme_rows pEngine placementInfo textBuffer viewDirty later
      end
  end.

Definition _PaintIme (pEngine : IRenderEngine) (AreaInfo : ConversionAreaInfo)
    (textBuffer : TextBuffer) : M unit :=
  if negb (IsHidden AreaInfo) then
    let placementInfo := GetAreaBufferInfo AreaInfo in
    let rc := rcViewCaWindow placementInfo in
    let srCaView :=
      {| Left := SHORT_of (Left rc + X (coordConView placementInfo));
         Top := SHORT_of (Top rc + Y (coordConView placementInfo));
         Right := SHORT_of (Right rc + X (coordConView placementInfo));
         Bottom := SHORT_of (Bottom rc + Y (coordConView placementInfo)) |} in
    let viewConv := FromInclusive srCaView in
    r <- call pEngine GetDirtyRectInChars ;;
    let srDirty :=
      {| Left := Left (rect_of r);
         Top := Top (rect_of r);
         Right := SHORT_of (Right (rect_of r) + 1);
         Bottom := SHORT_of (Bottom (rect_of r) + 1) |} in
    let (inside, srDirty) := TrimToViewport env viewConv srDirty in
    if inside then
      let viewDirty := FromInclusive srDirty in
      _PaintIme_rows pEngine placementInfo textBuffer viewDirty
        (rows_below (vTop viewDirty) (BottomInclusive viewDirty))
    else ret tt
  else ret tt.

(** The loop of _PaintImeCompositionString from area i on. *)
Fixpoint _PaintImeCompositionString_from (pEngine : IRenderEngine) (i : nat)
    (areas : list ConversionAreaInfo) : M unit :=
  match areas with
  | [] => ret tt
  | AreaInfo :: later =>
      pData <- gets _pData ;;
      match GetImeCompositionStringBuffer pData i with
      | Throws hr => emit (Log hr)
      | Returns textBuffer => _PaintIme pEngine AreaInfo textBuffer
      end ;;
      _PaintImeCompositionString_from pEngine (S i) later
  end.

Definition _PaintImeCompositionString (pEngine : IRenderEngine) : M unit :=
  pData <- gets _pData ;;
  _PaintImeCompositionString_from pEngine 0%nat (ConvAreaCompStr pData).

(** ** Selection, cursor *)

Definition _GetSelectionRects : M (Thrown (list SMALL_RECT)) :=
  pData <- gets _pData ;;
  match GetSelectionRects pData with
  | Throws hr => ret (Throws hr)
  | Returns rects =>
      let view := GetViewport pData in
      ret (Returns
             (map (fun rect =>
                     let rect :=
                       ToInclusive
                         (ConvertToOrigin_Viewport env view (FromInclusive rect)) in
                     {| Left := Left rect; Top := Top rect;
                        Right := SHORT_of (Right rect + 1);
                        Bottom := SHORT_of (Bottom rect + 1) |})
                  rects))
  end.

Definition _PaintSelection (pEngine : IRenderEngine) : M unit :=
  r <- call pEngine GetDirtyRectInChars ;;
  let dirtyView := FromInclusive (rect_of r) in
  rectangles <- _GetSelectionRects ;;
  match rectangles with
  | Throws hr => emit (Log hr)
  | Returns rectangles =>
      for_each rectangles (fun rect =>
        let (inside, rect) := TrimToViewport env dirtyView rect in
        if inside then
          r <- call pEngine (PaintSelection rect) ;;
          LOG_IF_FAILED (hr_of r) ;; ret tt
        else ret tt)
  end.

Definition _PaintCursor (pEngine : IRenderEngine) : M unit :=
  pData <- gets _pData ;;
  if IsCursorVisible pData then
    let coordCursor := GetCursorPosition pData in
    let view := GetViewport pData in
    let coordCursor := ConvertToOrigin env view coordCursor in
    let cursorColor := GetCursorColor pData in
    let useColor := negb (cursorColor =? INVALID_COLOR) in
    r <- call pEngine (PaintCursor coordCursor (GetCursorHeight pData)
                         (IsCursorDoubleWidth pData) (GetCursorStyle pData)
                         useColor cursorColor) ;;
    LOG_IF_FAILED (hr_of r) ;; ret tt
  else ret tt.

(** ** The frame *)

Definition _CheckViewportAndScroll : M bool :=
  srOldViewport <- gets _srViewportPrevious ;;
  pData <- gets _pData ;;
  let srNewViewport := ToInclusive (GetViewport pData) in
  let coordDelta :=
    {| X := SHORT_of (Left srOldViewport - Left srNewViewport);
       Y := SHORT_of (Top srOldViewport - Top srNewViewport) |} in
  engines <- gets _rgpEngines ;;
  for_each engines (fun pEngine =>
    r <- call pEngine (UpdateViewport srNewViewport) ;;
    LOG_IF_FAILED (hr_of r) ;;
    r <- call pEngine (InvalidateScroll coordDelta) ;;
    LOG_IF_FAILED (hr_of r) ;;
    ret tt) ;;
  modify (set_srViewportPrevious srNewViewport) ;;
  ret (negb (X coordDelta =? 0) || negb (Y coordDelta =? 0)).

(** The scope_exit of _PaintFrameForEngine that ends the paint. *)
Definition endPaint (pEngine : IRenderEngine) : M unit :=
  r <- call pEngine EndPaint ;;
  LOG_IF_FAILED (hr_of r) ;;
  ret tt.

(** The scope_exit of _PaintFrameForEngine that lets go of the console
    lock. *)
Definition unlock : M unit := emit UnlockConsole.

(** The engines of _rgpEngines are never null (AddRenderEngine throws on a
    null engine), so FAIL_FAST_IF_NULL lets every call through. A return
    between the declaration of a scope_exit and its reset runs it: endPaint
    before unlock. *)
Definition _PaintFrameForEngine (pEngine : IRenderEngine) : M HRESULT :=
  emit LockConsole ;;
  _CheckViewportAndScroll ;;
  r <- call pEngine StartPaint ;;
  let hr := hr_of r in
  if FAILED hr then unlock ;; ret hr else
  if hr =? S_FALSE then unlock ;; ret S_OK else
  pData <- gets _pData ;;
  hrBrushes <- _UpdateDrawingBrushes pEngine (GetDefaultBrushColors pData) true ;;
  if FAILED hrBrushes then endPaint pEngine ;; unlock ;; ret hrBrushes else
  hrScroll <- _PerformScrolling pEngine ;;
  if FAILED hrScroll then endPaint pEngine ;; unlock ;; ret hrScroll else
  hrBackground <- _PaintBackground pEngine ;;
  if FAILED hrBackground then endPaint pEngine ;; unlock ;; ret hrBackground else
  _PaintBufferOutput pEngine ;;
  _PaintImeCompositionString pEngine ;;
  _PaintSelection pEngine ;;
  _PaintCursor pEngine ;;
  hrTitle <- _PaintTitle pEngine ;;
  if FAILED hrTitle then endPaint pEngine ;; unlock ;; ret hrTitle else
  endPaint pEngine ;;
  unlock ;;
  r <- call pEngine Present ;;
  if FAILED (hr_of r) then ret (hr_of r) else
  ret S_OK.

Definition PaintFrame : M HRESULT :=
  engines <- gets _rgpEngines ;;
  for_each engines (fun pEngine =>
    hr <- _PaintFrameForEngine pEngine ;;
    LOG_IF_FAILED hr ;;
    ret tt) ;;
  ret S_OK.

(** ** Triggers *)

(** The loop of TriggerRedrawCursor over the engines still to visit;
    updateCoord is declared outside the loop and lives across its turns. *)
Fixpoint TriggerRedrawCursor_loop (engines : list IRenderEngine)
    (updateCoord : COORD) : M unit :=
  match engines with
  | [] => ret tt
  | pEngine :: later =>
      r <- call pEngine (InvalidateCursor updateCoord) ;;
      LOG_IF_FAILED (hr_of r) ;;
      pData <- gets _pData ;;
      if IsCursorDoubleWidth pData then
        let updateCoord :=
          {| X := SHORT_of (X updateCoord + 1); Y := Y updateCoord |} in
        r <- call pEngine (InvalidateCursor updateCoord) ;;
        LOG_IF_FAILED (hr_of r) ;;
        TriggerRedrawCursor_loop later updateCoord
      else TriggerRedrawCursor_loop later updateCoord
  end.

Definition TriggerRedrawCursor (pcoord : COORD) : M unit :=
  pData <- gets _pData ;;
  let view := GetViewport pData in
  let updateCoord := pcoord in
  if IsInBounds env view updateCoord then
    let updateCoord := ConvertToOrigin env view updateCoord in
    engines <- gets _rgpEngines ;;
    TriggerRedrawCursor_loop engines updateCoord ;;
    _NotifyPaintFrame
  else ret tt.

(** The body of the loop of TriggerTeardown. *)
Definition TriggerTeardown_turn (pEngine : IRenderEngine) : M unit :=
  r <- call pEngine PrepareForTeardown ;;
  let fEngineRequestsRepaint :=
    match bool_out r with Some b => b | None => false end in
  let hr := hr_of r in
  LOG_IF_FAILED hr ;;
  if SUCCEEDED hr && fEngineRequestsRepaint then
    hrFrame <- _PaintFrameForEngine pEngine ;;
    LOG_IF_FAILED hrFrame ;;
    ret tt
  else ret tt.

Definition TriggerTeardown : M unit :=
  emit (ThreadEv (WaitForPaintCompletionAndDisable INFINITE)) ;;
  modify (fun s =>
    set_pThread (thread_WaitForPaintCompletionAndDisable INFINITE (_pThread s)) s) ;;
  engines <- gets _rgpEngines ;;
  for_each engines TriggerTeardown_turn.

Definition TriggerSelection : M unit :=
  rects <- _GetSelectionRects ;;
  match rects with
  | Throws hr => emit (Log hr)
  | Returns rects =>
      engines <- gets _rgpEngines ;;
      previous <- gets _previousSelection ;;
      for_each engines (fun pEngine =>
        r <- call pEngine (InvalidateSelection previous) ;;
        LOG_IF_FAILED (hr_of r) ;;
        r <- call pEngine (InvalidateSelection rects) ;;
        LOG_IF_FAILED (hr_of r) ;;
        ret tt) ;;
      modify (set_previousSelection rects) ;;
      _NotifyPaintFrame
  end.

Definition TriggerScroll : M unit :=
  scrolled <- _CheckViewportAndScroll ;;
  if scrolled then _NotifyPaintFrame else ret tt.

(** ** Font and size queries *)

Fixpoint GetProposedFont_loop (engines : list IRenderEngine) (iDpi : Z)
    (desired : FontInfoDesired) (fontInfo : FontInfo) : M (HRESULT * FontInfo) :=
  match engines with
  | [] => ret (E_FAIL, fontInfo)
  | pEngine :: later =>
      r <- call pEngine (EngineGetProposedFont desired iDpi) ;;
      let fontInfo := match font_out r with Some f => f | None => fontInfo end in
      hr <- LOG_IF_FAILED (hr_of r) ;;
      if hr =? S_OK then ret (hr, fontInfo)
      else GetProposedFont_loop later iDpi desired fontInfo
  end.

(** FontInfo is the caller's object, filled on return: the method gives it
    back beside the HRESULT. *)
Definition GetProposedFont (iDpi : Z) (desired : FontInfoDesired)
    (fontInfo : FontInfo) : M (Outcome (HRESULT * FontInfo)) :=
  engines <- gets _rgpEngines ;;
  if (length engines <? 1)%nat then ret (Done (E_FAIL, fontInfo)) else
  if negb (length engines <=? 2)%nat then ret FailFast else
  result <- GetProposedFont_loop engines iDpi desired fontInfo ;;
  ret (Done result).

Fixpoint GetFontSize_loop (engines : list IRenderEngine) (fontSize : COORD)
    : M COORD :=
  match engines with
  | [] => ret fontSize
  | pEngine :: later =>
      r <- call pEngine EngineGetFontSize ;;
      let fontSize := match coord_out r with Some c => c | None => fontSize end in
      hr <- LOG_IF_FAILED (hr_of r) ;;
      if hr =? S_OK then ret fontSize
      else GetFontSize_loop later fontSize
  end.

Definition GetFontSize : M (Outcome COORD) :=
  let fontSize := {| X := 1; Y := 1 |} in
  engines <- gets _rgpEngines ;;
  if negb (length engines <=? 2)%nat then ret FailFast else
  result <- GetFontSize_loop engines fontSize ;;
  ret (Done result).

Fixpoint IsGlyphWideByFont_loop (engines : list IRenderEngine) (glyph : wstring)
    (fIsFullWidth : bool) : M bool :=
  match engines with
  | [] => ret fIsFullWidth
  | pEngine :: later =>
      r <- call pEngine (EngineIsGlyphWideByFont glyph) ;;
      let fIsFullWidth :=
        match bool_out r with Some b => b | None => fIsFullWidth end in
      hr <- LOG_IF_FAILED (hr_of r) ;;
      if hr =? S_OK then ret fIsFullWidth
      else IsGlyphWideByFont_loop later glyph fIsFullWidth
  end.

Definition IsGlyphWideByFont (glyph : wstring) : M (Outcome bool) :=
  let fIsFullWidth := false in
  engines <- gets _rgpEngines ;;
  if negb (length engines <=? 2)%nat then ret FailFast else
  result <- IsGlyphWideByFont_loop engines glyph fIsFullWidth ;;
  ret (Done result).

(** ** The scroll trigger that is given its delta *)

(** TriggerScroll(const COORD* const pcoordDelta), the overload of
    TriggerScroll for a buffer that rotated behind an unmoved viewport. *)
Definition TriggerScroll_pcoordDelta (pcoordDelta : COORD) : M unit :=
  engines <- gets _rgpEngines ;;
  for_each engines (fun pEngine =>
    r <- call pEngine (InvalidateScroll pcoordDelta) ;;
    LOG_IF_FAILED (hr_of r) ;;
    ret tt) ;;
  _NotifyPaintFrame.

End RendererMethods.

(** * What the spec says, for comparison *)

(** The text a run of cells is drawn as, in the spec's words: "trailing
    cells are dropped (the leading cell already carries the full glyph and
    is tagged with a 2-column width)". Each cell comes with its glyph; the
    result pairs each glyph kept with its width. *)
Definition deduplicated (run : list (WCHAR * CharRowCell)) : list (WCHAR * Z) :=
  map (fun gc => (fst gc, if IsLeading (DbcsAttr (snd gc)) then 2 else 1))
      (filter (fun gc => negb (IsTrailing (DbcsAttr (snd gc)))) run).

(** The draw call of a run, in the spec's words: the text, the widths, the
    target and the clip-left-half flag. "The single exception is when the
    first cell of the requested run is itself a trailing cell ... in that
    case the glyph is included, tagged 2-column wide, the draw target is
    shifted one column left, and the Backend is told to clip/trim the
    glyph's left half". *)
Definition row_draw_spec (run : list (WCHAR * CharRowCell)) (coordTarget : COORD)
  : list WCHAR * list Z * COORD * bool :=
  match run with
  | [] => ([], [], coordTarget, false)
  | (glyph, cell) :: rest =>
      if IsTrailing (DbcsAttr cell) then
        (glyph :: map fst (deduplicated rest),
         2 :: map snd (deduplicated rest),
         {| X := SHORT_of (X coordTarget - 1); Y := Y coordTarget |},
         true)
      else
        (map fst (deduplicated run), map snd (deduplicated run), coordTarget, false)
  end.

(** The number of columns a list of runs holds. *)
Definition columns_of (runs : ATTR_ROW) : Z :=
  fold_right Z.add 0 (map RunLength runs).

(** Row decoding in the spec's words: "query the run length of the uniform
    style beginning there; ... draw that run's text (after wide-glyph
    deduplication) then, if grid-line decoration is currently permitted,
    issue a separate decoration draw for the identical column span; advance
    the column cursor by the run length; repeat". One turn per attribute
    run, each over the run's own columns. *)
Fixpoint draw_runs (env : Environment) (pEngine : IRenderEngine) (runs : ATTR_ROW)
    (pwsSegment : list WCHAR) (itSegment : list CharRowCell) (coordOffset : COORD)
    (lineWrapped : bool) : M unit :=
  match runs with
  | [] => ret tt
  | run :: later =>
      hrBrushes <- _UpdateDrawingBrushes env pEngine (RunAttr run) false ;;
      LOG_IF_FAILED hrBrushes ;;
      hrLine <- _PaintBufferOutputDoubleByteHelper env pEngine pwsSegment
                  itSegment (RunLength run) coordOffset lineWrapped ;;
      LOG_IF_FAILED hrLine ;;
      pData <- gets _pData ;;
      (if IsGridLineDrawingAllowed pData
       then _PaintBufferOutputGridLineHelper env pEngine (RunAttr run)
              (RunLength run) coordOffset
       else ret tt) ;;
      draw_runs env pEngine later
        (skipn (Z.to_nat (RunLength run)) pwsSegment)
        (skipn (Z.to_nat (RunLength run)) itSegment)
        {| X := SHORT_of (X coordOffset + SHORT_of (RunLength run));
           Y := Y coordOffset |}
        lineWrapped
  end.

(** The column spans of the runs of a row, from [coordOffset] on: each
    run's length with the target it starts at. *)
Fixpoint run_spans (runs : ATTR_ROW) (coordOffset : COORD) : list (Z * COORD) :=
  match runs with
  | [] => []
  | run :: later =>
      (RunLength run, coordOffset)
      :: run_spans later
           {| X := SHORT_of (X coordOffset + SHORT_of (RunLength run));
              Y := Y coordOffset |}
  end.

(** * A concrete environment, to run the methods on *)

(** Modelled from the spec: the computing operations of Types::Viewport
    are not under src/. Draw calls use "origin-relative coordinates"
    ("buffer coordinates are translated to viewport-local"), the cursor
    trigger "clips to the viewport", and rectangles are clipped to a
    rectangle. *)
Module Geometry.

Definition IsInBounds (v : Viewport) (pos : COORD) : bool :=
  (vLeft v <=? X pos) && (X pos <=? RightInclusive v)
  && (vTop v <=? Y pos) && (Y pos <=? BottomInclusive v).

Definition ConvertToOrigin (v : Viewport) (pos : COORD) : COORD :=
  {| X := SHORT_of (X pos - vLeft v); Y := SHORT_of (Y pos - vTop v) |}.

Definition ConvertToOrigin_Viewport (v other : Viewport) : Viewport :=
  FromInclusive
    {| Left := SHORT_of (vLeft other - vLeft v);
       Top := SHORT_of (vTop other - vTop v);
       Right := SHORT_of (RightInclusive other - vLeft v);
       Bottom := SHORT_of (BottomInclusive other - vTop v) |}.

Definition ConvertFromOrigin (v : Viewport) (r : SMALL_RECT) : SMALL_RECT :=
  {| Left := SHORT_of (Left r + vLeft v);
     Top := SHORT_of (Top r + vTop v);
     Right := SHORT_of (Right r + vLeft v);
     Bottom := SHORT_of (Bottom r + vTop v) |}.

Definition TrimToViewport (v : Viewport) (r : SMALL_RECT) : bool * SMALL_RECT :=
  let trimmed :=
    {| Left := Z.max (Left r) (vLeft v);
       Top := Z.max (Top r) (vTop v);
       Right := Z.min (Right r) (RightExclusive v);
       Bottom := Z.min (Bottom r) (SHORT_of (BottomInclusive v + 1)) |} in
  ((Left trimmed <? Right trimmed) && (Top trimmed <? Bottom trimmed), trimmed).

End Geometry.

Definition zeroRect : SMALL_RECT := {| Left := 0; Top := 0; Right := 0; Bottom := 0 |}.

(** An engine's answer that carries an HRESULT and nothing else. *)
Definition plain (hr : HRESULT) : Response :=
  {| hr_of := hr; rect_of := zeroRect; bool_out := None;
     coord_out := None; font_out := None |}.

(** The environment in which the engines answer by [ans], every allocation
    succeeds and a code page conversion changes nothing. *)
Definition environment_of
    (ans : list Event -> IRenderEngine -> EngineCall -> Response) : Environment :=
  {| answer := ans;
     _fDebug := false;
     allocates := fun _ _ => true;
     WideCharToMultiByte := fun _ text => text;
     MultiByteToWideChar := fun text => text;
     IsInBounds := Geometry.IsInBounds;
     ConvertToOrigin := Geometry.ConvertToOrigin;
     ConvertToOrigin_Viewport := Geometry.ConvertToOrigin_Viewport;
     ConvertFromOrigin := Geometry.ConvertFromOrigin;
     TrimToViewport := Geometry.TrimToViewport |}.

(** Every engine answers S_OK. *)
Definition agreeable : Environment := environment_of (fun _ _ _ => plain S_OK).

(** Every engine answers S_FALSE, "not applicable", and writes nothing. *)
Definition passthrough : Environment := environment_of (fun _ _ _ => plain S_FALSE).

(** Every engine answers S_OK; asked for its font size it writes 1 by 1,
    asked whether a glyph is wide it writes false. *)
Definition measuring : Environment :=
  environment_of (fun _ _ c =>
    match c with
    | EngineGetFontSize =>
        {| hr_of := S_OK; rect_of := zeroRect; bool_out := None;
           coord_out := Some {| X := 1; Y := 1 |}; font_out := None |}
    | EngineIsGlyphWideByFont _ =>
        {| hr_of := S_OK; rect_of := zeroRect; bool_out := Some false;
           coord_out := None; font_out := None |}
    | _ => plain S_OK
    end).

(** Every engine answers S_OK; engine [eager] asks for a final repaint at
    teardown. *)
Definition repainting (eager : IRenderEngine) : Environment :=
  environment_of (fun _ pEngine c =>
    match c with
    | PrepareForTeardown =>
        {| hr_of := S_OK; rect_of := zeroRect;
           bool_out := Some (Nat.eqb pEngine eager);
           coord_out := None; font_out := None |}
    | _ => plain S_OK
    end).

(** Engine [broken] cannot begin a frame; every other call succeeds. *)
Definition failing_to_start (broken : IRenderEngine) : Environment :=
  environment_of (fun _ pEngine c =>
    match c with
    | StartPaint => if Nat.eqb pEngine broken then plain E_FAIL else plain S_OK
    | _ => plain S_OK
    end).

Definition plainAttribute : TextAttribute := defaultAttribute.

(** A row of the given cells, all in one style. *)
Definition row_of (cs : list CharRowCell) : ROW :=
  {| GetCharRow :=
       {| cells := cs; GetTextRaw := Returns (map Char cs);
          WasWrapForced := false; MeasureRight := Z.of_nat (length cs) |};
     GetAttrRow := [ {| RunAttr := plainAttribute; RunLength := Z.of_nat (length cs) |} ] |}.

Definition blankCell : CharRowCell := {| Char := 32; DbcsAttr := Single |}.

(** A content provider showing a buffer of [width] by [height] blank
    cells through a viewport of the same size, cursor at the origin. *)
Definition dataOf (width height : Z) (doubleWidthCursor gridLines : bool)
    (selection : list SMALL_RECT) : IRenderData :=
  {| GetViewport :=
       FromInclusive {| Left := 0; Top := 0; Right := width - 1; Bottom := height - 1 |};
     GetTextBuffer :=
       {| Dimensions := {| X := width; Y := height |};
          GetRowByOffset := fun _ => row_of (repeat blankCell (Z.to_nat width)) |};
     GetFontInfo := {| IsTrueTypeFont := true; GetCodePage := 65001 |};
     GetDefaultBrushColors := plainAttribute;
     GetForegroundColor := fun _ => 16777215;
     GetBackgroundColor := fun _ => 0;
     GetCursorPosition := {| X := 0; Y := 0 |};
     IsCursorVisible := true;
     GetCursorHeight := 25;
     GetCursorStyle := 0;
     GetCursorColor := INVALID_COLOR;
     IsCursorDoubleWidth := doubleWidthCursor;
     ConvAreaCompStr := [];
     GetImeCompositionStringBuffer := fun _ => Throws E_FAIL;
     IsGridLineDrawingAllowed := gridLines;
     GetSelectionRects := Returns selection;
     GetConsoleTitle := [] |}.

Definition blankData (width height : Z) (doubleWidthCursor : bool) : IRenderData :=
  dataOf width height doubleWidthCursor false [].

Definition underlinedAttribute : TextAttribute :=
  {| GetLegacyAttributes := 32775; IsBold := false;
     IsTopHorizontalDisplayed := false; IsBottomHorizontalDisplayed := true;
     IsLeftVerticalDisplayed := false; IsRightVerticalDisplayed := false |}.

(** A row of three cells: two plain, one underlined. *)
Definition twoStyleRow : ROW :=
  {| GetCharRow :=
       {| cells := repeat blankCell 3; GetTextRaw := Returns [32; 32; 32];
          WasWrapForced := false; MeasureRight := 3 |};
     GetAttrRow := [ {| RunAttr := plainAttribute; RunLength := 2 |};
                     {| RunAttr := underlinedAttribute; RunLength := 1 |} ] |}.

(** A renderer as constructed, with the given engines attached. *)
Definition renderer_of (pData : IRenderData) (engines : list IRenderEngine) : Renderer :=
  {| _pData := pData; _rgpEngines := engines;
     _srViewportPrevious := zeroRect;
     _previousSelection := [];
     _pThread := {| scheduler := Disabled; signalled := false; paintInFlight := false |};
     events := [] |}.

(** A row whose text cannot be read. *)
Definition unreadableRow : ROW :=
  {| GetCharRow :=
       {| cells := repeat blankCell 2; GetTextRaw := Throws E_OUTOFMEMORY;
          WasWrapForced := false; MeasureRight := 2 |};
     GetAttrRow := [ {| RunAttr := plainAttribute; RunLength := 2 |} ] |}.

(** A buffer of three rows of two blank cells whose middle row cannot be
    read. *)
Definition holedBuffer : TextBuffer :=
  {| Dimensions := {| X := 2; Y := 3 |};
     GetRowByOffset :=
       fun iRow => if iRow =? 1 then unreadableRow else row_of (repeat blankCell 2) |}.

(** A content provider like [blankData] with the given conversion areas,
    each with a buffer of one blank row. *)
Definition dataWithAreas (width height : Z) (areas : list ConversionAreaInfo)
  : IRenderData :=
  let data := blankData width height false in
  {| GetViewport := GetViewport data;
     GetTextBuffer := GetTextBuffer data;
     GetFontInfo := GetFontInfo data;
     GetDefaultBrushColors := GetDefaultBrushColors data;
     GetForegroundColor := GetForegroundColor data;
     GetBackgroundColor := GetBackgroundColor data;
     GetCursorPosition := GetCursorPosition data;
     IsCursorVisible := IsCursorVisible data;
     GetCursorHeight := GetCursorHeight data;
     GetCursorStyle := GetCursorStyle data;
     GetCursorColor := GetCursorColor data;
     IsCursorDoubleWidth := IsCursorDoubleWidth data;
     ConvAreaCompStr := areas;
     GetImeCompositionStringBuffer := fun _ => Returns (GetTextBuffer data);
     IsGridLineDrawingAllowed := IsGridLineDrawingAllowed data;
     GetSelectionRects := GetSelectionRects data;
     GetConsoleTitle := GetConsoleTitle data |}.

(** A conversion area of one row at the origin, hidden or shown. *)
Definition areaAtOrigin (hidden : bool) : ConversionAreaInfo :=
  {| IsHidden := hidden;
     GetAreaBufferInfo :=
       {| coordConView := {| X := 0; Y := 0 |};
          rcViewCaWindow := {| Left := 0; Top := 0; Right := 1; Bottom := 0 |} |} |}.

(** Every engine answers S_OK, and has the two by two cells at the origin
    dirty. *)
Definition redrawing : Environment :=
  environment_of (fun _ _ c =>
    match c with
    | GetDirtyRectInChars =>
        {| hr_of := S_OK;
           rect_of := {| Left := 0; Top := 0; Right := 1; Bottom := 1 |};
           bool_out := None; coord_out := None; font_out := None |}
    | _ => plain S_OK
    end).

(** The environment [redrawing] as a build with DBG has it once _fDebug
    is set. *)
Definition debugging : Environment :=
  {| answer := answer redrawing;
     allocates := allocates redrawing;
     _fDebug := true;
     WideCharToMultiByte := WideCharToMultiByte redrawing;
     MultiByteToWideChar := MultiByteToWideChar redrawing;
     IsInBounds := IsInBounds redrawing;
     ConvertToOrigin := ConvertToOrigin redrawing;
     ConvertToOrigin_Viewport := ConvertToOrigin_Viewport redrawing;
     ConvertFromOrigin := ConvertFromOrigin redrawing;
     TrimToViewport := TrimToViewport redrawing |}.

(** A row of two blank cells that was wrapped at its end. *)
Definition wrappedRow : ROW :=
  {| GetCharRow :=
       {| cells := repeat blankCell 2; GetTextRaw := Returns [32; 32];
          WasWrapForced := true; MeasureRight := 2 |};
     GetAttrRow := [ {| RunAttr := plainAttribute; RunLength := 2 |} ] |}.

(** A content provider like [blankData] of a buffer two cells wide, every
    row of which was wrapped. *)
Definition wrappedData (height : Z) : IRenderData :=
  let data := blankData 2 height false in
  {| GetViewport := GetViewport data;
     GetTextBuffer :=
       {| Dimensions := {| X := 2; Y := height |};
          GetRowByOffset := fun _ => wrappedRow |};
     GetFontInfo := GetFontInfo data;
     GetDefaultBrushColors := GetDefaultBrushColors data;
     GetForegroundColor := GetForegroundColor data;
     GetBackgroundColor := GetBackgroundColor data;
     GetCursorPosition := GetCursorPosition data;
     IsCursorVisible := IsCursorVisible data;
     GetCursorHeight := GetCursorHeight data;
     GetCursorStyle := GetCursorStyle data;
     GetCursorColor := GetCursorColor data;
     IsCursorDoubleWidth := IsCursorDoubleWidth data;
     ConvAreaCompStr := ConvAreaCompStr data;
     GetImeCompositionStringBuffer := GetImeCompositionStringBuffer data;
     IsGridLineDrawingAllowed := IsGridLineDrawingAllowed data;
     GetSelectionRects := GetSelectionRects data;
     GetConsoleTitle := GetConsoleTitle data |}.

(** * Reading the log *)

(** The calls into engines a stretch of the log holds, in order. *)
Fixpoint calls_of (evs : list Event) : list (IRenderEngine * EngineCall) :=
  match evs with
  | [] => []
  | EngineEv pEngine c _ :: later => (pEngine, c) :: calls_of later
  | _ :: later => calls_of later
  end.

(** The engines' answers a stretch of the log holds, in order. *)
Fixpoint responses_of (evs : list Event) : list Response :=
  match evs with
  | [] => []
  | EngineEv _ _ r :: later => r :: responses_of later
  | _ :: later => responses_of later
  end.

(** What a method added to the log. *)
Definition logged_since (s s' : Renderer) : list Event :=
  skipn (length (events s)) (events s').

(** The calls by which a frame draws into its engine, ends its paint, or
    reads the engine's dirty rectangle. *)
Definition paint_call (c : EngineCall) : bool :=
  match c with
  | EndPaint | ScrollFrame | PaintBackground | UpdateDrawingBrushes _ _ _ _ _
  | PaintBufferLine _ _ _ _ _ _ | PaintBufferGridLines _ _ _ _
  | PaintSelection _ | PaintCursor _ _ _ _ _ _ | UpdateTitle _
  | GetDirtyRectInChars => true
  | _ => false
  end.

(** Events of painting into pEngine: its paint calls, and the logging and
    the allocations in between. *)
Definition painting (pEngine : IRenderEngine) (ev : Event) : bool :=
  match ev with
  | EngineEv e c _ => Nat.eqb e pEngine && paint_call c
  | Log _ | Alloc _ _ => true
  | _ => false
  end.

(** Events of the viewport check: viewport updates and scroll
    invalidations on any engine, and logging. *)
Definition scroll_checking (ev : Event) : bool :=
  match ev with
  | EngineEv _ (UpdateViewport _) _ | EngineEv _ (InvalidateScroll _) _
  | Log _ => true
  | _ => false
  end.

Definition is_StartPaint (pEngine : IRenderEngine) (ev : Event) : bool :=
  match ev with
  | EngineEv e StartPaint _ => Nat.eqb e pEngine
  | _ => false
  end.

Definition is_PrepareForTeardown (pEngine : IRenderEngine) (ev : Event) : bool :=
  match ev with
  | EngineEv e PrepareForTeardown _ => Nat.eqb e pEngine
  | _ => false
  end.

Definition is_Present (ev : Event) : bool :=
  match ev with
  | EngineEv _ Present _ => true
  | _ => false
  end.

Definition is_lock_operation (ev : Event) : bool :=
  match ev with
  | LockConsole | UnlockConsole => true
  | _ => false
  end.

(** A method that only adds events of one kind to the log, and changes
    nothing else of the Renderer. *)
Definition logs {A} (P : Event -> bool) (m : M A) : Prop :=
  forall s, exists evs, snd (m s) = record evs s /\ forallb P evs = true.

(** The log of one run of the per-backend frame procedure for pEngine: the
    lock is taken, the viewport is checked, the frame is begun, painted and
    ended, the lock is let go, and then the frame is presented or not. *)
Inductive frame_log (pEngine : IRenderEngine) : list Event -> Prop :=
| frame_log_intro (check : list Event) (r : Response) (paints tail : list Event) :
    forallb scroll_checking check = true ->
    forallb (painting pEngine) paints = true ->
    (tail = [] \/ exists r', tail = [EngineEv pEngine Present r']) ->
    frame_log pEngine
      (LockConsole :: check ++ EngineEv pEngine StartPaint r :: paints
                   ++ UnlockConsole :: tail).

(** A method that makes exactly the calls [cs] into engines, in order, and
    changes nothing of the Renderer but the log. *)
Definition issues {A} (cs : list (IRenderEngine * EngineCall)) (m : M A) : Prop :=
  forall s, exists evs, snd (m s) = record evs s /\ calls_of evs = cs.

(** The rest of a frame for pEngine once it has begun: painting, then the
    lock is let go, then the frame is presented or not. *)
Definition closes (pEngine : IRenderEngine) (m : M HRESULT) : Prop :=
  forall s, exists paints tail,
    snd (m s) = record (paints ++ UnlockConsole :: tail) s
    /\ forallb (painting pEngine) paints = true
    /\ (tail = [] \/ exists r', tail = [EngineEv pEngine Present r']).

(** The log of a frame as the paint-all loop and the teardown leave it: the
    frame's own log, then the Log of its failure if it failed. *)
Definition logged_frame (pEngine : IRenderEngine) (evs : list Event) : Prop :=
  exists fl, frame_log pEngine fl
             /\ (evs = fl \/ exists hr, FAILED hr = true /\ evs = fl ++ [Log hr]).

(** The engines are painted one after the other: each frame starts from
    the Renderer as the frame before left it, whatever that frame gave
    back, with the failure logged. *)
Inductive painted_in_order (env : Environment)
  : list IRenderEngine -> Renderer -> Renderer -> Prop :=
| painted_none (s : Renderer) : painted_in_order env [] s s
| painted_next (pEngine : IRenderEngine) (later : list IRenderEngine)
    (s s' : Renderer) :
    painted_in_order env later
      (let (hr, s1) := _PaintFrameForEngine env pEngine s in
       if FAILED hr then record [Log hr] s1 else s1)
      s' ->
    painted_in_order env (pEngine :: later) s s'.

(** A Backend's answer to prepare-for-teardown asks for a final repaint:
    the call succeeded and set the flag. *)
Definition wants_final_repaint (r : Response) : bool :=
  SUCCEEDED (hr_of r) && match bool_out r with Some b => b | None => false end.

(** The log of one turn of the teardown loop for pEngine: the
    PrepareForTeardown call, the Log of its failure if it failed, and then
    a whole logged frame if the answer asked for a final repaint, nothing
    otherwise. *)
Definition prepared_and_repainted (pEngine : IRenderEngine) (evs : list Event)
  : Prop :=
  exists r failure frame,
    evs = EngineEv pEngine PrepareForTeardown r :: failure ++ frame
    /\ (failure = [] \/ exists hr, failure = [Log hr])
    /\ (if wants_final_repaint r then logged_frame pEngine frame else frame = []).

(** The cells a list of rectangles holds, [covers] telling which cells one
    rectangle holds. *)
Definition covered (covers : SMALL_RECT -> COORD -> Prop) (rects : list SMALL_RECT)
    (cell : COORD) : Prop :=
  exists rect, In rect rects /\ covers rect cell.

(** The cells a stretch of the log invalidates on pEngine as selection. *)
Definition selection_invalidated (covers : SMALL_RECT -> COORD -> Prop)
    (pEngine : IRenderEngine) (evs : list Event) (cell : COORD) : Prop :=
  exists rects, In (pEngine, InvalidateSelection rects) (calls_of evs)
                /\ covered covers rects cell.

(** What an out variable holds after the answers [rs], each engine writing
    or not. *)
Definition written {A} (out : Response -> option A) (initial : A)
    (rs : list Response) : A :=
  fold_left (fun v r => match out r with Some x => x | None => v end) rs initial.

(** One of the answers is the unambiguous success. *)
Definition answered_S_OK (rs : list Response) : bool :=
  existsb (fun r => hr_of r =? S_OK) rs.

(** The engines were asked [c] in order, up to the first whose answer was
    S_OK: the answers are those of a first stretch of the engines, none
    but the last is S_OK, and the asking stopped short of the last engine
    only on S_OK. *)
Definition asked_until_S_OK (c : EngineCall) (engines : list IRenderEngine)
    (evs : list Event) : Prop :=
  calls_of evs
  = map (fun pEngine => (pEngine, c)) (firstn (length (responses_of evs)) engines)
  /\ Forall (fun r => hr_of r <> S_OK) (removelast (responses_of evs))
  /\ (answered_S_OK (responses_of evs) = false ->
      length (responses_of evs) = length engines).

(** The loop the three font and size queries share: ask each engine [c],
    keep what it wrote, stop at the first S_OK. It gives back whether it
    stopped on S_OK, and the out variable. *)
Fixpoint ask_until_S_OK {A} (env : Environment) (c : EngineCall)
    (out : Response -> option A) (engines : list IRenderEngine) (v : A)
    : M (bool * A) :=
  match engines with
  | [] => ret (false, v)
  | pEngine :: later =>
      r <- call env pEngine c ;;
      let v := match out r with Some x => x | None => v end in
      hr <- LOG_IF_FAILED (hr_of r) ;;
      if hr =? S_OK then ret (true, v)
      else ask_until_S_OK env c out later v
  end.

(** The decoration draws a stretch of the log holds: the length and the
    target of each. *)
Fixpoint decorations (evs : list Event) : list (Z * COORD) :=
  match evs with
  | [] => []
  | EngineEv _ (PaintBufferGridLines _ _ cch target) _ :: later =>
      (cch, target) :: decorations later
  | _ :: later => decorations later
  end.

Definition is_decoration (ev : Event) : bool :=
  match ev with
  | EngineEv _ (PaintBufferGridLines _ _ _ _) _ => true
  | _ => false
  end.

(** ** The steps of a frame, and what is drawn in between *)

(** The calls a frame needs to succeed to go on (each is under
    RETURN_IF_FAILED in _PaintFrameForEngine): begin-frame, the brush update
    that includes the background (the frame's own; the brush update of a
    colour run leaves the background out), scroll, background, title and
    present. *)
Definition frame_step (c : EngineCall) : bool :=
  match c with
  | StartPaint | ScrollFrame | PaintBackground | UpdateTitle _ | Present => true
  | UpdateDrawingBrushes _ _ _ _ includeBackground => includeBackground
  | _ => false
  end.

(** The HRESULTs pEngine answered to frame steps, in order. *)
Fixpoint step_answers (pEngine : IRenderEngine) (evs : list Event) : list HRESULT :=
  match evs with
  | [] => []
  | EngineEv e c r :: later =>
      if Nat.eqb e pEngine && frame_step c
      then hr_of r :: step_answers pEngine later
      else step_answers pEngine later
  | _ :: later => step_answers pEngine later
  end.

(** [hr] is what a run of steps with the given answers comes to when it
    stops at the first failure: S_OK when no answer failed, and else the
    failure, which is the last answer there is. *)
Definition first_failure (answers : list HRESULT) (hr : HRESULT) : Prop :=
  exists oks,
    forallb SUCCEEDED oks = true
    /\ ((answers = oks /\ hr = S_OK) \/ (answers = oks ++ [hr] /\ FAILED hr = true)).

(** An event that is no frame step of pEngine. *)
Definition no_step (pEngine : IRenderEngine) (ev : Event) : bool :=
  match ev with
  | EngineEv e c _ => negb (Nat.eqb e pEngine && frame_step c)
  | _ => true
  end.

Definition is_EndPaint (ev : Event) : bool :=
  match ev with
  | EngineEv _ EndPaint _ => true
  | _ => false
  end.

Definition is_thread_event (ev : Event) : bool :=
  match ev with
  | ThreadEv _ => true
  | _ => false
  end.

(** The calls by which text, selection and cursor are drawn: the brush
    update of a colour run, the text and grid line draws, the selection and
    cursor draws, and the reading of the dirty rectangle. *)
Definition draw_call (c : EngineCall) : bool :=
  match c with
  | UpdateDrawingBrushes _ _ _ _ includeBackground => negb includeBackground
  | PaintBufferLine _ _ _ _ _ _ | PaintBufferGridLines _ _ _ _
  | PaintSelection _ | PaintCursor _ _ _ _ _ _ | GetDirtyRectInChars => true
  | _ => false
  end.

(** Events of drawing into pEngine: its draw calls, and the logging and
    the allocations in between. *)
Definition drawing (pEngine : IRenderEngine) (ev : Event) : bool :=
  match ev with
  | EngineEv e c _ => Nat.eqb e pEngine && draw_call c
  | Log _ | Alloc _ _ => true
  | _ => false
  end.

(** Events of painting into pEngine short of ending the paint. *)
Definition working (pEngine : IRenderEngine) (ev : Event) : bool :=
  painting pEngine ev && negb (is_EndPaint ev).

(** Every text or grid line draw of the event lands on a screen line that
    [ok] accepts. *)
Definition target_rows (ok : Z -> bool) (ev : Event) : bool :=
  match ev with
  | EngineEv _ (PaintBufferLine _ _ _ target _ _) _
  | EngineEv _ (PaintBufferGridLines _ _ _ target) _ => ok (Y target)
  | _ => true
  end.

(** A method that gives [hr] back after logging no frame step of pEngine:
    the way out of a frame that has failed. *)
Definition gives_up (pEngine : IRenderEngine) (hr : HRESULT) (m : M HRESULT) : Prop :=
  forall s, exists evs,
    m s = (hr, record evs s) /\ forallb (no_step pEngine) evs = true.

(** A method that makes one call, a frame step of pEngine, and gives back
    a failure exactly when the engine answered one, and then that one. *)
Definition takes_step (pEngine : IRenderEngine) (m : M HRESULT) : Prop :=
  forall s, exists c r,
    frame_step c = true
    /\ snd (m s) = record [EngineEv pEngine c r] s
    /\ FAILED (fst (m s)) = FAILED (hr_of r)
    /\ (FAILED (hr_of r) = true -> fst (m s) = hr_of r).

(** A method that stops at the first of its frame steps that fails. *)
Definition stops (pEngine : IRenderEngine) (m : M HRESULT) : Prop :=
  forall s, exists evs,
    snd (m s) = record evs s
    /\ first_failure (step_answers pEngine evs) (fst (m s)).

(** The rest of a frame for pEngine that has begun: work, then the one
    EndPaint call with the Log of its failure if it failed, then the lock
    is let go, then the frame is presented or not. *)
Definition ends (pEngine : IRenderEngine) (m : M HRESULT) : Prop :=
  forall s, exists work rEnd failure tail,
    snd (m s)
    = record (work ++ EngineEv pEngine EndPaint rEnd :: failure
                   ++ UnlockConsole :: tail) s
    /\ forallb (working pEngine) work = true
    /\ (failure = [] \/ failure = [Log (hr_of rEnd)])
    /\ (tail = [] \/ exists r', tail = [EngineEv pEngine Present r']).

(** A method that only adds events of one kind to the log, and changes
    nothing else, of a Renderer whose content provider is pData. *)
Definition logs_for {A} (pData : IRenderData) (P : Event -> bool) (m : M A) : Prop :=
  forall s, _pData s = pData ->
    exists evs, snd (m s) = record evs s /\ forallb P evs = true.

(** An event that is no call into an engine. *)
Definition no_call (ev : Event) : bool :=
  match ev with
  | EngineEv _ _ _ => false
  | _ => true
  end.

(** The glyphs the text draws of a stretch of the log were told to draw,
    all together: the sum of the counts of its PaintBufferLine calls. *)
Fixpoint glyphs_drawn (evs : list Event) : Z :=
  match evs with
  | [] => 0
  | EngineEv _ (PaintBufferLine _ _ cch _ _ _) _ :: later => cch + glyphs_drawn later
  | _ :: later => glyphs_drawn later
  end.

(** The columns the grid line draws of a stretch of the log were told to
    cover, all together. *)
Fixpoint columns_lined (evs : list Event) : Z :=
  match evs with
  | [] => 0
  | EngineEv _ (PaintBufferGridLines _ _ cch _) _ :: later => cch + columns_lined later
  | _ :: later => columns_lined later
  end.

(** An event that is neither a text draw nor a grid line draw. *)
Definition no_line_draw (ev : Event) : bool :=
  match ev with
  | EngineEv _ (PaintBufferLine _ _ _ _ _ _) _
  | EngineEv _ (PaintBufferGridLines _ _ _ _) _ => false
  | _ => true
  end.

(** A method that only adds to the log, text draws of no more than
    [glyphs] glyphs and grid line draws of no more than [columns] columns
    all together. *)
Definition draws_at_most {A} (glyphs columns : Z) (m : M A) : Prop :=
  forall s, exists evs,
    snd (m s) = record evs s
    /\ glyphs_drawn evs <= glyphs
    /\ columns_lined evs <= columns.

(** ** The layers of a frame *)

(** The layer a draw call paints: the background, the text with its grid
    lines, the selection, the cursor. Any other call paints none. *)
Definition layer (c : EngineCall) : option nat :=
  match c with
  | PaintBackground => Some 0%nat
  | PaintBufferLine _ _ _ _ _ _ | PaintBufferGridLines _ _ _ _ => Some 1%nat
  | PaintSelection _ => Some 2%nat
  | PaintCursor _ _ _ _ _ _ => Some 3%nat
  | _ => None
  end.

(** The layers the draw calls of a stretch of the log paint, in order. *)
Fixpoint layers (evs : list Event) : list nat :=
  match evs with
  | [] => []
  | EngineEv _ c _ :: later =>
      match layer c with
      | Some n => n :: layers later
      | None => layers later
      end
  | _ :: later => layers later
  end.

(** An event that paints layer [k], or none. *)
Definition layer_is (k : nat) (ev : Event) : bool :=
  match ev with
  | EngineEv _ c _ =>
      match layer c with
      | Some n => Nat.eqb n k
      | None => true
      end
  | _ => true
  end.

(** No layer is painted after a layer above it. *)
Fixpoint nondecreasing (l : list nat) : bool :=
  match l with
  | [] => true
  | a :: later =>
      match later with
      | [] => true
      | b :: _ => (a <=? b)%nat && nondecreasing later
      end
  end.

(** A method that only adds to the log, and paints its layers from [k]
    upwards, bottom to top. *)
Definition paints_up_from {A} (k : nat) (m : M A) : Prop :=
  forall s, exists evs,
    snd (m s) = record evs s
    /\ nondecreasing (layers evs) = true
    /\ Forall (fun n => (k <= n)%nat) (layers evs).

(** An event that is a call into pEngine, or a viewport update or scroll
    invalidation of any engine, or no call at all. *)
Definition own_or_viewport (pEngine : IRenderEngine) (ev : Event) : bool :=
  match ev with
  | EngineEv e (UpdateViewport _) _ | EngineEv e (InvalidateScroll _) _ => true
  | EngineEv e _ _ => Nat.eqb e pEngine
  | _ => true
  end.

(** The log of the calls [cs] made into pEngine one after the other, each
    under LOG_IF_FAILED: every call with its answer, in order, each failed
    answer followed by the Log of its failure, and nothing else. *)
Inductive each_logged (pEngine : IRenderEngine)
  : list EngineCall -> list Event -> Prop :=
| each_logged_nil : each_logged pEngine [] []
| each_logged_cons (c : EngineCall) (r : Response) (cs : list EngineCall)
    (evs : list Event) :
    each_logged pEngine cs evs ->
    each_logged pEngine (c :: cs)
      (EngineEv pEngine c r
         :: (if FAILED (hr_of r) then [Log (hr_of r)] else []) ++ evs).

(** The turn of the loop of the colour helper that finds nothing to
    draw: the brushes are updated for the style found, and the loop is
    left. [None] when the loop has no such turn. *)
Definition closing_turn (env : Environment) (pEngine : IRenderEngine)
    (closing : option TextAttribute) : M unit :=
  match closing with
  | Some attr =>
      hrBrushes <- _UpdateDrawingBrushes env pEngine attr false ;;
      LOG_IF_FAILED hrBrushes ;;
      ret tt
  | None => ret tt
  end.

(** A method that only adds to the log, and last of all the Log of a
    failure that [Q] holds of. *)
Definition ends_logging {A} (Q : HRESULT -> Prop) (m : M A) : Prop :=
  forall s, exists evs hr,
    snd (m s) = record (evs ++ [Log hr]) s /\ Q hr.

(** The frame that _PaintBufferOutput draws at the end of a wrapped row
    when _fDebug is set: the right and the bottom line, one column long, in
    RGB(0x99, 0x77, 0x31). *)
Definition debug_frame (ev : Event) : bool :=
  match ev with
  | EngineEv _ (PaintBufferGridLines lines rgb cch _) _ =>
      negb (GridTop lines) && GridBottom lines
      && negb (GridLeft lines) && GridRight lines
      && (rgb =? RGB 153 119 49) && (cch =? 1)
  | _ => false
  end.

(** * Properties *)

(** ** Machine integers *)

Lemma SHORT_of_small (z : Z) : -32768 <= z <= 32767 -> SHORT_of z = z.
Proof.
  intros H. unfold SHORT_of.
  rewrite Z.mod_small by lia. lia.
Qed.

Lemma size_t_of_small (z : Z) : 0 <= z < 18446744073709551616 -> size_t_of z = z.
Proof.
  intros H. unfold size_t_of. now rewrite Z.mod_small.
Qed.

(** ** The log *)

Lemma record_record (a b : list Event) (s : Renderer) :
  record b (record a s) = record (a ++ b) s.
Proof.
  unfold record. cbn [_pData _rgpEngines _srViewportPrevious _previousSelection
                      _pThread events].
  now rewrite app_assoc.
Qed.

Lemma record_nil (s : Renderer) : record [] s = s.
Proof.
  destruct s. unfold record. cbn. now rewrite app_nil_r.
Qed.

Lemma run_bind {A B} (m : M A) (k : A -> M B) (s : Renderer) :
  bind m k s = k (fst (m s)) (snd (m s)).
Proof. unfold bind. now destruct (m s). Qed.

Lemma record_inj (a b : list Event) (s : Renderer) :
  record a s = record b s -> a = b.
Proof.
  intros H. apply (f_equal events) in H. cbn [record events] in H.
  now apply app_inv_head in H.
Qed.

Lemma set_srViewportPrevious_record (r : SMALL_RECT) (evs : list Event) (s : Renderer) :
  set_srViewportPrevious r (record evs s) = record evs (set_srViewportPrevious r s).
Proof. reflexivity. Qed.

Lemma set_pThread_record (t : RenderThread) (evs : list Event) (s : Renderer) :
  set_pThread t (record evs s) = record evs (set_pThread t s).
Proof. reflexivity. Qed.

Lemma set_previousSelection_record (rs : list SMALL_RECT) (evs : list Event)
    (s : Renderer) :
  set_previousSelection rs (record evs s) = record evs (set_previousSelection rs s).
Proof. reflexivity. Qed.

Lemma logged_since_record (evs : list Event) (s s0 : Renderer) :
  events s0 = events s -> logged_since s (record evs s0) = evs.
Proof.
  intros H. unfold logged_since. cbn [record events]. rewrite H.
  rewrite skipn_app, skipn_all, Nat.sub_diag. reflexivity.
Qed.

Lemma calls_of_app (a b : list Event) : calls_of (a ++ b) = calls_of a ++ calls_of b.
Proof.
  induction a as [|ev a IH]; [reflexivity|].
  destruct ev; cbn [app calls_of]; now rewrite IH.
Qed.

Lemma responses_of_app (a b : list Event) :
  responses_of (a ++ b) = responses_of a ++ responses_of b.
Proof.
  induction a as [|ev a IH]; [reflexivity|].
  destruct ev; cbn [app responses_of]; now rewrite IH.
Qed.

(** ** Wide glyphs: _PaintBufferOutputDoubleByteHelper *)

Section DoubleByte.

Variable env : Environment.

Lemma deduplicated_cons (glyph : WCHAR) (cell : CharRowCell)
    (rest : list (WCHAR * CharRowCell)) :
  deduplicated ((glyph, cell) :: rest) =
  if IsTrailing (DbcsAttr cell) then deduplicated rest
  else (glyph, if IsLeading (DbcsAttr cell) then 2 else 1) :: deduplicated rest.
Proof.
  unfold deduplicated. cbn [filter snd].
  now destruct (IsTrailing (DbcsAttr cell)).
Qed.

Lemma deduplicated_length (run : list (WCHAR * CharRowCell)) :
  (length (deduplicated run) <= length run)%nat.
Proof.
  unfold deduplicated. rewrite length_map. apply filter_length_le.
Qed.

Lemma combine_nil_r {A B} (l : list A) : combine l (@nil B) = [].
Proof. now destruct l. Qed.

Lemma skipn_nth_cons (l : list WCHAR) (n : nat) :
  (n < length l)%nat -> skipn n l = nth n l 0 :: skipn (S n) l.
Proof.
  revert n. induction l as [|g l IH]; intros n Hn; cbn in Hn; [lia|].
  destruct n as [|n]; [reflexivity|].
  change (skipn n l = nth n l 0 :: skipn (S n) l). apply IH. lia.
Qed.

Lemma DbcsSegment_unchanged (st : DbcsSegment) :
  {| pwsSegment := pwsSegment st ++ [];
     rgSegmentWidth := rgSegmentWidth st ++ [];
     cchSegment := cchSegment st + Z.of_nat 0;
     coordTargetAdjustable := coordTargetAdjustable st;
     fTrimLeft := fTrimLeft st |} = st.
Proof.
  destruct st; cbn [pwsSegment rgSegmentWidth cchSegment coordTargetAdjustable fTrimLeft].
  now rewrite !app_nil_r, Z.add_0_r.
Qed.

(** Past the first cell the loop appends the deduplicated rest of the run
    and touches neither the target nor the trim flag. *)
Lemma DoubleByte_walk_later (pwsLine : list WCHAR) (cchLine : Z) :
  (Z.to_nat cchLine <= length pwsLine)%nat ->
  forall (it : list CharRowCell) (iLine : Z) (st : DbcsSegment),
    0 < iLine ->
    let run := combine (skipn (Z.to_nat iLine) pwsLine)
                       (firstn (Z.to_nat (cchLine - iLine)) it) in
    DoubleByte_walk pwsLine cchLine iLine it st =
    {| pwsSegment := pwsSegment st ++ map fst (deduplicated run);
       rgSegmentWidth := rgSegmentWidth st ++ map snd (deduplicated run);
       cchSegment := cchSegment st + Z.of_nat (length (deduplicated run));
       coordTargetAdjustable := coordTargetAdjustable st;
       fTrimLeft := fTrimLeft st |}.
Proof.
  intros Hlen it. induction it as [|cell it IH]; intros iLine st Hpos run.
  - subst run. rewrite firstn_nil, combine_nil_r.
    cbn [DoubleByte_walk deduplicated map filter length].
    now rewrite DbcsSegment_unchanged.
  - cbn [DoubleByte_walk]. destruct (iLine <? cchLine) eqn:Hlt.
    + apply Z.ltb_lt in Hlt.
      assert (Hn : Z.to_nat (cchLine - iLine) = S (Z.to_nat (cchLine - (iLine + 1)))) by lia.
      assert (Hskip : skipn (Z.to_nat iLine) pwsLine =
                      nth (Z.to_nat iLine) pwsLine 0
                      :: skipn (Z.to_nat (iLine + 1)) pwsLine).
      { replace (Z.to_nat (iLine + 1)) with (S (Z.to_nat iLine)) by lia.
        apply skipn_nth_cons. lia. }
      subst run. rewrite Hn, Hskip. cbn [firstn combine].
      rewrite IH by lia. rewrite deduplicated_cons.
      set (rest := deduplicated _).
      destruct (DbcsAttr cell) eqn:Hd; cbn [IsTrailing IsLeading negb].
      * cbn [pwsSegment rgSegmentWidth cchSegment coordTargetAdjustable fTrimLeft
             map fst snd].
        rewrite <- !app_assoc. cbn [app]. f_equal.
        change (length ((nth (Z.to_nat iLine) pwsLine 0, 1) :: rest))
          with (S (length rest)). lia.
      * cbn [pwsSegment rgSegmentWidth cchSegment coordTargetAdjustable fTrimLeft
             map fst snd].
        rewrite <- !app_assoc. cbn [app]. f_equal.
        change (length ((nth (Z.to_nat iLine) pwsLine 0, 2) :: rest))
          with (S (length rest)). lia.
      * assert (Hne : (iLine =? 0) = false) by (apply Z.eqb_neq; lia).
        now rewrite Hne.
    + apply Z.ltb_ge in Hlt. subst run.
      replace (Z.to_nat (cchLine - iLine)) with 0%nat by lia.
      cbn [firstn]. rewrite combine_nil_r.
      cbn [deduplicated map filter length].
      now rewrite DbcsSegment_unchanged.
Qed.

(** From the start of a run the loop builds what the spec describes. *)
Lemma DoubleByte_walk_spec (pwsLine : list WCHAR) (cchLine : Z)
    (it : list CharRowCell) (coordTarget : COORD) :
  (Z.to_nat cchLine <= length pwsLine)%nat ->
  let run := combine pwsLine (firstn (Z.to_nat cchLine) it) in
  let st := DoubleByte_walk pwsLine cchLine 0 it
              {| pwsSegment := []; rgSegmentWidth := []; cchSegment := 0;
                 coordTargetAdjustable := coordTarget; fTrimLeft := false |} in
  (pwsSegment st, rgSegmentWidth st, coordTargetAdjustable st, fTrimLeft st)
  = row_draw_spec run coordTarget
  /\ cchSegment st = Z.of_nat (length (pwsSegment st))
  /\ Z.of_nat (length (pwsSegment st)) <= Z.max cchLine 0.
Proof.
  intros Hlen run st. subst run st.
  destruct it as [|cell it].
  - rewrite firstn_nil, combine_nil_r. cbn. repeat split; lia.
  - cbn [DoubleByte_walk]. destruct (0 <? cchLine) eqn:Hlt.
    + apply Z.ltb_lt in Hlt.
      destruct pwsLine as [|g pws]; [cbn in Hlen; lia|].
      assert (Hn : Z.to_nat cchLine = S (Z.to_nat (cchLine - 1))) by lia.
      rewrite DoubleByte_walk_later by (try assumption; lia).
      rewrite Hn. replace (0 + 1) with 1 by lia.
      replace (Z.to_nat 1) with 1%nat by lia. cbn [skipn firstn combine].
      set (rest := combine pws (firstn (Z.to_nat (cchLine - 1)) it)).
      assert (Hrest : Z.of_nat (length (deduplicated rest)) <= cchLine - 1).
      { pose proof (deduplicated_length rest) as Hd.
        subst rest. rewrite length_combine, length_firstn in Hd. lia. }
      cbn [row_draw_spec]. rewrite deduplicated_cons.
      replace (Z.to_nat 0) with 0%nat by lia. cbn [nth].
      rewrite Z.eqb_refl.
      destruct (DbcsAttr cell) eqn:Hd;
        cbn [IsTrailing IsLeading negb pwsSegment rgSegmentWidth cchSegment
             coordTargetAdjustable fTrimLeft app X Y map fst snd];
        (split; [reflexivity|]);
        rewrite ?length_cons, ?length_map; split; lia.
    + apply Z.ltb_ge in Hlt.
      replace (Z.to_nat cchLine) with 0%nat by lia. cbn [firstn].
      rewrite combine_nil_r. cbn. repeat split; lia.
Qed.

(** C1. For every row segment handed to _PaintBufferOutputDoubleByteHelper
    (the first cchLine cells from [it], each with its glyph from pwsLine),
    once the two segment buffers are allocated, the Backend gets exactly one
    PaintBufferLine call, and it carries [row_draw_spec] of the segment: when
    the first cell is not a trailing cell, every trailing cell is dropped
    from the text, each leading cell's glyph is there once with width 2, a
    single cell's with width 1, the target is the requested one and the
    trim flag is clear; when the first cell is a trailing cell, its glyph is
    included with width 2, the flag to trim the left half is set, and the
    target is one column left of the requested one (in SHORT arithmetic;
    plainly X - 1 for every requested X above the least SHORT). The count
    passed is the number of glyphs sent. *)
Theorem DoubleByteHelper_draws_deduplicated_run
    (pEngine : IRenderEngine) (pwsLine : list WCHAR) (it : list CharRowCell)
    (cchLine : Z) (coordTarget : COORD) (lineWrapped : bool) (s : Renderer) :
  0 <= cchLine ->
  (Z.to_nat cchLine <= length pwsLine)%nat ->
  allocates env (events s) cchLine = true ->
  allocates env (events s ++ [Alloc cchLine true]) cchLine = true ->
  let run := combine pwsLine (firstn (Z.to_nat cchLine) it) in
  exists (text : list WCHAR) (widths : list Z) (target : COORD) (trim : bool)
         (r : Response),
    row_draw_spec run coordTarget = (text, widths, target, trim)
    /\ _PaintBufferOutputDoubleByteHelper env pEngine pwsLine it cchLine
         coordTarget lineWrapped s
       = (if FAILED (hr_of r) then hr_of r else S_OK,
          record [Alloc cchLine true; Alloc cchLine true;
                  EngineEv pEngine
                    (PaintBufferLine text widths (Z.of_nat (length text))
                       target trim lineWrapped) r] s)
    /\ (trim = true -> -32768 < X coordTarget <= 32767 ->
        target = {| X := X coordTarget - 1; Y := Y coordTarget |}).
Proof.
  intros Hsize Hlen Hfirst Hsecond run.
  pose proof (DoubleByte_walk_spec pwsLine cchLine it coordTarget Hlen)
    as (Hspec & Hcount & Hbound).
  cbv zeta in Hspec, Hcount, Hbound. fold run in Hspec.
  set (st := DoubleByte_walk pwsLine cchLine 0 it _) in *.
  set (call_made := PaintBufferLine (pwsSegment st) (rgSegmentWidth st)
                      (Z.of_nat (length (pwsSegment st)))
                      (coordTargetAdjustable st) (fTrimLeft st) lineWrapped).
  exists (pwsSegment st), (rgSegmentWidth st), (coordTargetAdjustable st),
         (fTrimLeft st),
         (answer env (events s ++ [Alloc cchLine true; Alloc cchLine true])
            pEngine call_made).
  split; [now rewrite <- Hspec|]. split.
  - unfold _PaintBufferOutputDoubleByteHelper, bind, make_unique_nothrow.
    rewrite Hfirst. cbn [negb record events]. rewrite Hsecond. cbn [negb].
    fold st. unfold call, bind, ret.
    assert (Hmin : Z.min (cchSegment st) cchLine = Z.of_nat (length (pwsSegment st))) by lia.
    rewrite Hmin. fold call_made.
    rewrite !record_record. cbn [record events app].
    destruct (FAILED _); reflexivity.
  - intros Htrim Hrange. subst run.
    destruct (combine pwsLine (firstn (Z.to_nat cchLine) it)) as [|[glyph cell] rest];
      cbn [row_draw_spec] in Hspec.
    + inversion Hspec as [[Ht Hw Hc Hf]]. congruence.
    + destruct (IsTrailing (DbcsAttr cell)).
      * inversion Hspec as [[Ht Hw Hc Hf]].
        rewrite Hc, SHORT_of_small by lia. reflexivity.
      * inversion Hspec as [[Ht Hw Hc Hf]]. congruence.
Qed.

End DoubleByte.

(** The right half alone of a wide glyph is asked for at column 1: one
    draw call, at column 0, width 2, left half trimmed. *)
Lemma DoubleByteHelper_draws_deduplicated_run_witness :
  exists (text : list WCHAR) (widths : list Z) (target : COORD) (trim : bool)
         (r : Response),
    row_draw_spec [(20013, {| Char := 20013; DbcsAttr := Trailing |})]
                  {| X := 1; Y := 0 |}
    = (text, widths, target, trim)
    /\ _PaintBufferOutputDoubleByteHelper agreeable 7%nat [20013]
         [{| Char := 20013; DbcsAttr := Trailing |}] 1 {| X := 1; Y := 0 |} false
         (renderer_of (blankData 2 1 false) [7%nat])
       = (if FAILED (hr_of r) then hr_of r else S_OK,
          record [Alloc 1 true; Alloc 1 true;
                  EngineEv 7%nat
                    (PaintBufferLine text widths (Z.of_nat (length text))
                       target trim false) r]
                 (renderer_of (blankData 2 1 false) [7%nat]))
    /\ (trim = true -> -32768 < 1 <= 32767 ->
        target = {| X := 1 - 1; Y := 0 |}).
Proof.
  apply (DoubleByteHelper_draws_deduplicated_run agreeable 7%nat [20013]
           [{| Char := 20013; DbcsAttr := Trailing |}] 1 {| X := 1; Y := 0 |} false
           (renderer_of (blankData 2 1 false) [7%nat]));
    [lia | cbn; lia | reflexivity | reflexivity].
Defined.

(** A leading and trailing pair drawn in full: one draw call over both
    columns, one glyph of width 2, nothing trimmed. *)
Example wide_pair_drawn_in_full :
  calls_of
    (events
       (snd (_PaintBufferOutputDoubleByteHelper agreeable 7%nat [20013; 20013]
               [{| Char := 20013; DbcsAttr := Leading |};
                {| Char := 20013; DbcsAttr := Trailing |}]
               2 {| X := 4; Y := 0 |} false
               (renderer_of (blankData 6 1 false) [7%nat]))))
  = [(7%nat, PaintBufferLine [20013] [2] 1 {| X := 4; Y := 0 |} false false)].
Proof. reflexivity. Qed.

(** Only its trailing column asked for: one draw call starting one column
    left, width 2, left half trimmed. *)
Example wide_pair_right_half_alone :
  calls_of
    (events
       (snd (_PaintBufferOutputDoubleByteHelper agreeable 7%nat [20013]
               [{| Char := 20013; DbcsAttr := Trailing |}]
               1 {| X := 5; Y := 0 |} false
               (renderer_of (blankData 6 1 false) [7%nat]))))
  = [(7%nat, PaintBufferLine [20013] [2] 1 {| X := 4; Y := 0 |} true false)].
Proof. reflexivity. Qed.

(** When the buffers cannot be allocated nothing is drawn. *)
Example no_memory_no_draw :
  let env :=
    {| answer := answer agreeable; allocates := fun _ _ => false;
       _fDebug := false;
       WideCharToMultiByte := WideCharToMultiByte agreeable;
       MultiByteToWideChar := MultiByteToWideChar agreeable;
       IsInBounds := IsInBounds agreeable;
       ConvertToOrigin := ConvertToOrigin agreeable;
       ConvertToOrigin_Viewport := ConvertToOrigin_Viewport agreeable;
       ConvertFromOrigin := ConvertFromOrigin agreeable;
       TrimToViewport := TrimToViewport agreeable |} in
  _PaintBufferOutputDoubleByteHelper env 7%nat [65] [blankCell] 1
    {| X := 0; Y := 0 |} false (renderer_of (blankData 1 1 false) [7%nat])
  = (E_OUTOFMEMORY, record [Alloc 1 false] (renderer_of (blankData 1 1 false) [7%nat])).
Proof. reflexivity. Qed.

(** ** Methods that only log *)

Section Logging.

Variable env : Environment.

Lemma logs_ret {A} (P : Event -> bool) (a : A) : logs P (ret a).
Proof. intros s. exists []. now rewrite record_nil. Qed.

Lemma logs_gets {A} (P : Event -> bool) (f : Renderer -> A) : logs P (gets f).
Proof. intros s. exists []. now rewrite record_nil. Qed.

Lemma logs_bind {A B} (P : Event -> bool) (m : M A) (k : A -> M B) :
  logs P m -> (forall a, logs P (k a)) -> logs P (bind m k).
Proof.
  intros Hm Hk s. unfold bind. destruct (Hm s) as (evs & Hs & HP).
  destruct (m s) as [a s1]. cbn [snd] in Hs. subst s1.
  destruct (Hk a (record evs s)) as (evs' & Hs' & HP').
  exists (evs ++ evs'). rewrite Hs', record_record. split; [reflexivity|].
  rewrite forallb_app, HP, HP'. reflexivity.
Qed.

Lemma logs_emit (P : Event -> bool) (ev : Event) : P ev = true -> logs P (emit ev).
Proof.
  intros HP s. exists [ev]. split; [reflexivity|]. cbn. now rewrite HP.
Qed.

Lemma logs_call (P : Event -> bool) (pEngine : IRenderEngine) (c : EngineCall) :
  (forall r, P (EngineEv pEngine c r) = true) -> logs P (call env pEngine c).
Proof.
  intros HP s. eexists. split; [reflexivity|]. cbn. now rewrite HP.
Qed.

Lemma logs_make_unique_nothrow (P : Event -> bool) (n : Z) :
  (forall ok, P (Alloc n ok) = true) -> logs P (make_unique_nothrow env n).
Proof.
  intros HP s. eexists. split; [reflexivity|]. cbn. now rewrite HP.
Qed.

Lemma logs_LOG_IF_FAILED (P : Event -> bool) (hr : HRESULT) :
  (forall h, P (Log h) = true) -> logs P (LOG_IF_FAILED hr).
Proof.
  intros HP. unfold LOG_IF_FAILED. destruct (FAILED hr).
  - apply logs_bind; [now apply logs_emit | intros; apply logs_ret].
  - apply logs_ret.
Qed.

Lemma logs_for_each {A} (P : Event -> bool) (l : list A) (body : A -> M unit) :
  (forall a, logs P (body a)) -> logs P (for_each l body).
Proof.
  intros Hbody. induction l as [|a l IH]; cbn [for_each].
  - apply logs_ret.
  - apply logs_bind; [apply Hbody | intros; apply IH].
Qed.

End Logging.

(** One step of a proof that a method only logs events of a kind that
    holds every paint call of the engine, every Log and every Alloc. *)
Ltac logs_step :=
  lazymatch goal with
  | |- logs _ (ret _) => apply logs_ret
  | |- logs _ (gets _) => apply logs_gets
  | |- logs _ (bind _ _) => apply logs_bind; [| intros ?]
  | |- logs _ (call _ _ _) => apply logs_call; intros ?; try reflexivity
  | |- logs _ (make_unique_nothrow _ _) =>
      apply logs_make_unique_nothrow; intros ?; try reflexivity
  | |- logs _ (LOG_IF_FAILED _) => apply logs_LOG_IF_FAILED; intros ?; try reflexivity
  | |- logs _ (emit _) => apply logs_emit; try reflexivity
  | |- logs _ (for_each _ _) => apply logs_for_each; intros ?
  | |- logs _ (if ?b then _ else _) => destruct b
  | |- logs _ (match ?x with Returns _ => _ | Throws _ => _ end) => destruct x
  | |- logs _ (let (_, _) := ?x in _) => destruct x
  end.

Section Painting.

Variable env : Environment.
Variable pEngine : IRenderEngine.

Let paints := painting pEngine.

Lemma paints_call (c : EngineCall) (r : Response) :
  paint_call c = true -> paints (EngineEv pEngine c r) = true.
Proof.
  intros Hc. unfold paints. cbn. now rewrite Nat.eqb_refl, Hc.
Qed.

Lemma logs_UpdateDrawingBrushes (a : TextAttribute) (b : bool) :
  logs paints (_UpdateDrawingBrushes env pEngine a b).
Proof.
  unfold _UpdateDrawingBrushes. repeat logs_step. now apply paints_call.
Qed.

Lemma logs_DoubleByteHelper (pwsLine : list WCHAR) (it : list CharRowCell)
    (cchLine : Z) (coordTarget : COORD) (lineWrapped : bool) :
  logs paints (_PaintBufferOutputDoubleByteHelper env pEngine pwsLine it cchLine
                 coordTarget lineWrapped).
Proof.
  unfold _PaintBufferOutputDoubleByteHelper. repeat logs_step.
  now apply paints_call.
Qed.

Lemma logs_GridLineHelper (a : TextAttribute) (cchLine : Z) (coordTarget : COORD) :
  logs paints (_PaintBufferOutputGridLineHelper env pEngine a cchLine coordTarget).
Proof.
  unfold _PaintBufferOutputGridLineHelper. repeat logs_step.
  now apply paints_call.
Qed.

Lemma logs_ColorHelper_loop (Row : ROW) (cchLine iFirstAttr : Z) (lineWrapped : bool)
    (fuel : nat) (st : ColorSegment) :
  logs paints (ColorHelper_loop env fuel pEngine Row cchLine iFirstAttr lineWrapped st).
Proof.
  revert st. induction fuel as [|fuel IH]; intros st; cbn [ColorHelper_loop].
  - apply logs_ret.
  - destruct (GetAttrByColumn _ _) as [attr cAttrApplies].
    apply logs_bind; [apply logs_UpdateDrawingBrushes | intros ?].
    repeat logs_step;
      try apply logs_DoubleByteHelper; try apply logs_GridLineHelper; apply IH.
Qed.

Lemma logs_RasterFontHelper (Row : ROW) (pwsLine : list WCHAR)
    (it : list CharRowCell) (cchLine iFirstAttr : Z) (coordTarget : COORD)
    (lineWrapped : bool) :
  logs paints (_PaintBufferOutputRasterFontHelper env pEngine Row pwsLine it cchLine
                 iFirstAttr coordTarget lineWrapped).
Proof.
  unfold _PaintBufferOutputRasterFontHelper, _PaintBufferOutputColorHelper.
  repeat logs_step; apply logs_ColorHelper_loop.
Qed.

Lemma logs_PaintBufferOutput : logs paints (_PaintBufferOutput env pEngine).
Proof.
  unfold _PaintBufferOutput. repeat logs_step; [now apply paints_call|].
  match goal with |- logs _ (_PaintBufferOutput_rows _ _ ?v ?tb ?vd ?rows) =>
    generalize rows as l; generalize vd as viewDirty end.
  intros viewDirty l. induction l as [|iRow l IH]; cbn [_PaintBufferOutput_rows].
  - apply logs_ret.
  - repeat logs_step;
      first [apply logs_RasterFontHelper | now apply paints_call | apply IH].
Qed.

Lemma logs_PaintIme (AreaInfo : ConversionAreaInfo) (textBuffer : TextBuffer) :
  logs paints (_PaintIme env pEngine AreaInfo textBuffer).
Proof.
  unfold _PaintIme. repeat logs_step; try (now apply paints_call).
  match goal with |- logs _ (_PaintIme_rows _ _ _ _ ?vd ?rows) =>
    generalize rows as l; generalize vd as viewDirty end.
  intros viewDirty l. induction l as [|iRow l IH]; cbn [_PaintIme_rows].
  - apply logs_ret.
  - repeat logs_step; try apply logs_RasterFontHelper; apply IH.
Qed.

Lemma logs_PaintImeCompositionString :
  logs paints (_PaintImeCompositionString env pEngine).
Proof.
  unfold _PaintImeCompositionString. repeat logs_step.
  match goal with |- logs _ (_PaintImeCompositionString_from _ _ ?i ?l) =>
    generalize i as n; generalize l as areas end.
  intros areas. induction areas as [|area areas IH]; intros n;
    cbn [_PaintImeCompositionString_from].
  - apply logs_ret.
  - repeat logs_step; try apply logs_PaintIme; apply IH.
Qed.

Lemma logs_GetSelectionRects (P : Event -> bool) : logs P (_GetSelectionRects env).
Proof.
  unfold _GetSelectionRects. repeat logs_step.
Qed.

Lemma logs_PaintSelection : logs paints (_PaintSelection env pEngine).
Proof.
  unfold _PaintSelection. repeat logs_step; try (now apply paints_call).
  apply logs_GetSelectionRects.
Qed.

Lemma logs_PaintCursor : logs paints (_PaintCursor env pEngine).
Proof.
  unfold _PaintCursor. repeat logs_step. now apply paints_call.
Qed.

Lemma logs_PaintTitle : logs paints (_PaintTitle env pEngine).
Proof.
  unfold _PaintTitle. repeat logs_step. now apply paints_call.
Qed.

Lemma logs_PerformScrolling : logs paints (_PerformScrolling env pEngine).
Proof.
  unfold _PerformScrolling. repeat logs_step. now apply paints_call.
Qed.

Lemma logs_PaintBackground : logs paints (_PaintBackground env pEngine).
Proof.
  unfold _PaintBackground. repeat logs_step. now apply paints_call.
Qed.

Lemma logs_endPaint : logs paints (endPaint env pEngine).
Proof.
  unfold endPaint. repeat logs_step. now apply paints_call.
Qed.

End Painting.

(** ** Methods that make known calls *)

Section Issuing.

Variable env : Environment.

Lemma issues_ret {A} (a : A) : issues [] (ret a).
Proof. intros s. exists []. now rewrite record_nil. Qed.

Lemma issues_gets {A} (f : Renderer -> A) : issues [] (gets f).
Proof. intros s. exists []. now rewrite record_nil. Qed.

Lemma issues_bind {A B} (cs1 cs2 : list (IRenderEngine * EngineCall))
    (m : M A) (k : A -> M B) :
  issues cs1 m -> (forall a, issues cs2 (k a)) -> issues (cs1 ++ cs2) (bind m k).
Proof.
  intros Hm Hk s. unfold bind. destruct (Hm s) as (evs & Hs & Hc).
  destruct (m s) as [a s1]. cbn [snd] in Hs. subst s1.
  destruct (Hk a (record evs s)) as (evs' & Hs' & Hc').
  exists (evs ++ evs'). rewrite Hs', record_record. split; [reflexivity|].
  now rewrite calls_of_app, Hc, Hc'.
Qed.

Lemma issues_call (pEngine : IRenderEngine) (c : EngineCall) :
  issues [(pEngine, c)] (call env pEngine c).
Proof. intros s. eexists. split; reflexivity. Qed.

Lemma issues_LOG_IF_FAILED (hr : HRESULT) : issues [] (LOG_IF_FAILED hr).
Proof.
  intros s. unfold LOG_IF_FAILED. destruct (FAILED hr).
  - exists [Log hr]. split; reflexivity.
  - exists []. now rewrite record_nil.
Qed.

Lemma issues_for_each {A} (f : A -> list (IRenderEngine * EngineCall))
    (l : list A) (body : A -> M unit) :
  (forall a, issues (f a) (body a)) -> issues (flat_map f l) (for_each l body).
Proof.
  intros Hbody. induction l as [|a l IH]; cbn [for_each flat_map].
  - apply issues_ret.
  - apply issues_bind; [apply Hbody | intros; apply IH].
Qed.

End Issuing.

(** ** The per-backend frame *)

Section Frame.

Variable env : Environment.

Lemma closes_bind {A} (pEngine : IRenderEngine) (m : M A) (k : A -> M HRESULT) :
  logs (painting pEngine) m -> (forall a, closes pEngine (k a)) ->
  closes pEngine (bind m k).
Proof.
  intros Hm Hk s. unfold bind. destruct (Hm s) as (evs & Hs & HP).
  destruct (m s) as [a s1]. cbn [snd] in Hs. subst s1.
  destruct (Hk a (record evs s)) as (paints & tail & Hs' & HP' & Htail).
  exists (evs ++ paints), tail. rewrite Hs', record_record, <- app_assoc.
  split; [reflexivity|]. split; [|assumption].
  now rewrite forallb_app, HP, HP'.
Qed.

Lemma closes_unlock (pEngine : IRenderEngine) (hr : HRESULT) :
  closes pEngine (unlock ;; ret hr).
Proof.
  intros s. exists [], []. split; [reflexivity|]. split; [reflexivity|now left].
Qed.

Lemma closes_endPaint_unlock (pEngine : IRenderEngine) (hr : HRESULT) :
  closes pEngine (endPaint env pEngine ;; unlock ;; ret hr).
Proof.
  apply closes_bind; [apply logs_endPaint | intros _; apply closes_unlock].
Qed.

Lemma closes_present (pEngine : IRenderEngine) :
  closes pEngine
    (unlock ;;
     r <- call env pEngine Present ;;
     if FAILED (hr_of r) then ret (hr_of r) else ret S_OK).
Proof.
  intros s. exists [].
  exists [EngineEv pEngine Present
            (answer env (events (record [UnlockConsole] s)) pEngine Present)].
  split; [|split; [reflexivity | right; eauto]].
  unfold bind, unlock, emit, modify, call.
  destruct (FAILED _); cbn [snd ret]; now rewrite record_record.
Qed.

(** The viewport check only updates viewports and invalidates scrolls: on
    every engine in turn, the new viewport and then the delta. *)
Lemma CheckViewportAndScroll_run (s : Renderer) :
  let srNewViewport := ToInclusive (GetViewport (_pData s)) in
  let coordDelta :=
    {| X := SHORT_of (Left (_srViewportPrevious s) - Left srNewViewport);
       Y := SHORT_of (Top (_srViewportPrevious s) - Top srNewViewport) |} in
  exists evs,
    _CheckViewportAndScroll env s
    = (negb (X coordDelta =? 0) || negb (Y coordDelta =? 0),
       record evs (set_srViewportPrevious srNewViewport s))
    /\ forallb scroll_checking evs = true
    /\ calls_of evs
       = flat_map (fun pEngine => [(pEngine, UpdateViewport srNewViewport);
                                   (pEngine, InvalidateScroll coordDelta)])
                  (_rgpEngines s).
Proof.
  intros srNewViewport coordDelta.
  set (body := fun pEngine : IRenderEngine =>
                 r <- call env pEngine (UpdateViewport srNewViewport) ;;
                 LOG_IF_FAILED (hr_of r) ;;
                 r <- call env pEngine (InvalidateScroll coordDelta) ;;
                 LOG_IF_FAILED (hr_of r) ;;
                 ret tt).
  assert (Hlogs : logs scroll_checking (for_each (_rgpEngines s) body)).
  { apply logs_for_each. intros e. unfold body. repeat logs_step. }
  assert (Hissues :
            issues (flat_map (fun pEngine => [(pEngine, UpdateViewport srNewViewport);
                                              (pEngine, InvalidateScroll coordDelta)])
                             (_rgpEngines s))
                   (for_each (_rgpEngines s) body)).
  { apply issues_for_each. intros e. unfold body.
    change [(e, UpdateViewport srNewViewport); (e, InvalidateScroll coordDelta)]
      with ([(e, UpdateViewport srNewViewport)] ++ [] ++
            [(e, InvalidateScroll coordDelta)] ++ [] ++ []).
    repeat (apply issues_bind; [|intros ?]);
      try apply issues_call; try apply issues_LOG_IF_FAILED; apply issues_ret. }
  destruct (Hlogs s) as (evs & Hs & HP).
  destruct (Hissues s) as (evs' & Hs' & Hc).
  rewrite Hs in Hs'. apply record_inj in Hs'. subst evs'.
  exists evs. split; [|split; assumption].
  unfold _CheckViewportAndScroll.
  rewrite !run_bind. unfold gets. cbn [fst snd].
  fold srNewViewport. fold coordDelta. fold body.
  rewrite Hs. reflexivity.
Qed.

(** What one run of the per-backend frame procedure leaves: the previous
    viewport is the current one, and the log has grown by a frame's log. *)
Lemma PaintFrameForEngine_run (pEngine : IRenderEngine) (s : Renderer) :
  exists evs,
    snd (_PaintFrameForEngine env pEngine s)
    = record evs (set_srViewportPrevious (ToInclusive (GetViewport (_pData s))) s)
    /\ frame_log pEngine evs.
Proof.
  unfold _PaintFrameForEngine.
  match goal with
  | |- context [bind (call env pEngine StartPaint) ?k] =>
      assert (Hk : forall r, closes pEngine (k r)); [|set (rest := k) in *]
  end.
  { intros r. cbv beta zeta.
    destruct (FAILED (hr_of r)); [apply closes_unlock|].
    destruct (hr_of r =? S_FALSE); [apply closes_unlock|].
    apply closes_bind; [apply logs_gets | intros pData].
    apply closes_bind; [apply logs_UpdateDrawingBrushes | intros hrBrushes].
    destruct (FAILED hrBrushes); [apply closes_endPaint_unlock|].
    apply closes_bind; [apply logs_PerformScrolling | intros hrScroll].
    destruct (FAILED hrScroll); [apply closes_endPaint_unlock|].
    apply closes_bind; [apply logs_PaintBackground | intros hrBackground].
    destruct (FAILED hrBackground); [apply closes_endPaint_unlock|].
    apply closes_bind; [apply logs_PaintBufferOutput | intros _].
    apply closes_bind; [apply logs_PaintImeCompositionString | intros _].
    apply closes_bind; [apply logs_PaintSelection | intros _].
    apply closes_bind; [apply logs_PaintCursor | intros _].
    apply closes_bind; [apply logs_PaintTitle | intros hrTitle].
    destruct (FAILED hrTitle); [apply closes_endPaint_unlock|].
    apply closes_bind; [apply logs_endPaint | intros _].
    apply closes_present. }
  unfold bind at 1 2 3. unfold emit at 1, modify at 1.
  destruct (CheckViewportAndScroll_run (record [LockConsole] s))
    as (check & Hcheck & Hscroll & _).
  cbn [record _pData _srViewportPrevious] in Hcheck. rewrite Hcheck.
  unfold call at 1.
  match goal with |- context [rest ?r ?s1] =>
    destruct (Hk r s1) as (paints & tail & Hs & Hpaints & Htail);
    exists (LockConsole :: check ++ EngineEv pEngine StartPaint r
                        :: paints ++ UnlockConsole :: tail)
  end.
  split; [|now constructor].
  rewrite Hs, !record_record. rewrite <- set_srViewportPrevious_record.
  rewrite record_record. f_equal. cbn [app]. now rewrite <- ?app_assoc.
Qed.

End Frame.

(** ** Painting all engines, and the lock *)

Section PaintAll.

Variable env : Environment.

Lemma forallb_filter_none (P Q : Event -> bool) (l : list Event) :
  (forall ev, P ev = true -> Q ev = false) ->
  forallb P l = true -> filter Q l = [].
Proof.
  intros HPQ. induction l as [|ev l IH]; [reflexivity|]. cbn [forallb filter].
  intros H. apply andb_prop in H as [Hev Hl]. now rewrite (HPQ ev Hev), IH.
Qed.

Lemma forallb_weaken (P Q : Event -> bool) (l : list Event) :
  (forall ev, P ev = true -> Q ev = true) ->
  forallb P l = true -> forallb Q l = true.
Proof.
  intros HPQ. induction l as [|ev l IH]; [reflexivity|]. cbn [forallb].
  intros H. apply andb_prop in H as [Hev Hl]. now rewrite (HPQ ev Hev), IH.
Qed.

Lemma PaintFrameForEngine_log (pEngine : IRenderEngine) (s : Renderer) :
  frame_log pEngine (logged_since s (snd (_PaintFrameForEngine env pEngine s))).
Proof.
  destruct (PaintFrameForEngine_run env pEngine s) as (evs & Hs & Hlog).
  rewrite Hs, logged_since_record; [assumption | reflexivity].
Qed.

(** C6. In every run of the per-backend frame procedure the console lock
    is taken first; everything logged while it is held ([under]: the
    viewport check, the begin-frame call, every draw call and the end-frame
    call) holds no lock operation and no present call; then the lock is let
    go; and what follows ([tail]) is nothing or the one present call of
    this engine. So every paint call of the frame is made with the lock
    held, and the present call is made after the lock is released. *)
Theorem frame_presents_after_unlock (pEngine : IRenderEngine) (s : Renderer) :
  exists under tail,
    logged_since s (snd (_PaintFrameForEngine env pEngine s))
    = LockConsole :: under ++ UnlockConsole :: tail
    /\ forallb (fun ev => negb (is_lock_operation ev) && negb (is_Present ev)) under
       = true
    /\ forallb (fun ev => negb (painting pEngine ev)) tail = true
    /\ (tail = [] \/ exists r, tail = [EngineEv pEngine Present r]).
Proof.
  destruct (PaintFrameForEngine_log pEngine s) as [check r paints tail Hc Hp Ht].
  exists (check ++ EngineEv pEngine StartPaint r :: paints), tail.
  split; [now rewrite <- app_assoc|]. split; [|split; [|assumption]].
  - rewrite forallb_app. cbn [forallb is_lock_operation is_Present negb andb].
    rewrite (forallb_weaken scroll_checking _ check), (forallb_weaken (painting pEngine) _ paints);
      try assumption; try reflexivity.
    + intros [e c ?| | | | |]; cbn; try discriminate; try reflexivity.
      destruct c; cbn; rewrite ?andb_false_r; try discriminate; reflexivity.
    + intros [e c ?| | | | |]; cbn; try discriminate; try reflexivity.
      destruct c; cbn; try discriminate; reflexivity.
  - destruct Ht as [->|[r' ->]]; [reflexivity|].
    cbn. now rewrite andb_false_r.
Qed.

Lemma PaintFrame_loop_painted (engines : list IRenderEngine) (s : Renderer) :
  painted_in_order env engines s
    (snd (for_each engines
            (fun pEngine =>
               hr <- _PaintFrameForEngine env pEngine ;; LOG_IF_FAILED hr ;; ret tt)
            s)).
Proof.
  revert s. induction engines as [|pEngine later IH]; intros s; cbn [for_each].
  - constructor.
  - constructor. rewrite run_bind.
    replace (let (hr, s1) := _PaintFrameForEngine env pEngine s in
             if FAILED hr then record [Log hr] s1 else s1)
      with (snd ((hr <- _PaintFrameForEngine env pEngine ;; LOG_IF_FAILED hr ;; ret tt) s)).
    + apply IH.
    + rewrite !run_bind. unfold LOG_IF_FAILED.
      destruct (_PaintFrameForEngine env pEngine s) as [hr s1]. cbn [fst snd].
      destruct (FAILED hr); reflexivity.
Qed.

(** One turn of the paint-all loop, or the repaint of the teardown: a
    frame's log, and the Log of its failure. *)
Lemma logged_frame_run (pEngine : IRenderEngine) (s : Renderer) :
  exists evs,
    snd ((hr <- _PaintFrameForEngine env pEngine ;; LOG_IF_FAILED hr ;; ret tt) s)
    = record evs (set_srViewportPrevious (ToInclusive (GetViewport (_pData s))) s)
    /\ logged_frame pEngine evs.
Proof.
  destruct (PaintFrameForEngine_run env pEngine s) as (fl & Hs & Hlog).
  rewrite !run_bind. unfold LOG_IF_FAILED.
  destruct (_PaintFrameForEngine env pEngine s) as [hr s1]. cbn [fst snd] in *.
  subst s1. destruct (FAILED hr) eqn:Hhr.
  - exists (fl ++ [Log hr]). split; [|exists fl; split; [assumption|right; eauto]].
    rewrite !run_bind. cbn. now rewrite record_record.
  - exists fl. split; [reflexivity|]. exists fl. split; [assumption|now left].
Qed.

Lemma PaintFrame_loop_frames (engines : list IRenderEngine) (s : Renderer) :
  exists frames,
    events (snd (for_each engines
                   (fun pEngine =>
                      hr <- _PaintFrameForEngine env pEngine ;; LOG_IF_FAILED hr ;; ret tt)
                   s))
    = events s ++ concat frames
    /\ Forall2 logged_frame engines frames.
Proof.
  revert s. induction engines as [|pEngine later IH]; intros s; cbn [for_each].
  - exists []. split; [cbn; now rewrite app_nil_r | constructor].
  - rewrite run_bind.
    destruct (logged_frame_run pEngine s) as (evs & Hs & Hlog). rewrite Hs.
    destruct (IH (record evs (set_srViewportPrevious
                                (ToInclusive (GetViewport (_pData s))) s)))
      as (frames & Hev & Hall).
    exists (evs :: frames). split; [|now constructor].
    rewrite Hev. cbn [record events set_srViewportPrevious concat].
    now rewrite app_assoc.
Qed.

(** C5. The paint-all call runs the per-backend frame procedure for each
    attached engine in order: each frame starts from where the frame
    before it ended, whatever HRESULT that frame gave back, and a failed
    frame is logged. What the call adds to the log is, engine by engine,
    the log of a whole frame (lock, viewport check, begin-frame, painting,
    unlock, and the present call if the frame got that far) followed by the
    Log of the frame's failure if it failed; so a failure of one engine's
    frame, a begin-frame failure included, takes no frame from any other
    engine. *)
Theorem PaintFrame_paints_every_engine (s : Renderer) :
  painted_in_order env (_rgpEngines s) s (snd (PaintFrame env s))
  /\ exists frames,
       logged_since s (snd (PaintFrame env s)) = concat frames
       /\ Forall2 logged_frame (_rgpEngines s) frames.
Proof.
  unfold PaintFrame. rewrite !run_bind. unfold gets. cbn [fst snd ret].
  split; [apply PaintFrame_loop_painted|].
  destruct (PaintFrame_loop_frames (_rgpEngines s) s) as (frames & Hev & Hall).
  exists frames. split; [|assumption].
  unfold logged_since. rewrite Hev, skipn_app, skipn_all, Nat.sub_diag.
  reflexivity.
Qed.

(** C10. The paint-all call gives S_OK back, whatever engines are attached
    and whatever their frames gave back; and the failures of the frames
    are logged: the Renderer it leaves is the one that the frames of the
    attached engines leave when they are run in order, each followed by
    the Log of the HRESULT it gave back if that is a failure, and by
    nothing if it is not. *)
Theorem PaintFrame_returns_S_OK (s : Renderer) :
  exists s',
    PaintFrame env s = (S_OK, s')
    /\ painted_in_order env (_rgpEngines s) s s'.
Proof.
  exists (snd (PaintFrame env s)). split.
  - unfold PaintFrame. rewrite !run_bind. reflexivity.
  - unfold PaintFrame. rewrite !run_bind. unfold gets. cbn [fst snd ret].
    apply PaintFrame_loop_painted.
Qed.

End PaintAll.

(** ** Teardown *)

Section Teardown.

Variable env : Environment.

Lemma set_srViewportPrevious_same (s : Renderer) :
  set_srViewportPrevious (_srViewportPrevious s) s = s.
Proof. now destruct s. Qed.





Lemma teardown_turn_run (e0 : IRenderEngine) (s : Renderer) :
  exists evs v,
    snd (TriggerTeardown_turn env e0 s) = record evs (set_srViewportPrevious v s)
    /\ prepared_and_repainted e0 evs.
Proof.
  unfold TriggerTeardown_turn. rewrite run_bind.
  set (r := answer env (events s) e0 PrepareForTeardown).
  change (call env e0 PrepareForTeardown s)
    with (r, record [EngineEv e0 PrepareForTeardown r] s).
  cbn [fst snd]. cbv zeta. rewrite run_bind.
  assert (Hlog : exists l, snd (LOG_IF_FAILED (hr_of r)
                                  (record [EngineEv e0 PrepareForTeardown r] s))
                           = record (EngineEv e0 PrepareForTeardown r :: l) s
                           /\ (l = [] \/ exists hr, l = [Log hr])).
  { unfold LOG_IF_FAILED. destruct (FAILED (hr_of r)).
    - exists [Log (hr_of r)]. rewrite run_bind. cbn. rewrite record_record. eauto.
    - exists []. cbn. auto. }
  destruct Hlog as (l & Hs & Hl). rewrite Hs.
  fold (wants_final_repaint r). destruct (wants_final_repaint r) eqn:Hw.
  - destruct (logged_frame_run env e0 (record (EngineEv e0 PrepareForTeardown r :: l) s))
      as (frame & Hs' & Hframe).
    rewrite Hs'. cbn [record _pData].
    exists ((EngineEv e0 PrepareForTeardown r :: l) ++ frame),
           (ToInclusive (GetViewport (_pData s))).
    split; [now rewrite set_srViewportPrevious_record, record_record|].
    exists r, l, frame. rewrite Hw. auto.
  - exists (EngineEv e0 PrepareForTeardown r :: l), (_srViewportPrevious s).
    rewrite set_srViewportPrevious_same. split; [reflexivity|].
    exists r, l, []. rewrite Hw, app_nil_r. auto.
Qed.

Lemma teardown_loop_run (engines : list IRenderEngine) (s : Renderer) :
  exists turns v,
    snd (for_each engines (TriggerTeardown_turn env) s)
    = record (concat turns) (set_srViewportPrevious v s)
    /\ Forall2 prepared_and_repainted engines turns.
Proof.
  revert s. induction engines as [|e0 later IH]; intros s; cbn [for_each].
  - exists [], (_srViewportPrevious s).
    rewrite set_srViewportPrevious_same. cbn [concat]. rewrite record_nil.
    split; [reflexivity | constructor].
  - rewrite run_bind.
    destruct (teardown_turn_run e0 s) as (evs & v & Hs & Hturn). rewrite Hs.
    destruct (IH (record evs (set_srViewportPrevious v s)))
      as (turns & v' & Hs' & Hturns).
    rewrite Hs'. exists (evs :: turns), v'. split; [|now constructor].
    cbn [concat]. now rewrite set_srViewportPrevious_record, record_record.
Qed.




End Teardown.


(** At that teardown engine 1 is prepared and repainted, engine 2 is only
    prepared. *)
Example teardown_repaints_the_engine_that_asks :
  calls_of
    (filter (fun ev => is_PrepareForTeardown 1%nat ev || is_StartPaint 1%nat ev
                       || is_PrepareForTeardown 2%nat ev || is_StartPaint 2%nat ev)
       (events (snd (TriggerTeardown (repainting 1%nat)
                       (renderer_of (blankData 2 1 false) [1%nat; 2%nat])))))
  = [(1%nat, PrepareForTeardown); (1%nat, StartPaint); (2%nat, PrepareForTeardown)].
Proof. reflexivity. Qed.

(** One engine's begin-frame failure in a paint-all call: it is logged,
    and the second engine's frame is presented. *)
Example PaintFrame_past_a_failed_StartPaint :
  let s := renderer_of (blankData 2 1 false) [1%nat; 2%nat] in
  let evs := events (snd (PaintFrame (failing_to_start 1%nat) s)) in
  In (Log E_FAIL) evs
  /\ In (2%nat, Present) (calls_of evs)
  /\ ~ In (1%nat, Present) (calls_of evs).
Proof.
  vm_compute. intuition congruence.
Qed.

(** ** The viewport check *)

Section Scroll.

Variable env : Environment.

(** C2, as the code has it. Each recomputation of the scroll delta sends
    every attached engine, in order, one viewport update carrying the
    current viewport and then one scroll invalidation carrying the delta
    (previous origin less current origin, in SHORT arithmetic), whether
    the viewport moved or not: when the current viewport is the stored
    previous one, the delta sent is (0, 0). It makes no other call, stores
    the current viewport as the previous one, and reports whether the delta
    is not zero; TriggerScroll wakes the paint thread exactly then. *)
Theorem CheckViewportAndScroll_always_invalidates (s : Renderer) :
  let srNewViewport := ToInclusive (GetViewport (_pData s)) in
  let coordDelta :=
    {| X := SHORT_of (Left (_srViewportPrevious s) - Left srNewViewport);
       Y := SHORT_of (Top (_srViewportPrevious s) - Top srNewViewport) |} in
  let moved := negb (X coordDelta =? 0) || negb (Y coordDelta =? 0) in
  (exists evs,
     _CheckViewportAndScroll env s
     = (moved, record evs (set_srViewportPrevious srNewViewport s))
     /\ calls_of evs
        = flat_map (fun pEngine => [(pEngine, UpdateViewport srNewViewport);
                                    (pEngine, InvalidateScroll coordDelta)])
                   (_rgpEngines s))
  /\ (srNewViewport = _srViewportPrevious s -> coordDelta = {| X := 0; Y := 0 |})
  /\ (In (ThreadEv NotifyPaint) (logged_since s (snd (TriggerScroll env s)))
      <-> moved = true).
Proof.
  intros srNewViewport coordDelta moved.
  destruct (CheckViewportAndScroll_run env s) as (evs & Hrun & Hkind & Hcalls).
  fold srNewViewport coordDelta moved in Hrun, Hcalls.
  split; [exists evs; now split|]. split.
  - intros Hsame. subst coordDelta. rewrite <- Hsame, !Z.sub_diag. reflexivity.
  - unfold TriggerScroll. rewrite run_bind, Hrun. cbn [fst snd].
    assert (Hnone : ~ In (ThreadEv NotifyPaint) evs).
    { intros Hin. rewrite forallb_forall in Hkind.
      specialize (Hkind _ Hin). discriminate. }
    destruct moved.
    + unfold _NotifyPaintFrame. rewrite run_bind. unfold emit, modify.
      cbn [fst snd]. rewrite record_record, set_pThread_record.
      rewrite logged_since_record by reflexivity.
      split; [reflexivity|]. intros _. apply in_or_app. right. now left.
    + cbn [ret snd]. rewrite logged_since_record by reflexivity.
      split; [intros Hin; contradiction | discriminate].
Qed.

End Scroll.

(** The viewport is where it was at the last check, and the engine is
    still told to invalidate a scroll, of (0, 0). *)
Lemma unmoved_viewport_still_invalidates_scroll :
  let s := renderer_of (blankData 1 1 false) [7%nat] in
  ToInclusive (GetViewport (_pData s)) = _srViewportPrevious s
  /\ In (7%nat, InvalidateScroll {| X := 0; Y := 0 |})
        (calls_of (logged_since s (snd (_CheckViewportAndScroll agreeable s))))
  /\ In (7%nat, InvalidateScroll {| X := 0; Y := 0 |})
        (calls_of (logged_since s (snd (_PaintFrameForEngine agreeable 7%nat s)))).
Proof.
  vm_compute. intuition.
Qed.

(** ** Selection *)

Section Selection.

Variable env : Environment.
Variable covers : SMALL_RECT -> COORD -> Prop.

Lemma GetSelectionRects_run (s : Renderer) :
  snd (_GetSelectionRects env s) = s.
Proof.
  unfold _GetSelectionRects. rewrite run_bind. unfold gets. cbn [fst snd].
  now destruct (GetSelectionRects (_pData s)).
Qed.

Lemma GetSelectionRects_of_data (s s' : Renderer) :
  _pData s' = _pData s ->
  fst (_GetSelectionRects env s') = fst (_GetSelectionRects env s).
Proof.
  intros H. unfold _GetSelectionRects. rewrite !run_bind. unfold gets.
  cbn [fst snd]. rewrite H. now destruct (GetSelectionRects (_pData s)).
Qed.

(** What TriggerSelection does once the new rectangles are computed. *)
Lemma TriggerSelection_run (s : Renderer) (B : list SMALL_RECT) :
  fst (_GetSelectionRects env s) = Returns B ->
  exists evs,
    snd (TriggerSelection env s)
    = set_pThread (thread_NotifyPaint (_pThread s))
        (set_previousSelection B (record (evs ++ [ThreadEv NotifyPaint]) s))
    /\ calls_of evs
       = flat_map (fun pEngine =>
                     [(pEngine, InvalidateSelection (_previousSelection s));
                      (pEngine, InvalidateSelection B)])
                  (_rgpEngines s).
Proof.
  intros HB. unfold TriggerSelection. rewrite run_bind, HB, GetSelectionRects_run.
  rewrite !run_bind. unfold gets. cbn [fst snd].
  set (body := fun pEngine : IRenderEngine => _).
  assert (Hissues :
            issues (flat_map (fun pEngine =>
                                [(pEngine, InvalidateSelection (_previousSelection s));
                                 (pEngine, InvalidateSelection B)])
                             (_rgpEngines s))
                   (for_each (_rgpEngines s) body)).
  { apply issues_for_each. intros e. unfold body.
    change [(e, InvalidateSelection (_previousSelection s));
            (e, InvalidateSelection B)]
      with ([(e, InvalidateSelection (_previousSelection s))] ++ [] ++
            [(e, InvalidateSelection B)] ++ [] ++ []).
    repeat (apply issues_bind; [|intros ?]);
      try apply issues_call; try apply issues_LOG_IF_FAILED; apply issues_ret. }
  destruct (Hissues s) as (evs & Hs & Hcalls). rewrite Hs.
  exists evs. split; [|assumption].
  unfold modify, _NotifyPaintFrame. cbn [snd]. rewrite run_bind.
  unfold emit, modify. cbn [fst snd].
  rewrite set_previousSelection_record, record_record. reflexivity.
Qed.

Lemma selection_invalidated_pair (pEngine : IRenderEngine)
    (engines : list IRenderEngine) (A B : list SMALL_RECT) (evs : list Event)
    (cell : COORD) :
  calls_of evs
  = flat_map (fun e => [(e, InvalidateSelection A); (e, InvalidateSelection B)])
             engines ->
  In pEngine engines ->
  selection_invalidated covers pEngine evs cell
  <-> covered covers A cell \/ covered covers B cell.
Proof.
  intros Hcalls Hin. unfold selection_invalidated. rewrite Hcalls. split.
  - intros (rects & Hcall & Hcov). apply in_flat_map in Hcall as (e & _ & He).
    destruct He as [He|[He|[]]]; inversion He; subst; auto.
  - intros [Hcov|Hcov]; [exists A | exists B]; (split; [|assumption]);
      apply in_flat_map; exists pEngine; (split; [assumption|]); cbn; auto.
Qed.

(** C3. When the rectangles rendered before are A and TriggerSelection
    computes B, every attached engine gets exactly two selection
    invalidations, of A and then of B: the cells invalidated on it are
    those of A together with those of B, whatever cells a rectangle is
    read to hold; and the previous selection is B afterwards. Triggering
    again while the selection is still B invalidates, on every attached
    engine, the cells of B and no other. *)
Theorem TriggerSelection_invalidates_old_and_new (s : Renderer)
    (A B : list SMALL_RECT) :
  _previousSelection s = A ->
  fst (_GetSelectionRects env s) = Returns B ->
  let s1 := snd (TriggerSelection env s) in
  let s2 := snd (TriggerSelection env s1) in
  calls_of (logged_since s s1)
  = flat_map (fun pEngine => [(pEngine, InvalidateSelection A);
                              (pEngine, InvalidateSelection B)])
             (_rgpEngines s)
  /\ (forall pEngine cell, In pEngine (_rgpEngines s) ->
        selection_invalidated covers pEngine (logged_since s s1) cell
        <-> covered covers A cell \/ covered covers B cell)
  /\ _previousSelection s1 = B
  /\ (forall pEngine cell, In pEngine (_rgpEngines s) ->
        selection_invalidated covers pEngine (logged_since s1 s2) cell
        <-> covered covers B cell)
  /\ _previousSelection s2 = B.
Proof.
  intros HA HB s1 s2.
  destruct (TriggerSelection_run s B HB) as (evs & Hs1 & Hcalls).
  rewrite HA in Hcalls.
  assert (Hlog1 : logged_since s s1 = evs ++ [ThreadEv NotifyPaint]).
  { subst s1. rewrite Hs1. unfold logged_since.
    cbn [set_pThread set_previousSelection record events].
    rewrite skipn_app, skipn_all, Nat.sub_diag. reflexivity. }
  assert (Hcalls1 : calls_of (logged_since s s1)
                    = flat_map (fun pEngine => [(pEngine, InvalidateSelection A);
                                                (pEngine, InvalidateSelection B)])
                               (_rgpEngines s)).
  { rewrite Hlog1, calls_of_app, Hcalls. cbn [calls_of]. now rewrite app_nil_r. }
  assert (HB1 : fst (_GetSelectionRects env s1) = Returns B).
  { rewrite <- HB. apply GetSelectionRects_of_data. subst s1. now rewrite Hs1. }
  destruct (TriggerSelection_run s1 B HB1) as (evs' & Hs2 & Hcalls').
  assert (Hprev1 : _previousSelection s1 = B) by (subst s1; now rewrite Hs1).
  assert (Hengines1 : _rgpEngines s1 = _rgpEngines s) by (subst s1; now rewrite Hs1).
  rewrite Hprev1, Hengines1 in Hcalls'.
  assert (Hlog2 : logged_since s1 s2 = evs' ++ [ThreadEv NotifyPaint]).
  { subst s2. rewrite Hs2. unfold logged_since.
    cbn [set_pThread set_previousSelection record events].
    rewrite skipn_app, skipn_all, Nat.sub_diag. reflexivity. }
  assert (Hcalls2 : calls_of (logged_since s1 s2)
                    = flat_map (fun pEngine => [(pEngine, InvalidateSelection B);
                                                (pEngine, InvalidateSelection B)])
                               (_rgpEngines s)).
  { rewrite Hlog2, calls_of_app, Hcalls'. cbn [calls_of]. now rewrite app_nil_r. }
  split; [assumption|]. split; [|split; [assumption|split]].
  - intros pEngine cell Hin.
    now apply (selection_invalidated_pair pEngine (_rgpEngines s)).
  - intros pEngine cell Hin.
    rewrite (selection_invalidated_pair pEngine (_rgpEngines s) B B) by assumption.
    tauto.
  - subst s2. now rewrite Hs2.
Qed.

End Selection.

(** The selection moves from one rectangle to another, seen by two
    engines through a viewport at the origin. *)
Lemma TriggerSelection_invalidates_old_and_new_witness :
  let covers := fun (r : SMALL_RECT) (c : COORD) =>
                  Left r <= X c < Right r /\ Top r <= Y c < Bottom r in
  let A := [{| Left := 0; Top := 0; Right := 2; Bottom := 1 |}] in
  let B := [{| Left := 1; Top := 0; Right := 3; Bottom := 1 |}] in
  let s :=
    {| _pData :=
         dataOf 3 1 false false [{| Left := 1; Top := 0; Right := 2; Bottom := 0 |}];
       _rgpEngines := [1%nat; 2%nat];
       _srViewportPrevious := zeroRect;
       _previousSelection := A;
       _pThread := {| scheduler := Enabled; signalled := false;
                      paintInFlight := false |};
       events := [] |} in
  let s1 := snd (TriggerSelection agreeable s) in
  let s2 := snd (TriggerSelection agreeable s1) in
  calls_of (logged_since s s1)
  = flat_map (fun pEngine => [(pEngine, InvalidateSelection A);
                              (pEngine, InvalidateSelection B)])
             (_rgpEngines s)
  /\ (forall pEngine cell, In pEngine (_rgpEngines s) ->
        selection_invalidated covers pEngine (logged_since s s1) cell
        <-> covered covers A cell \/ covered covers B cell)
  /\ _previousSelection s1 = B
  /\ (forall pEngine cell, In pEngine (_rgpEngines s) ->
        selection_invalidated covers pEngine (logged_since s1 s2) cell
        <-> covered covers B cell)
  /\ _previousSelection s2 = B.
Proof.
  intros covers A B s.
  apply (TriggerSelection_invalidates_old_and_new agreeable covers s A B);
    reflexivity.
Defined.

(** ** The cursor *)

(** C4, at the input where the code parts from it. A double-width cursor
    sits at the origin of the viewport and two engines are attached. The
    first engine is told to invalidate the cursor cell (0, 0) and the cell
    to its right, (1, 0); the second engine is told (1, 0) and (2, 0): the
    coordinate moved right for the first engine is not moved back. *)
Lemma TriggerRedrawCursor_moves_the_cell_per_engine :
  let s := renderer_of (blankData 3 1 true) [1%nat; 2%nat] in
  IsInBounds agreeable (GetViewport (_pData s)) {| X := 0; Y := 0 |} = true
  /\ ConvertToOrigin agreeable (GetViewport (_pData s)) {| X := 0; Y := 0 |}
     = {| X := 0; Y := 0 |}
  /\ calls_of (events (snd (TriggerRedrawCursor agreeable {| X := 0; Y := 0 |} s)))
     = [(1%nat, InvalidateCursor {| X := 0; Y := 0 |});
        (1%nat, InvalidateCursor {| X := 1; Y := 0 |});
        (2%nat, InvalidateCursor {| X := 1; Y := 0 |});
        (2%nat, InvalidateCursor {| X := 2; Y := 0 |})].
Proof.
  vm_compute. auto.
Qed.

(** ** Font and size queries *)

Section Queries.

Variable env : Environment.

Lemma written_cons {A} (out : Response -> option A) (v : A) (r : Response)
    (rs : list Response) :
  written out v (r :: rs)
  = written out (match out r with Some x => x | None => v end) rs.
Proof. reflexivity. Qed.

(** The shared loop asks the engines in order and stops at the first
    S_OK. *)
Lemma ask_until_S_OK_run {A} (c : EngineCall) (out : Response -> option A)
    (engines : list IRenderEngine) (v : A) (s : Renderer) :
  exists evs,
    ask_until_S_OK env c out engines v s
    = ((answered_S_OK (responses_of evs), written out v (responses_of evs)),
       record evs s)
    /\ asked_until_S_OK c engines evs.
Proof.
  revert v s. induction engines as [|pEngine later IH]; intros v s;
    cbn [ask_until_S_OK].
  - exists []. rewrite record_nil. split; [reflexivity|].
    repeat split; try constructor.
  - rewrite run_bind.
    set (r := answer env (events s) pEngine c).
    change (call env pEngine c s) with (r, record [EngineEv pEngine c r] s).
    cbn [fst snd]. rewrite run_bind. unfold LOG_IF_FAILED.
    destruct (hr_of r =? S_OK) eqn:Hok.
    + assert (Hnf : FAILED (hr_of r) = false).
      { apply Z.eqb_eq in Hok. now rewrite Hok. }
      rewrite Hnf. cbn [ret fst snd]. rewrite Hok.
      exists [EngineEv pEngine c r]. cbn [responses_of calls_of written fold_left].
      unfold answered_S_OK. cbn [existsb]. rewrite Hok. cbn [orb].
      split; [reflexivity|]. unfold asked_until_S_OK.
      cbn [responses_of calls_of length firstn map removelast].
      repeat split; try constructor. intros H. unfold answered_S_OK in H.
      cbn [existsb] in H. rewrite Hok in H. discriminate.
    + set (v' := match out r with Some x => x | None => v end).
      assert (Hstep : exists l,
                 (if FAILED (hr_of r) then emit (Log (hr_of r)) ;; ret (hr_of r)
                  else ret (hr_of r)) (record [EngineEv pEngine c r] s)
                 = (hr_of r, record (EngineEv pEngine c r :: l) s)
                 /\ calls_of l = [] /\ responses_of l = []).
      { destruct (FAILED (hr_of r)).
        - exists [Log (hr_of r)]. rewrite run_bind. cbn. now rewrite record_record.
        - exists []. cbn. auto. }
      destruct Hstep as (l & Hl & Hlc & Hlr). rewrite Hl. cbn [fst snd].
      rewrite Hok.
      destruct (IH v' (record (EngineEv pEngine c r :: l) s))
        as (evs & Hrun & Hcalls & Hnone & Hall).
      exists ((EngineEv pEngine c r :: l) ++ evs).
      rewrite Hrun, record_record.
      assert (Hrs : responses_of ((EngineEv pEngine c r :: l) ++ evs)
                    = r :: responses_of evs).
      { cbn [app responses_of]. now rewrite responses_of_app, Hlr. }
      assert (Hcs : calls_of ((EngineEv pEngine c r :: l) ++ evs)
                    = (pEngine, c) :: calls_of evs).
      { cbn [app calls_of]. now rewrite calls_of_app, Hlc. }
      assert (Hans : answered_S_OK (r :: responses_of evs)
                     = answered_S_OK (responses_of evs)).
      { unfold answered_S_OK. cbn [existsb]. now rewrite Hok. }
      rewrite Hrs, Hans, written_cons. fold v'.
      split; [reflexivity|]. unfold asked_until_S_OK.
      rewrite Hrs, Hcs, Hans. cbn [length firstn map]. rewrite Hcalls.
      split; [reflexivity|]. split.
      * destruct (responses_of evs) as [|r1 rs] eqn:Hresp; [constructor|].
        change (removelast (r :: r1 :: rs)) with (r :: removelast (r1 :: rs)).
        constructor; [|assumption]. now apply Z.eqb_neq.
      * intros H. now rewrite (Hall H).
Qed.

Lemma GetProposedFont_loop_shared (engines : list IRenderEngine) (iDpi : Z)
    (desired : FontInfoDesired) (fontInfo : FontInfo) (s : Renderer) :
  GetProposedFont_loop env engines iDpi desired fontInfo s
  = let (result, s') :=
      ask_until_S_OK env (EngineGetProposedFont desired iDpi) font_out engines
        fontInfo s in
    ((if fst result then S_OK else E_FAIL, snd result), s').
Proof.
  revert fontInfo s. induction engines as [|pEngine later IH]; intros fontInfo s;
    cbn [GetProposedFont_loop ask_until_S_OK]; [reflexivity|].
  rewrite !run_bind. cbn [fst snd].
  destruct (fst (LOG_IF_FAILED _ _) =? S_OK) eqn:Hok.
  - apply Z.eqb_eq in Hok. rewrite Hok. reflexivity.
  - apply IH.
Qed.

Lemma GetFontSize_loop_shared (engines : list IRenderEngine) (fontSize : COORD)
    (s : Renderer) :
  GetFontSize_loop env engines fontSize s
  = let (result, s') :=
      ask_until_S_OK env EngineGetFontSize coord_out engines fontSize s in
    (snd result, s').
Proof.
  revert fontSize s. induction engines as [|pEngine later IH]; intros fontSize s;
    cbn [GetFontSize_loop ask_until_S_OK]; [reflexivity|].
  rewrite !run_bind. cbn [fst snd].
  destruct (fst (LOG_IF_FAILED _ _) =? S_OK); [reflexivity | apply IH].
Qed.

Lemma IsGlyphWideByFont_loop_shared (engines : list IRenderEngine) (glyph : wstring)
    (fIsFullWidth : bool) (s : Renderer) :
  IsGlyphWideByFont_loop env engines glyph fIsFullWidth s
  = let (result, s') :=
      ask_until_S_OK env (EngineIsGlyphWideByFont glyph) bool_out engines
        fIsFullWidth s in
    (snd result, s').
Proof.
  revert fIsFullWidth s. induction engines as [|pEngine later IH];
    intros fIsFullWidth s;
    cbn [IsGlyphWideByFont_loop ask_until_S_OK]; [reflexivity|].
  rewrite !run_bind. cbn [fst snd].
  destruct (fst (LOG_IF_FAILED _ _) =? S_OK); [reflexivity | apply IH].
Qed.

(** C9, as the code has it. With at most two engines attached, each of
    the three queries asks the attached engines in order and stops at the
    first whose answer is S_OK; what it gives back is what the engines
    asked have written, the last of them being that first S_OK engine when
    there is one. GetProposedFont gives S_OK then, and E_FAIL when no
    engine asked answered S_OK (none is asked when none is attached).
    GetFontSize and IsGlyphWideByFont give back a plain COORD and a plain
    bool: when no engine answered S_OK they still give back the value as
    written so far, 1 by 1 and false when no engine wrote. With more than
    two engines attached each of the three queries fails fast: no engine
    is asked and nothing is given back. *)
Theorem queries_stop_at_first_S_OK (s : Renderer) (iDpi : Z)
    (desired : FontInfoDesired) (fontInfo : FontInfo) (glyph : wstring) :
  if (length (_rgpEngines s) <=? 2)%nat then
    (exists evs,
       GetProposedFont env iDpi desired fontInfo s
       = (Done (if answered_S_OK (responses_of evs) then S_OK else E_FAIL,
                written font_out fontInfo (responses_of evs)),
          record evs s)
       /\ asked_until_S_OK (EngineGetProposedFont desired iDpi) (_rgpEngines s) evs)
    /\ (exists evs,
          GetFontSize env s
          = (Done (written coord_out {| X := 1; Y := 1 |} (responses_of evs)),
             record evs s)
          /\ asked_until_S_OK EngineGetFontSize (_rgpEngines s) evs)
    /\ (exists evs,
          IsGlyphWideByFont env glyph s
          = (Done (written bool_out false (responses_of evs)), record evs s)
          /\ asked_until_S_OK (EngineIsGlyphWideByFont glyph) (_rgpEngines s) evs)
  else
    GetProposedFont env iDpi desired fontInfo s = (FailFast, s)
    /\ GetFontSize env s = (FailFast, s)
    /\ IsGlyphWideByFont env glyph s = (FailFast, s).
Proof.
  destruct (length (_rgpEngines s) <=? 2)%nat eqn:Hsize.
  - assert (Hguard : negb (length (_rgpEngines s) <=? 2)%nat = false).
    { now rewrite Hsize. }
    clear Hsize. split; [|split].
    + unfold GetProposedFont. rewrite run_bind. unfold gets. cbn [fst snd].
      rewrite Hguard. destruct (_rgpEngines s) as [|e0 later] eqn:Hengines.
      * exists []. cbn. rewrite record_nil. split; [reflexivity|].
        repeat split; constructor.
      * cbn [length Nat.ltb Nat.leb]. rewrite run_bind, GetProposedFont_loop_shared.
        destruct (ask_until_S_OK_run (EngineGetProposedFont desired iDpi) font_out
                    (e0 :: later) fontInfo s) as (evs & Hrun & Hasked).
        rewrite Hrun. exists evs. split; [reflexivity | assumption].
    + unfold GetFontSize. rewrite run_bind. unfold gets. cbn [fst snd].
      rewrite Hguard, run_bind, GetFontSize_loop_shared.
      destruct (ask_until_S_OK_run EngineGetFontSize coord_out (_rgpEngines s)
                  {| X := 1; Y := 1 |} s) as (evs & Hrun & Hasked).
      rewrite Hrun. exists evs. split; [reflexivity | assumption].
    + unfold IsGlyphWideByFont. rewrite run_bind. unfold gets. cbn [fst snd].
      rewrite Hguard, run_bind, IsGlyphWideByFont_loop_shared.
      destruct (ask_until_S_OK_run (EngineIsGlyphWideByFont glyph) bool_out
                  (_rgpEngines s) false s) as (evs & Hrun & Hasked).
      rewrite Hrun. exists evs. split; [reflexivity | assumption].
  - assert (Hsome : (length (_rgpEngines s) <? 1)%nat = false).
    { apply Nat.leb_gt in Hsize. apply Nat.ltb_ge. lia. }
    unfold GetProposedFont, GetFontSize, IsGlyphWideByFont.
    rewrite !run_bind. unfold gets. cbn [fst snd].
    now rewrite Hsome, Hsize.
Qed.

End Queries.

(** ** Attribute runs: _PaintBufferOutputColorHelper *)

Section Runs.

Variable env : Environment.

Lemma bind_ext {A B} (m : M A) (k1 k2 : A -> M B) (s : Renderer) :
  (forall a s', k1 a s' = k2 a s') -> bind m k1 s = bind m k2 s.
Proof. intros H. unfold bind. destruct (m s). apply H. Qed.

Lemma columns_of_app (a b : ATTR_ROW) :
  columns_of (a ++ b) = columns_of a + columns_of b.
Proof.
  unfold columns_of. induction a as [|r a IH]; cbn [app map fold_right]; lia.
Qed.

Lemma columns_of_nonneg (runs : ATTR_ROW) :
  Forall (fun run => 0 < RunLength run) runs -> 0 <= columns_of runs.
Proof.
  unfold columns_of. induction 1; cbn [map fold_right]; lia.
Qed.

(** Asked at the column where a run starts, the attribute row gives that
    run's style and its whole length. *)
Lemma GetAttrByColumn_at_run (done : ATTR_ROW) (run : TextAttributeRun)
    (later : ATTR_ROW) :
  Forall (fun r => 0 < RunLength r) done -> 0 < RunLength run ->
  GetAttrByColumn (done ++ run :: later) (columns_of done)
  = (RunAttr run, RunLength run).
Proof.
  intros Hdone Hrun. induction Hdone as [|r done Hr Hdone IH].
  - cbn. replace (0 <? RunLength run) with true by (symmetry; now apply Z.ltb_lt).
    now rewrite Z.sub_0_r.
  - cbn [app GetAttrByColumn]. pose proof (columns_of_nonneg done Hdone) as Hnn.
    change (columns_of (r :: done)) with (RunLength r + columns_of done).
    replace (RunLength r + columns_of done <? RunLength r) with false
      by (symmetry; apply Z.ltb_ge; lia).
    replace (RunLength r + columns_of done - RunLength r) with (columns_of done) by lia.
    exact IH.
Qed.

(** From the start of a run on, the loop of the colour helper is one turn
    of [draw_runs] per run left. *)
Lemma ColorHelper_loop_draws_runs (pEngine : IRenderEngine) (Row : ROW)
    (cchLine : Z) (lineWrapped : bool) (later : ATTR_ROW) :
  forall (run : TextAttributeRun) (done : ATTR_ROW) (st : ColorSegment)
         (fuel : nat) (s : Renderer),
    GetAttrRow Row = done ++ run :: later ->
    Forall (fun r => 0 < RunLength r) (done ++ run :: later) ->
    cchLine = columns_of (done ++ run :: later) ->
    cchLine < 18446744073709551616 ->
    cchWritten st = columns_of done ->
    Z.of_nat (length (itSegment st)) = columns_of (run :: later) ->
    (length (itSegment st) < fuel)%nat ->
    ColorHelper_loop env fuel pEngine Row cchLine 0 lineWrapped st s
    = draw_runs env pEngine (run :: later) (pwsSegmentAt st) (itSegment st)
        (coordOffset st) lineWrapped s.
Proof.
  induction later as [|next later IH];
    intros run done st fuel s Hrow Hpos Hline Hsize Hwritten Hcells Hfuel.
  all: destruct fuel as [|fuel]; [lia|].
  all: apply Forall_app in Hpos as Hsplit; destruct Hsplit as [Hdone Hrest].
  all: apply Forall_cons_iff in Hrest as [Hrun Hlater].
  all: pose proof (columns_of_nonneg done Hdone) as Hdone0.
  all: pose proof (columns_of_nonneg _ Hlater) as Hlater0.
  all: rewrite Hline, columns_of_app in Hsize.
  all: cbn [ColorHelper_loop draw_runs].
  all: rewrite Hrow, Hwritten, Z.add_0_l, (size_t_of_small (columns_of done)) by lia.
  all: rewrite GetAttrByColumn_at_run by assumption.
  all: rewrite Hline, columns_of_app.
  all: match goal with
       | |- context [Z.min (size_t_of ?a) ?b] =>
           replace (Z.min (size_t_of a) b) with b
             by (rewrite size_t_of_small;
                 change (columns_of (run :: ?l)) with (RunLength run + columns_of l) in *;
                 lia)
       end.
  all: apply bind_ext; intros hrBrushes s1.
  all: apply bind_ext; intros _ s2.
  all: replace (RunLength run <=? 0) with false by (symmetry; apply Z.leb_gt; lia).
  all: apply bind_ext; intros hrLine s3.
  all: apply bind_ext; intros _ s4.
  all: apply bind_ext; intros pData s5.
  all: apply bind_ext; intros _ s6.
  all: cbn [cchWritten itSegment pwsSegmentAt coordOffset].
  - change (columns_of [run]) with (RunLength run + 0) in *.
    rewrite size_t_of_small by lia.
    replace (columns_of done + RunLength run <? columns_of done + (RunLength run + 0))
      with false by (symmetry; apply Z.ltb_ge; lia).
    reflexivity.
  - change (columns_of (run :: next :: later))
      with (RunLength run + columns_of (next :: later)) in *.
    apply Forall_cons_iff in Hlater as [Hnext Hlater'].
    pose proof (columns_of_nonneg _ Hlater') as Hlater0'.
    change (columns_of (next :: later)) with (RunLength next + columns_of later) in *.
    rewrite size_t_of_small by lia.
    replace (columns_of done + RunLength run
             <? columns_of done + (RunLength run + (RunLength next + columns_of later)))
      with true by (symmetry; apply Z.ltb_lt; lia).
    assert (Hleft : Z.of_nat (length (skipn (Z.to_nat (RunLength run)) (itSegment st)))
                    = RunLength next + columns_of later).
    { rewrite length_skipn. lia. }
    replace (Nat.eqb (length (skipn (Z.to_nat (RunLength run)) (itSegment st))) 0)
      with false by (symmetry; apply Nat.eqb_neq; lia).
    cbn [andb negb].
    replace (columns_of done + (RunLength run + (RunLength next + columns_of later)))
      with cchLine
      by (rewrite Hline, columns_of_app;
          change (columns_of (run :: next :: later))
            with (RunLength run + (RunLength next + columns_of later));
          reflexivity).
    apply (IH next (done ++ [run])).
    + now rewrite <- app_assoc.
    + now rewrite <- app_assoc.
    + now rewrite <- app_assoc.
    + rewrite Hline, columns_of_app.
      change (columns_of (run :: next :: later))
        with (RunLength run + (RunLength next + columns_of later)). lia.
    + cbn [cchWritten]. rewrite columns_of_app.
      change (columns_of [run]) with (RunLength run + 0). lia.
    + cbn [itSegment]. exact Hleft.
    + cbn [itSegment]. rewrite length_skipn in *. lia.
Qed.

(** The fuel of the loop is never used up: above the number of cells
    left, any two amounts give the same run. *)
Lemma ColorHelper_loop_enough_fuel (pEngine : IRenderEngine) (Row : ROW)
    (cchLine iFirstAttr : Z) (lineWrapped : bool) (fuel1 : nat) :
  forall (fuel2 : nat) (st : ColorSegment) (s : Renderer),
    (length (itSegment st) < fuel1)%nat ->
    (length (itSegment st) < fuel2)%nat ->
    ColorHelper_loop env fuel1 pEngine Row cchLine iFirstAttr lineWrapped st s
    = ColorHelper_loop env fuel2 pEngine Row cchLine iFirstAttr lineWrapped st s.
Proof.
  induction fuel1 as [|fuel1 IH]; intros fuel2 st s H1 H2; [lia|].
  destruct fuel2 as [|fuel2]; [lia|]. cbn [ColorHelper_loop].
  destruct (GetAttrByColumn _ _) as [attr cAttrApplies].
  apply bind_ext; intros hrBrushes s1.
  apply bind_ext; intros _ s2.
  destruct (Z.min _ _ <=? 0) eqn:Hseg; [reflexivity|].
  apply Z.leb_gt in Hseg.
  apply bind_ext; intros hrLine s3.
  apply bind_ext; intros _ s4.
  apply bind_ext; intros pData s5.
  apply bind_ext; intros _ s6.
  cbn [cchWritten itSegment].
  set (left := skipn _ (itSegment st)).
  destruct (Nat.eqb (length left) 0) eqn:Hleft;
    [now rewrite andb_false_r|].
  apply Nat.eqb_neq in Hleft.
  destruct (_ <? cchLine); [|reflexivity]. cbn [andb negb].
  assert (Hless : (length left < length (itSegment st))%nat).
  { subst left. rewrite length_skipn in *. lia. }
  apply IH; cbn [itSegment]; fold left; lia.
Qed.

Lemma decorations_app (a b : list Event) :
  decorations (a ++ b) = decorations a ++ decorations b.
Proof.
  induction a as [|ev a IH]; [reflexivity|].
  destruct ev as [e c r| | | | |]; cbn [app decorations]; try assumption.
  destruct c; cbn [app]; now rewrite ?IH.
Qed.

Lemma decorations_none (evs : list Event) :
  forallb (fun ev => negb (is_decoration ev)) evs = true -> decorations evs = [].
Proof.
  induction evs as [|ev evs IH]; [reflexivity|]. cbn [forallb].
  intros H. apply andb_prop in H as [Hev Hevs].
  destruct ev as [e c r| | | | |]; cbn [decorations]; auto.
  destruct c; cbn in Hev; try discriminate; auto.
Qed.

Lemma run_spans_lengths (runs : ATTR_ROW) (coordOffset : COORD) :
  fold_right Z.add 0 (map fst (run_spans runs coordOffset)) = columns_of runs.
Proof.
  unfold columns_of. revert coordOffset.
  induction runs as [|run later IH]; intros coordOffset; [reflexivity|].
  cbn [run_spans map fst fold_right]. now rewrite IH.
Qed.

(** The decoration draws of [draw_runs]: one per run, over the run's own
    span, when grid lines may be drawn. *)
Lemma draw_runs_decorations (pEngine : IRenderEngine) (lineWrapped : bool)
    (runs : ATTR_ROW) :
  forall (pwsSegment : list WCHAR) (itSegment : list CharRowCell)
         (coordOffset : COORD) (s : Renderer),
    IsGridLineDrawingAllowed (_pData s) = true ->
    exists evs,
      snd (draw_runs env pEngine runs pwsSegment itSegment coordOffset lineWrapped s)
      = record evs s
      /\ decorations evs = run_spans runs coordOffset.
Proof.
  induction runs as [|run later IH];
    intros pwsSegment itSegment coordOffset s Hgrid; cbn [draw_runs run_spans].
  - exists []. now rewrite record_nil.
  - assert (Hplain :
              logs (fun ev => negb (is_decoration ev))
                (hrBrushes <- _UpdateDrawingBrushes env pEngine (RunAttr run) false ;;
                 LOG_IF_FAILED hrBrushes ;;
                 hrLine <- _PaintBufferOutputDoubleByteHelper env pEngine pwsSegment
                             itSegment (RunLength run) coordOffset lineWrapped ;;
                 LOG_IF_FAILED hrLine)).
    { unfold _UpdateDrawingBrushes, _PaintBufferOutputDoubleByteHelper.
      repeat logs_step. }
    destruct (Hplain s) as (before & Hbefore & Hnone).
    apply decorations_none in Hnone.
    rewrite !run_bind in Hbefore. rewrite !run_bind. rewrite Hbefore.
    unfold gets at 1. cbn [fst snd record _pData]. rewrite Hgrid.
    unfold _PaintBufferOutputGridLineHelper at 1. rewrite !run_bind.
    unfold gets. cbn [fst snd].
    set (decoration := PaintBufferGridLines _ _ _ _).
    set (r := answer env (events (record before s)) pEngine decoration).
    change (call env pEngine decoration (record before s))
      with (r, record [EngineEv pEngine decoration r] (record before s)).
    cbn [fst snd].
    assert (Hlog : exists l,
               snd (LOG_IF_FAILED (hr_of r)
                      (record [EngineEv pEngine decoration r] (record before s)))
               = record (before ++ EngineEv pEngine decoration r :: l) s
               /\ decorations l = []).
    { unfold LOG_IF_FAILED. destruct (FAILED (hr_of r)).
      - exists [Log (hr_of r)]. rewrite run_bind. cbn [fst snd emit modify ret].
        rewrite !record_record. split; reflexivity.
      - exists []. cbn [ret snd]. rewrite record_record. split; reflexivity. }
    destruct Hlog as (l & Hl & Hlnone). cbn [ret snd]. rewrite Hl.
    destruct (IH (skipn (Z.to_nat (RunLength run)) pwsSegment)
                 (skipn (Z.to_nat (RunLength run)) itSegment)
                 {| X := SHORT_of (X coordOffset + SHORT_of (RunLength run));
                    Y := Y coordOffset |}
                 (record (before ++ EngineEv pEngine decoration r :: l) s) Hgrid)
      as (evs & Hevs & Hdec).
    rewrite Hevs, record_record.
    exists ((before ++ EngineEv pEngine decoration r :: l) ++ evs).
    split; [reflexivity|].
    rewrite !decorations_app, Hnone, Hdec. subst decoration.
    cbn [app decorations]. now rewrite Hlnone.
Qed.

(** C8. A row of N cells whose attribute runs, each at least a column
    long, hold N columns together is asked for in full. The run-decoding
    loop then is one turn per attribute run, in order: the run's style is
    set, the run's text is drawn through the wide-glyph helper over the
    run's own length, the decoration (if permitted) is drawn over the same
    span, and the text pointer, the cell iterator and the target move on by
    that length. So every segment is one attribute run, the segment
    lengths add up to N, and when decorations are permitted the log shows
    one decoration draw per run, of the run's length, at the run's start. *)
Theorem ColorHelper_draws_each_run (pEngine : IRenderEngine) (Row : ROW)
    (pwsLine : list WCHAR) (it : list CharRowCell) (coordTarget : COORD)
    (lineWrapped : bool) (s : Renderer) :
  let runs := GetAttrRow Row in
  let N := Z.of_nat (length it) in
  runs <> [] ->
  Forall (fun run => 0 < RunLength run) runs ->
  columns_of runs = N ->
  N < 18446744073709551616 ->
  _PaintBufferOutputColorHelper env pEngine Row pwsLine it N 0 coordTarget
    lineWrapped s
  = draw_runs env pEngine runs pwsLine it coordTarget lineWrapped s
  /\ fold_right Z.add 0 (map fst (run_spans runs coordTarget)) = N
  /\ (IsGridLineDrawingAllowed (_pData s) = true ->
      decorations
        (logged_since s
           (snd (_PaintBufferOutputColorHelper env pEngine Row pwsLine it N 0
                   coordTarget lineWrapped s)))
      = run_spans runs coordTarget).
Proof.
  intros runs N Hsome Hpos Hcolumns Hsize.
  assert (Hloop : _PaintBufferOutputColorHelper env pEngine Row pwsLine it N 0
                    coordTarget lineWrapped s
                  = draw_runs env pEngine runs pwsLine it coordTarget lineWrapped s).
  { unfold _PaintBufferOutputColorHelper. subst runs.
    destruct (GetAttrRow Row) as [|run later] eqn:Hrow; [congruence|].
    apply (ColorHelper_loop_draws_runs pEngine Row N lineWrapped later run []);
      cbn [app cchWritten itSegment]; try assumption; try reflexivity;
      try (now symmetry); lia. }
  split; [assumption|]. split.
  - now rewrite run_spans_lengths.
  - intros Hgrid. rewrite Hloop.
    destruct (draw_runs_decorations pEngine lineWrapped runs pwsLine it coordTarget
                s Hgrid) as (evs & Hevs & Hdec).
    rewrite Hevs, logged_since_record by reflexivity. assumption.
Qed.

End Runs.

(** A row of two plain cells and one underlined cell, drawn in full with
    decorations permitted. *)
Lemma ColorHelper_draws_each_run_witness :
  let s := renderer_of (dataOf 3 1 false true []) [7%nat] in
  let origin := {| X := 0; Y := 0 |} in
  _PaintBufferOutputColorHelper agreeable 7%nat twoStyleRow [32; 32; 32]
    (repeat blankCell 3) 3 0 origin false s
  = draw_runs agreeable 7%nat (GetAttrRow twoStyleRow) [32; 32; 32]
      (repeat blankCell 3) origin false s
  /\ fold_right Z.add 0 (map fst (run_spans (GetAttrRow twoStyleRow) origin)) = 3
  /\ (IsGridLineDrawingAllowed (_pData s) = true ->
      decorations
        (logged_since s
           (snd (_PaintBufferOutputColorHelper agreeable 7%nat twoStyleRow
                   [32; 32; 32] (repeat blankCell 3) 3 0 origin false s)))
      = run_spans (GetAttrRow twoStyleRow) origin).
Proof.
  intros s origin.
  apply (ColorHelper_draws_each_run agreeable 7%nat twoStyleRow [32; 32; 32]
           (repeat blankCell 3) origin false s).
  - discriminate.
  - repeat constructor.
  - reflexivity.
  - reflexivity.
Defined.

(** Two engines are attached and both measure; with a third engine
    attached the three queries fail fast. *)
Lemma queries_stop_at_first_S_OK_witness :
  let s := renderer_of (blankData 2 1 false) [1%nat; 2%nat] in
  let crowded := renderer_of (blankData 2 1 false) [1%nat; 2%nat; 3%nat] in
  let desired := {| DesiredFaceName := []; DesiredSize := {| X := 0; Y := 12 |} |} in
  let fontInfo := {| IsTrueTypeFont := true; GetCodePage := 65001 |} in
  ((exists evs,
      GetProposedFont measuring 96 desired fontInfo s
      = (Done (if answered_S_OK (responses_of evs) then S_OK else E_FAIL,
               written font_out fontInfo (responses_of evs)),
         record evs s)
      /\ asked_until_S_OK (EngineGetProposedFont desired 96) (_rgpEngines s) evs)
   /\ (exists evs,
         GetFontSize measuring s
         = (Done (written coord_out {| X := 1; Y := 1 |} (responses_of evs)),
            record evs s)
         /\ asked_until_S_OK EngineGetFontSize (_rgpEngines s) evs)
   /\ (exists evs,
         IsGlyphWideByFont measuring [20013] s
         = (Done (written bool_out false (responses_of evs)), record evs s)
         /\ asked_until_S_OK (EngineIsGlyphWideByFont [20013]) (_rgpEngines s) evs))
  /\ (GetProposedFont measuring 96 desired fontInfo crowded = (FailFast, crowded)
      /\ GetFontSize measuring crowded = (FailFast, crowded)
      /\ IsGlyphWideByFont measuring [20013] crowded = (FailFast, crowded)).
Proof.
  intros s crowded desired fontInfo. split.
  - exact (queries_stop_at_first_S_OK measuring s 96 desired fontInfo [20013]).
  - exact (queries_stop_at_first_S_OK measuring crowded 96 desired fontInfo [20013]).
Defined.

(** No attached engine answers S_OK, and GetFontSize and IsGlyphWideByFont
    give back 1 by 1 and false, the very values they give back when an
    engine answers S_OK with them: no failure is reported. With a third
    engine attached the queries fail fast and ask no engine. *)
Lemma queries_without_S_OK_report_no_failure :
  let s := renderer_of (blankData 2 1 false) [1%nat; 2%nat] in
  let crowded := renderer_of (blankData 2 1 false) [1%nat; 2%nat; 3%nat] in
  answered_S_OK (responses_of (events (snd (GetFontSize passthrough s)))) = false
  /\ fst (GetFontSize passthrough s) = Done {| X := 1; Y := 1 |}
  /\ fst (GetFontSize measuring s) = Done {| X := 1; Y := 1 |}
  /\ answered_S_OK
       (responses_of (events (snd (IsGlyphWideByFont passthrough [20013] s)))) = false
  /\ fst (IsGlyphWideByFont passthrough [20013] s) = Done false
  /\ fst (IsGlyphWideByFont measuring [20013] s) = Done false
  /\ GetFontSize measuring crowded = (FailFast, crowded).
Proof.
  vm_compute. intuition.
Qed.

(** * The frame, step by step *)

(** ** What the drawing helpers log *)

Lemma logs_weaken {A} (P Q : Event -> bool) (m : M A) :
  (forall ev, P ev = true -> Q ev = true) -> logs P m -> logs Q m.
Proof.
  intros HPQ Hm s. destruct (Hm s) as (evs & Hs & HP).
  exists evs. split; [assumption|]. revert HP. clear Hs.
  induction evs as [|ev evs IH]; [reflexivity|]. cbn [forallb].
  intros H. apply andb_prop in H as [Hev Hevs]. now rewrite (HPQ ev Hev), IH.
Qed.

Section Drawing.

Variable env : Environment.
Variable pEngine : IRenderEngine.

Let draws := drawing pEngine.

Lemma draws_call (c : EngineCall) (r : Response) :
  draw_call c = true -> draws (EngineEv pEngine c r) = true.
Proof.
  intros Hc. unfold draws. cbn. now rewrite Nat.eqb_refl, Hc.
Qed.

Lemma draws_UpdateDrawingBrushes (a : TextAttribute) :
  logs draws (_UpdateDrawingBrushes env pEngine a false).
Proof.
  unfold _UpdateDrawingBrushes. repeat logs_step. now apply draws_call.
Qed.

Lemma draws_DoubleByteHelper (pwsLine : list WCHAR) (it : list CharRowCell)
    (cchLine : Z) (coordTarget : COORD) (lineWrapped : bool) :
  logs draws (_PaintBufferOutputDoubleByteHelper env pEngine pwsLine it cchLine
                coordTarget lineWrapped).
Proof.
  unfold _PaintBufferOutputDoubleByteHelper. repeat logs_step.
  now apply draws_call.
Qed.

Lemma draws_GridLineHelper (a : TextAttribute) (cchLine : Z) (coordTarget : COORD) :
  logs draws (_PaintBufferOutputGridLineHelper env pEngine a cchLine coordTarget).
Proof.
  unfold _PaintBufferOutputGridLineHelper. repeat logs_step.
  now apply draws_call.
Qed.

Lemma draws_ColorHelper_loop (Row : ROW) (cchLine iFirstAttr : Z) (lineWrapped : bool)
    (fuel : nat) (st : ColorSegment) :
  logs draws (ColorHelper_loop env fuel pEngine Row cchLine iFirstAttr lineWrapped st).
Proof.
  revert st. induction fuel as [|fuel IH]; intros st; cbn [ColorHelper_loop].
  - apply logs_ret.
  - destruct (GetAttrByColumn _ _) as [attr cAttrApplies].
    apply logs_bind; [apply draws_UpdateDrawingBrushes | intros ?].
    repeat logs_step;
      try apply draws_DoubleByteHelper; try apply draws_GridLineHelper; apply IH.
Qed.

Lemma draws_RasterFontHelper (Row : ROW) (pwsLine : list WCHAR)
    (it : list CharRowCell) (cchLine iFirstAttr : Z) (coordTarget : COORD)
    (lineWrapped : bool) :
  logs draws (_PaintBufferOutputRasterFontHelper env pEngine Row pwsLine it cchLine
                iFirstAttr coordTarget lineWrapped).
Proof.
  unfold _PaintBufferOutputRasterFontHelper, _PaintBufferOutputColorHelper.
  repeat logs_step; apply draws_ColorHelper_loop.
Qed.

Lemma draws_PaintBufferOutput : logs draws (_PaintBufferOutput env pEngine).
Proof.
  unfold _PaintBufferOutput. repeat logs_step; [now apply draws_call|].
  match goal with |- logs _ (_PaintBufferOutput_rows _ _ ?v ?tb ?vd ?rows) =>
    generalize rows as l; generalize vd as viewDirty end.
  intros viewDirty l. induction l as [|iRow l IH]; cbn [_PaintBufferOutput_rows].
  - apply logs_ret.
  - repeat logs_step;
      first [apply draws_RasterFontHelper | now apply draws_call | apply IH].
Qed.

Lemma draws_PaintIme (AreaInfo : ConversionAreaInfo) (textBuffer : TextBuffer) :
  logs draws (_PaintIme env pEngine AreaInfo textBuffer).
Proof.
  unfold _PaintIme. repeat logs_step; try (now apply draws_call).
  match goal with |- logs _ (_PaintIme_rows _ _ _ _ ?vd ?rows) =>
    generalize rows as l; generalize vd as viewDirty end.
  intros viewDirty l. induction l as [|iRow l IH]; cbn [_PaintIme_rows].
  - apply logs_ret.
  - repeat logs_step; try apply draws_RasterFontHelper; apply IH.
Qed.

Lemma draws_PaintImeCompositionString :
  logs draws (_PaintImeCompositionString env pEngine).
Proof.
  unfold _PaintImeCompositionString. repeat logs_step.
  match goal with |- logs _ (_PaintImeCompositionString_from _ _ ?i ?l) =>
    generalize i as n; generalize l as areas end.
  intros areas. induction areas as [|area areas IH]; intros n;
    cbn [_PaintImeCompositionString_from].
  - apply logs_ret.
  - repeat logs_step; try apply draws_PaintIme; apply IH.
Qed.

Lemma draws_PaintSelection : logs draws (_PaintSelection env pEngine).
Proof.
  unfold _PaintSelection. repeat logs_step; try (now apply draws_call).
  apply logs_GetSelectionRects.
Qed.

Lemma draws_PaintCursor : logs draws (_PaintCursor env pEngine).
Proof.
  unfold _PaintCursor. repeat logs_step. now apply draws_call.
Qed.

Lemma drawing_no_step (ev : Event) : draws ev = true -> no_step pEngine ev = true.
Proof.
  destruct ev as [e c ?| | | | |]; cbn; try discriminate; try reflexivity.
  destruct (Nat.eqb e pEngine); [|reflexivity]. cbn.
  destruct c; cbn; try discriminate; try reflexivity.
  now destruct includeBackground.
Qed.

Lemma drawing_working (ev : Event) : draws ev = true -> working pEngine ev = true.
Proof.
  unfold working.
  destruct ev as [e c ?| | | | |]; cbn; try discriminate; try reflexivity.
  destruct (Nat.eqb e pEngine); [|discriminate]. cbn.
  destruct c; cbn; try discriminate; try reflexivity.
Qed.

End Drawing.

(** ** What a frame gives back *)

Section FrameResult.

Variable env : Environment.
Variable pEngine : IRenderEngine.

Lemma step_answers_app (a b : list Event) :
  step_answers pEngine (a ++ b) = step_answers pEngine a ++ step_answers pEngine b.
Proof.
  induction a as [|ev a IH]; [reflexivity|].
  destruct ev as [e c r| | | | |]; cbn [app step_answers]; try assumption.
  destruct (Nat.eqb e pEngine && frame_step c); cbn [app]; now rewrite IH.
Qed.

Lemma step_answers_none (evs : list Event) :
  forallb (no_step pEngine) evs = true -> step_answers pEngine evs = [].
Proof.
  induction evs as [|ev evs IH]; [reflexivity|]. cbn [forallb].
  intros H. apply andb_prop in H as [Hev Hevs].
  destruct ev as [e c r| | | | |]; cbn [step_answers]; try (now apply IH).
  cbn [no_step] in Hev. apply negb_true_iff in Hev. rewrite Hev. now apply IH.
Qed.

Lemma scroll_checking_no_step (ev : Event) :
  scroll_checking ev = true -> no_step pEngine ev = true.
Proof.
  destruct ev as [e c ?| | | | |]; cbn; try discriminate; try reflexivity.
  destruct c; cbn; try discriminate; intros _; now rewrite andb_false_r.
Qed.

Lemma first_failure_cons (ok : HRESULT) (answers : list HRESULT) (hr : HRESULT) :
  FAILED ok = false -> first_failure answers hr -> first_failure (ok :: answers) hr.
Proof.
  intros Hok (oks & Hoks & Hcase). exists (ok :: oks). split.
  - cbn [forallb]. rewrite Hoks, andb_true_r. unfold SUCCEEDED, FAILED in *.
    apply Z.ltb_ge in Hok. now apply Z.leb_le.
  - destruct Hcase as [[-> ->]|[-> Hhr]]; [left | right]; now split.
Qed.

Lemma stops_quiet {A} (m : M A) (k : A -> M HRESULT) :
  logs (no_step pEngine) m -> (forall a, stops pEngine (k a)) ->
  stops pEngine (bind m k).
Proof.
  intros Hm Hk s. rewrite run_bind. destruct (Hm s) as (evs & Hs & Hquiet).
  rewrite Hs. destruct (Hk (fst (m s)) (record evs s)) as (evs' & Hs' & Hres).
  exists (evs ++ evs'). rewrite Hs', record_record. split; [reflexivity|].
  now rewrite step_answers_app, (step_answers_none evs Hquiet).
Qed.

Lemma stops_draw {A} (m : M A) (k : A -> M HRESULT) :
  logs (drawing pEngine) m -> (forall a, stops pEngine (k a)) ->
  stops pEngine (bind m k).
Proof.
  intros Hm. apply stops_quiet.
  apply (logs_weaken (drawing pEngine)); [apply drawing_no_step | assumption].
Qed.

Lemma stops_step (m : M HRESULT) (k : HRESULT -> M HRESULT) :
  takes_step pEngine m ->
  (forall hr, FAILED hr = true -> gives_up pEngine hr (k hr)) ->
  (forall hr, FAILED hr = false -> stops pEngine (k hr)) ->
  stops pEngine (bind m k).
Proof.
  intros Hm Hfail Hgo s. rewrite run_bind.
  destruct (Hm s) as (c & r & Hc & Hs & Hsame & Hhr). rewrite Hs.
  assert (Hanswers : forall evs,
             step_answers pEngine (EngineEv pEngine c r :: evs)
             = hr_of r :: step_answers pEngine evs).
  { intros evs. cbn [step_answers]. now rewrite Nat.eqb_refl, Hc. }
  destruct (FAILED (fst (m s))) eqn:Hf.
  - destruct (Hfail _ Hf (record [EngineEv pEngine c r] s)) as (evs & Hrun & Hquiet).
    rewrite Hrun. cbn [fst snd]. exists (EngineEv pEngine c r :: evs).
    rewrite record_record. split; [reflexivity|].
    rewrite Hanswers, (step_answers_none evs Hquiet).
    rewrite <- (Hhr (eq_sym Hsame)). exists []. split; [reflexivity|]. right.
    now split.
  - destruct (Hgo _ Hf (record [EngineEv pEngine c r] s)) as (evs & Hrun & Hres).
    exists (EngineEv pEngine c r :: evs). rewrite Hrun, record_record.
    split; [reflexivity|]. rewrite Hanswers.
    apply first_failure_cons; [now rewrite <- Hsame | assumption].
Qed.

Lemma gives_up_unlock (hr : HRESULT) : gives_up pEngine hr (unlock ;; ret hr).
Proof. intros s. exists [UnlockConsole]. split; reflexivity. Qed.

Lemma gives_up_endPaint (hr : HRESULT) :
  gives_up pEngine hr (endPaint env pEngine ;; unlock ;; ret hr).
Proof.
  intros s. unfold endPaint. rewrite !run_bind.
  set (r := answer env (events s) pEngine EndPaint).
  change (call env pEngine EndPaint s) with (r, record [EngineEv pEngine EndPaint r] s).
  cbn [fst snd]. unfold LOG_IF_FAILED. destruct (FAILED (hr_of r)).
  - exists [EngineEv pEngine EndPaint r; Log (hr_of r); UnlockConsole].
    split; [|cbn; now rewrite andb_false_r].
    rewrite !run_bind. cbn. now rewrite !record_record.
  - exists [EngineEv pEngine EndPaint r; UnlockConsole].
    split; [|cbn; now rewrite andb_false_r].
    cbn. now rewrite !record_record.
Qed.

Lemma takes_step_UpdateDrawingBrushes (a : TextAttribute) :
  takes_step pEngine (_UpdateDrawingBrushes env pEngine a true).
Proof.
  intros s. unfold _UpdateDrawingBrushes. rewrite !run_bind. unfold gets.
  cbn [fst snd].
  match goal with |- context [call env pEngine ?c s] =>
    set (call_made := c); set (r := answer env (events s) pEngine c);
    change (call env pEngine call_made s)
      with (r, record [EngineEv pEngine call_made r] s)
  end.
  cbn [fst snd]. exists call_made, r. split; [reflexivity|].
  destruct (FAILED (hr_of r)) eqn:Hf; cbn [ret fst snd]; repeat split; auto.
  discriminate.
Qed.

Lemma takes_step_call (c : EngineCall) :
  frame_step c = true ->
  takes_step pEngine (r <- call env pEngine c ;; ret (hr_of r)).
Proof.
  intros Hc s. rewrite run_bind.
  exists c, (answer env (events s) pEngine c). cbn. repeat split; auto.
Qed.

Lemma takes_step_PaintTitle : takes_step pEngine (_PaintTitle env pEngine).
Proof.
  intros s. unfold _PaintTitle. rewrite !run_bind. unfold gets. cbn [fst snd].
  exists (UpdateTitle (GetConsoleTitle (_pData s))),
         (answer env (events s) pEngine (UpdateTitle (GetConsoleTitle (_pData s)))).
  cbn. repeat split; auto.
Qed.

Lemma stops_present :
  stops pEngine
    (unlock ;;
     r <- call env pEngine Present ;;
     if FAILED (hr_of r) then ret (hr_of r) else ret S_OK).
Proof.
  intros s. rewrite !run_bind. unfold unlock, emit, modify. cbn [fst snd].
  set (r := answer env (events (record [UnlockConsole] s)) pEngine Present).
  change (call env pEngine Present (record [UnlockConsole] s))
    with (r, record [EngineEv pEngine Present r] (record [UnlockConsole] s)).
  cbn [fst snd]. exists [UnlockConsole; EngineEv pEngine Present r].
  assert (Hanswers : step_answers pEngine [UnlockConsole; EngineEv pEngine Present r]
                     = [hr_of r]).
  { cbn. now rewrite Nat.eqb_refl. }
  rewrite Hanswers. destruct (FAILED (hr_of r)) eqn:Hf; cbn [ret fst snd];
    rewrite record_record; (split; [reflexivity|]).
  - exists []. split; [reflexivity|]. right. now split.
  - exists [hr_of r]. split; [|left; now split].
    cbn. rewrite andb_true_r. unfold SUCCEEDED, FAILED in *.
    apply Z.ltb_ge in Hf. now apply Z.leb_le.
Qed.

(** The frame from its begin-frame call on: it stops at the first step
    that fails. *)
Lemma frame_steps_run (s : Renderer) :
  exists evs,
    snd (_PaintFrameForEngine env pEngine s)
    = record evs (set_srViewportPrevious (ToInclusive (GetViewport (_pData s))) s)
    /\ first_failure (step_answers pEngine evs)
         (fst (_PaintFrameForEngine env pEngine s)).
Proof.
  unfold _PaintFrameForEngine.
  match goal with
  | |- context [bind (call env pEngine StartPaint) ?k] =>
      assert (Hk : forall r s1, exists evs,
                 snd (k r s1) = record evs s1
                 /\ first_failure (hr_of r :: step_answers pEngine evs) (fst (k r s1)));
      [|set (rest := k) in *]
  end.
  { intros r s1. cbv beta zeta. destruct (FAILED (hr_of r)) eqn:Hf.
    - exists [UnlockConsole]. split; [reflexivity|].
      exists []. split; [reflexivity|]. right. now split.
    - destruct (hr_of r =? S_FALSE) eqn:Hnothing.
      + exists [UnlockConsole]. split; [reflexivity|].
        apply first_failure_cons; [assumption|].
        exists []. split; [reflexivity|]. left. now split.
      + match goal with |- context [snd (?m s1)] =>
          assert (Hstops : stops pEngine m) end.
        { apply stops_quiet; [apply logs_gets | intros pData].
          apply stops_step; [apply takes_step_UpdateDrawingBrushes | |];
            intros hrBrushes ->; [apply gives_up_endPaint|].
          apply stops_step; [now apply takes_step_call | |];
            intros hrScroll ->; [apply gives_up_endPaint|].
          apply stops_step; [now apply takes_step_call | |];
            intros hrBackground ->; [apply gives_up_endPaint|].
          apply stops_draw; [apply draws_PaintBufferOutput | intros _].
          apply stops_draw; [apply draws_PaintImeCompositionString | intros _].
          apply stops_draw; [apply draws_PaintSelection | intros _].
          apply stops_draw; [apply draws_PaintCursor | intros _].
          apply stops_step;
            [apply takes_step_PaintTitle | |];
            intros hrTitle ->; [apply gives_up_endPaint|].
          apply stops_quiet; [|intros _; apply stops_present].
          unfold endPaint. repeat logs_step. cbn. now rewrite andb_false_r. }
        destruct (Hstops s1) as (evs & Hs & Hres). exists evs.
        split; [assumption|]. now apply first_failure_cons. }
  rewrite !run_bind. unfold emit, modify. cbn [fst snd].
  destruct (CheckViewportAndScroll_run env (record [LockConsole] s))
    as (check & Hcheck & Hscroll & _).
  cbn [record _pData _srViewportPrevious] in Hcheck. rewrite Hcheck.
  cbn [fst snd].
  match goal with |- context [call env pEngine StartPaint ?s1] =>
    set (r := answer env (events s1) pEngine StartPaint);
    change (call env pEngine StartPaint s1)
      with (r, record [EngineEv pEngine StartPaint r] s1)
  end.
  cbn [fst snd].
  match goal with |- context [rest r ?s1] =>
    destruct (Hk r s1) as (evs & Hs & Hres) end.
  exists (LockConsole :: check ++ EngineEv pEngine StartPaint r :: evs).
  split.
  - rewrite Hs, !record_record. rewrite <- set_srViewportPrevious_record.
    rewrite record_record. f_equal. cbn [app]. now rewrite <- ?app_assoc.
  - cbn [step_answers]. rewrite step_answers_app.
    rewrite (step_answers_none check).
    + cbn [app step_answers]. rewrite Nat.eqb_refl. exact Hres.
    + revert Hscroll. apply forallb_weaken. apply scroll_checking_no_step.
Qed.

(** X1. What _PaintFrameForEngine gives back is decided by the answers to
    its steps alone: StartPaint, the brush update with the background,
    ScrollFrame, PaintBackground, UpdateTitle and Present. The answers to
    the steps it has made are successes ([oks]) followed by nothing, and
    then it gives S_OK; or followed by one failure, and then it gives that
    very failure and has made no step after it. So a failure of a draw in
    between (a text line, a grid line, the selection, the cursor, a run's
    brushes, EndPaint) is never what the frame gives back, and the frame
    gives no success code but S_OK, also when StartPaint answered
    S_FALSE. *)
Theorem frame_stops_at_first_failed_step (s : Renderer) :
  let hr := fst (_PaintFrameForEngine env pEngine s) in
  let answers :=
    step_answers pEngine
      (logged_since s (snd (_PaintFrameForEngine env pEngine s))) in
  exists oks,
    forallb SUCCEEDED oks = true
    /\ ((answers = oks /\ hr = S_OK) \/ (answers = oks ++ [hr] /\ FAILED hr = true)).
Proof.
  destruct (frame_steps_run s) as (evs & Hs & Hres).
  cbv zeta. rewrite Hs, logged_since_record by reflexivity. exact Hres.
Qed.

End FrameResult.

(** ** A frame that has begun is ended *)

Section FrameBracket.

Variable env : Environment.
Variable pEngine : IRenderEngine.

Lemma ends_work {A} (m : M A) (k : A -> M HRESULT) :
  logs (working pEngine) m -> (forall a, ends pEngine (k a)) ->
  ends pEngine (bind m k).
Proof.
  intros Hm Hk s. rewrite run_bind. destruct (Hm s) as (evs & Hs & HP).
  rewrite Hs.
  destruct (Hk (fst (m s)) (record evs s))
    as (work & rEnd & failure & tail & Hs' & Hwork & Hfailure & Htail).
  exists (evs ++ work), rEnd, failure, tail.
  rewrite Hs', record_record, <- app_assoc.
  split; [reflexivity|]. split; [|now split].
  now rewrite forallb_app, HP, Hwork.
Qed.

Lemma ends_draw {A} (m : M A) (k : A -> M HRESULT) :
  logs (drawing pEngine) m -> (forall a, ends pEngine (k a)) ->
  ends pEngine (bind m k).
Proof.
  intros Hm. apply ends_work.
  apply (logs_weaken (drawing pEngine)); [apply drawing_working | assumption].
Qed.

(** The scope_exit that ends the paint: the EndPaint call, and the Log of
    its failure. *)
Lemma endPaint_run (s : Renderer) :
  exists rEnd failure,
    endPaint env pEngine s
    = (tt, record (EngineEv pEngine EndPaint rEnd :: failure) s)
    /\ (failure = [] \/ failure = [Log (hr_of rEnd)]).
Proof.
  unfold endPaint. rewrite !run_bind.
  set (r := answer env (events s) pEngine EndPaint).
  change (call env pEngine EndPaint s) with (r, record [EngineEv pEngine EndPaint r] s).
  cbn [fst snd]. unfold LOG_IF_FAILED. exists r.
  destruct (FAILED (hr_of r)).
  - exists [Log (hr_of r)]. split; [|now right].
    rewrite !run_bind. cbn. now rewrite !record_record.
  - exists []. split; [|now left]. reflexivity.
Qed.

Lemma ends_endPaint_unlock (hr : HRESULT) :
  ends pEngine (endPaint env pEngine ;; unlock ;; ret hr).
Proof.
  intros s. rewrite !run_bind.
  destruct (endPaint_run s) as (rEnd & failure & Hrun & Hfailure). rewrite Hrun.
  cbn [fst snd]. exists [], rEnd, failure, [].
  split; [|split; [reflexivity | split; [assumption | now left]]].
  unfold unlock, emit, modify. cbn [fst snd ret app].
  rewrite record_record. cbn [app]. reflexivity.
Qed.

Lemma ends_present :
  ends pEngine
    (endPaint env pEngine ;;
     unlock ;;
     r <- call env pEngine Present ;;
     if FAILED (hr_of r) then ret (hr_of r) else ret S_OK).
Proof.
  intros s. rewrite !run_bind.
  destruct (endPaint_run s) as (rEnd & failure & Hrun & Hfailure). rewrite Hrun.
  cbn [fst snd]. unfold unlock, emit, modify. cbn [fst snd].
  match goal with |- context [call env pEngine Present ?s1] =>
    set (r := answer env (events s1) pEngine Present);
    change (call env pEngine Present s1)
      with (r, record [EngineEv pEngine Present r] s1)
  end.
  cbn [fst snd]. exists [], rEnd, failure, [EngineEv pEngine Present r].
  split; [|split; [reflexivity | split; [assumption | right; eauto]]].
  destruct (FAILED (hr_of r)); cbn [ret snd app];
    rewrite !record_record; cbn [app]; now rewrite <- ?app_assoc.
Qed.

Lemma works_call (c : EngineCall) (r : Response) :
  paint_call c = true -> c <> EndPaint ->
  working pEngine (EngineEv pEngine c r) = true.
Proof.
  intros Hc Hne. unfold working. cbn. rewrite Nat.eqb_refl, Hc.
  destruct c; try reflexivity. congruence.
Qed.

Lemma works_UpdateDrawingBrushes (a : TextAttribute) (b : bool) :
  logs (working pEngine) (_UpdateDrawingBrushes env pEngine a b).
Proof.
  unfold _UpdateDrawingBrushes. repeat logs_step.
  apply works_call; [reflexivity | discriminate].
Qed.

Lemma works_PerformScrolling : logs (working pEngine) (_PerformScrolling env pEngine).
Proof.
  unfold _PerformScrolling. repeat logs_step.
  apply works_call; [reflexivity | discriminate].
Qed.

Lemma works_PaintBackground : logs (working pEngine) (_PaintBackground env pEngine).
Proof.
  unfold _PaintBackground. repeat logs_step.
  apply works_call; [reflexivity | discriminate].
Qed.

Lemma works_PaintTitle : logs (working pEngine) (_PaintTitle env pEngine).
Proof.
  unfold _PaintTitle. repeat logs_step.
  apply works_call; [reflexivity | discriminate].
Qed.

(** X2. A frame ends the paint exactly when it has begun one. The log of
    _PaintFrameForEngine is the lock, the viewport check, and StartPaint.
    If StartPaint's answer is a failure or S_FALSE, nothing follows but the
    release of the lock: no draw, no EndPaint, no Present. Otherwise what
    follows is the frame's work, which holds no EndPaint; then the one
    EndPaint call of the frame, with the Log of its failure if it failed;
    then the release of the lock; then nothing, or the Present call. So
    EndPaint is called once on every way out of a begun frame, an early
    return on a failed step included, after the last draw and before the
    lock is let go. *)
Theorem begun_frame_is_ended_once (s : Renderer) :
  exists check r rest,
    logged_since s (snd (_PaintFrameForEngine env pEngine s))
    = LockConsole :: check ++ EngineEv pEngine StartPaint r :: rest
    /\ forallb scroll_checking check = true
    /\ (if FAILED (hr_of r) || (hr_of r =? S_FALSE)
        then rest = [UnlockConsole]
        else exists work rEnd failure tail,
               rest = work ++ EngineEv pEngine EndPaint rEnd :: failure
                           ++ UnlockConsole :: tail
               /\ forallb (working pEngine) work = true
               /\ (failure = [] \/ failure = [Log (hr_of rEnd)])
               /\ (tail = [] \/ exists r', tail = [EngineEv pEngine Present r'])).
Proof.
  unfold _PaintFrameForEngine.
  match goal with
  | |- context [bind (call env pEngine StartPaint) ?k] =>
      assert (Hk : forall r s1, exists rest,
                 snd (k r s1) = record rest s1
                 /\ (if FAILED (hr_of r) || (hr_of r =? S_FALSE)
                     then rest = [UnlockConsole]
                     else exists work rEnd failure tail,
                       rest = work ++ EngineEv pEngine EndPaint rEnd :: failure
                                   ++ UnlockConsole :: tail
                       /\ forallb (working pEngine) work = true
                       /\ (failure = [] \/ failure = [Log (hr_of rEnd)])
                       /\ (tail = [] \/ exists r', tail = [EngineEv pEngine Present r'])));
      [|set (rest := k) in *]
  end.
  { intros r s1. cbv beta zeta. destruct (FAILED (hr_of r)) eqn:Hf; cbn [orb].
    - exists [UnlockConsole]. split; reflexivity.
    - destruct (hr_of r =? S_FALSE) eqn:Hnothing.
      + exists [UnlockConsole]. split; reflexivity.
      + match goal with |- context [snd (?m s1)] =>
          assert (Hends : ends pEngine m) end.
        { apply ends_work; [apply logs_gets | intros pData].
          apply ends_work; [apply works_UpdateDrawingBrushes | intros hrBrushes].
          destruct (FAILED hrBrushes); [apply ends_endPaint_unlock|].
          apply ends_work; [apply works_PerformScrolling | intros hrScroll].
          destruct (FAILED hrScroll); [apply ends_endPaint_unlock|].
          apply ends_work; [apply works_PaintBackground | intros hrBackground].
          destruct (FAILED hrBackground); [apply ends_endPaint_unlock|].
          apply ends_draw; [apply draws_PaintBufferOutput | intros _].
          apply ends_draw; [apply draws_PaintImeCompositionString | intros _].
          apply ends_draw; [apply draws_PaintSelection | intros _].
          apply ends_draw; [apply draws_PaintCursor | intros _].
          apply ends_work; [apply works_PaintTitle | intros hrTitle].
          destruct (FAILED hrTitle); [apply ends_endPaint_unlock|].
          apply ends_present. }
        destruct (Hends s1) as (work & rEnd & failure & tail & Hs & Hrest).
        exists (work ++ EngineEv pEngine EndPaint rEnd :: failure
                     ++ UnlockConsole :: tail).
        split; [assumption|]. exists work, rEnd, failure, tail.
        split; [reflexivity | assumption]. }
  rewrite !run_bind. unfold emit, modify. cbn [fst snd].
  destruct (CheckViewportAndScroll_run env (record [LockConsole] s))
    as (check & Hcheck & Hscroll & _).
  cbn [record _pData _srViewportPrevious] in Hcheck. rewrite Hcheck.
  cbn [fst snd].
  match goal with |- context [call env pEngine StartPaint ?s1] =>
    set (r := answer env (events s1) pEngine StartPaint);
    change (call env pEngine StartPaint s1)
      with (r, record [EngineEv pEngine StartPaint r] s1)
  end.
  cbn [fst snd].
  match goal with |- context [rest r ?s1] =>
    destruct (Hk r s1) as (evs & Hs & Hrest) end.
  exists check, r, evs. split; [|now split].
  rewrite Hs, !record_record. unfold logged_since.
  cbn [record events set_srViewportPrevious].
  rewrite <- !app_assoc, skipn_app, skipn_all, Nat.sub_diag. reflexivity.
Qed.

End FrameBracket.

(** * Scrolling *)

Lemma flat_map_singleton {A B} (f : A -> B) (l : list A) :
  flat_map (fun a => [f a]) l = map f l.
Proof.
  induction l as [|a l IH]; [reflexivity|]. cbn. now rewrite IH.
Qed.

Lemma SHORT_of_diff_zero (a b : Z) :
  -32768 <= a <= 32767 -> -32768 <= b <= 32767 ->
  (SHORT_of (a - b) =? 0) = (a =? b).
Proof.
  intros Ha Hb. unfold SHORT_of.
  destruct (a =? b) eqn:Hab.
  - apply Z.eqb_eq in Hab. subst b. now rewrite Z.sub_diag.
  - apply Z.eqb_neq in Hab. apply Z.eqb_neq. intros H.
    assert (Hmod : (a - b + 32768) mod 65536 = 32768) by lia.
    destruct (Z.lt_ge_cases (a - b + 32768) 0) as [Hneg|Hpos].
    + replace (a - b + 32768) with (a - b + 32768 + 65536 + -1 * 65536) in Hmod by lia.
      rewrite Z.mod_add in Hmod by lia. rewrite Z.mod_small in Hmod; lia.
    + destruct (Z.lt_ge_cases (a - b + 32768) 65536) as [Hlow|Hhigh].
      * rewrite Z.mod_small in Hmod; lia.
      * replace (a - b + 32768) with (a - b + 32768 - 65536 + 1 * 65536) in Hmod by lia.
        rewrite Z.mod_add in Hmod by lia. rewrite Z.mod_small in Hmod; lia.
Qed.

Section ScrollTriggers.

Variable env : Environment.

(** The viewport check when the stored viewport is the current one. *)
Lemma CheckViewportAndScroll_settled (s : Renderer) :
  _srViewportPrevious s = ToInclusive (GetViewport (_pData s)) ->
  exists evs,
    _CheckViewportAndScroll env s = (false, record evs s)
    /\ forallb scroll_checking evs = true
    /\ calls_of evs
       = flat_map (fun pEngine =>
                     [(pEngine, UpdateViewport (ToInclusive (GetViewport (_pData s))));
                      (pEngine, InvalidateScroll {| X := 0; Y := 0 |})])
                  (_rgpEngines s).
Proof.
  intros Hsame.
  destruct (CheckViewportAndScroll_run env s) as (evs & Hrun & Hkind & Hcalls).
  cbv zeta in Hrun, Hcalls.
  assert (Hset : set_srViewportPrevious (ToInclusive (GetViewport (_pData s))) s = s).
  { rewrite <- Hsame. apply set_srViewportPrevious_same. }
  rewrite Hset in Hrun. rewrite Hsame, !Z.sub_diag in Hrun, Hcalls.
  exists evs. split; [exact Hrun|]. split; assumption.
Qed.

Lemma scroll_checking_no_thread (evs : list Event) :
  forallb scroll_checking evs = true ->
  forallb (fun ev => negb (is_thread_event ev)) evs = true.
Proof.
  apply forallb_weaken. intros [e c ?| | | | |]; cbn; try discriminate; reflexivity.
Qed.

(** X3. A frame settles the scroll. After _PaintFrameForEngine, whatever
    the frame gave back, the stored previous viewport is the current one;
    so a TriggerScroll that follows tells every engine the viewport and a
    scroll of (0, 0), and does not wake the paint thread: the move the
    frame has seen is not reported a second time. *)
Theorem TriggerScroll_after_a_frame_is_silent (pEngine : IRenderEngine)
    (s : Renderer) :
  let view := ToInclusive (GetViewport (_pData s)) in
  let s1 := snd (_PaintFrameForEngine env pEngine s) in
  let s2 := snd (TriggerScroll env s1) in
  _srViewportPrevious s1 = view
  /\ calls_of (logged_since s1 s2)
     = flat_map (fun e => [(e, UpdateViewport view);
                           (e, InvalidateScroll {| X := 0; Y := 0 |})])
                (_rgpEngines s)
  /\ forallb (fun ev => negb (is_thread_event ev)) (logged_since s1 s2) = true
  /\ _pThread s2 = _pThread s.
Proof.
  intros view s1 s2.
  destruct (PaintFrameForEngine_run env pEngine s) as (frame & Hs1 & _).
  fold s1 view in Hs1.
  assert (Hsettled : _srViewportPrevious s1 = ToInclusive (GetViewport (_pData s1))).
  { now rewrite Hs1. }
  destruct (CheckViewportAndScroll_settled s1 Hsettled) as (evs & Hrun & Hkind & Hcalls).
  assert (Hs2 : s2 = record evs s1).
  { subst s2. unfold TriggerScroll. now rewrite run_bind, Hrun. }
  rewrite Hs2, logged_since_record by reflexivity.
  split; [now rewrite Hs1|]. split; [|split].
  - rewrite Hcalls, Hs1. reflexivity.
  - now apply scroll_checking_no_thread.
  - now rewrite Hs1.
Qed.

(** X4. With the sides of the stored and of the current viewport in the
    range of a SHORT, _CheckViewportAndScroll reports a scroll exactly when
    the left or the top side has changed: the narrowing of the delta to a
    SHORT hides no move, and a viewport that has only changed its size is
    no scroll. *)
Theorem CheckViewportAndScroll_reports_every_move (s : Renderer) :
  let old := _srViewportPrevious s in
  let new := ToInclusive (GetViewport (_pData s)) in
  -32768 <= Left old <= 32767 -> -32768 <= Top old <= 32767 ->
  -32768 <= Left new <= 32767 -> -32768 <= Top new <= 32767 ->
  fst (_CheckViewportAndScroll env s) = true
  <-> (Left old <> Left new \/ Top old <> Top new).
Proof.
  intros old new HLo HTo HLn HTn.
  destruct (CheckViewportAndScroll_run env s) as (evs & Hrun & _).
  cbv zeta in Hrun. rewrite Hrun. cbn [fst X Y]. fold old new.
  rewrite !SHORT_of_diff_zero by assumption.
  rewrite orb_true_iff, !negb_true_iff, !Z.eqb_neq. reflexivity.
Qed.

(** X5. TriggerScroll(pcoordDelta) tells every attached engine, in order,
    to invalidate a scroll of the delta it was given, makes no other call,
    and then wakes the paint thread, once, whatever the delta and whatever
    the engines answered. It leaves the stored previous viewport alone, so
    the next viewport check reports what it would have reported before. *)
Theorem TriggerScroll_pcoordDelta_invalidates_and_notifies (pcoordDelta : COORD)
    (s : Renderer) :
  let s' := snd (TriggerScroll_pcoordDelta env pcoordDelta s) in
  (exists evs,
     logged_since s s' = evs ++ [ThreadEv NotifyPaint]
     /\ forallb (fun ev => negb (is_thread_event ev)) evs = true
     /\ calls_of evs
        = map (fun pEngine => (pEngine, InvalidateScroll pcoordDelta)) (_rgpEngines s))
  /\ _srViewportPrevious s' = _srViewportPrevious s
  /\ fst (_CheckViewportAndScroll env s') = fst (_CheckViewportAndScroll env s).
Proof.
  intros s'.
  set (body := fun pEngine : IRenderEngine =>
                 r <- call env pEngine (InvalidateScroll pcoordDelta) ;;
                 LOG_IF_FAILED (hr_of r) ;;
                 ret tt).
  assert (Hlogs : logs scroll_checking (for_each (_rgpEngines s) body)).
  { apply logs_for_each. intros e. unfold body. repeat logs_step. }
  assert (Hissues :
            issues (flat_map (fun pEngine => [(pEngine, InvalidateScroll pcoordDelta)])
                             (_rgpEngines s))
                   (for_each (_rgpEngines s) body)).
  { apply issues_for_each. intros e. unfold body.
    change [(e, InvalidateScroll pcoordDelta)]
      with ([(e, InvalidateScroll pcoordDelta)] ++ [] ++ []).
    repeat (apply issues_bind; [|intros ?]);
      try apply issues_call; try apply issues_LOG_IF_FAILED; apply issues_ret. }
  destruct (Hlogs s) as (evs & Hs & HP).
  destruct (Hissues s) as (evs' & Hs' & Hc).
  rewrite Hs in Hs'. apply record_inj in Hs'. subst evs'.
  rewrite flat_map_singleton in Hc.
  assert (Hrun : s' = set_pThread (thread_NotifyPaint (_pThread s))
                        (record (evs ++ [ThreadEv NotifyPaint]) s)).
  { subst s'. unfold TriggerScroll_pcoordDelta. rewrite !run_bind. unfold gets.
    cbn [fst snd]. fold body. rewrite Hs.
    unfold _NotifyPaintFrame. rewrite run_bind. unfold emit, modify.
    cbn [fst snd]. now rewrite record_record. }
  split; [|split].
  - exists evs. split; [|split; [now apply scroll_checking_no_thread | assumption]].
    rewrite Hrun. unfold logged_since. cbn [set_pThread record events].
    rewrite skipn_app, skipn_all, Nat.sub_diag. reflexivity.
  - now rewrite Hrun.
  - destruct (CheckViewportAndScroll_run env s') as (a & Ha & _).
    destruct (CheckViewportAndScroll_run env s) as (b & Hb & _).
    cbv zeta in Ha, Hb. rewrite Ha, Hb. cbn [fst]. now rewrite Hrun.
Qed.

End ScrollTriggers.

(** A viewport that has moved five lines up since the last check. *)
Lemma CheckViewportAndScroll_reports_every_move_witness :
  let s := set_srViewportPrevious {| Left := 0; Top := 5; Right := 1; Bottom := 5 |}
             (renderer_of (blankData 2 1 false) [7%nat]) in
  fst (_CheckViewportAndScroll agreeable s) = true
  <-> (Left (_srViewportPrevious s) <> Left (ToInclusive (GetViewport (_pData s)))
       \/ Top (_srViewportPrevious s) <> Top (ToInclusive (GetViewport (_pData s)))).
Proof.
  intros s.
  apply (CheckViewportAndScroll_reports_every_move agreeable s); cbn; lia.
Defined.

(** * The cursor trigger *)

Lemma SHORT_of_add (a b : Z) : SHORT_of (SHORT_of a + b) = SHORT_of (a + b).
Proof.
  unfold SHORT_of. f_equal.
  replace ((a + 32768) mod 65536 - 32768 + b + 32768)
    with ((a + 32768) mod 65536 + b) by lia.
  rewrite Zplus_mod_idemp_l. f_equal. lia.
Qed.

Section CursorTrigger.

Variable env : Environment.

(** The loop for a cursor one cell wide: the same cell for every engine. *)
Lemma TriggerRedrawCursor_loop_single (engines : list IRenderEngine)
    (updateCoord : COORD) (s : Renderer) :
  IsCursorDoubleWidth (_pData s) = false ->
  exists evs,
    TriggerRedrawCursor_loop env engines updateCoord s = (tt, record evs s)
    /\ forallb (fun ev => negb (is_thread_event ev)) evs = true
    /\ calls_of evs
       = map (fun pEngine => (pEngine, InvalidateCursor updateCoord)) engines.
Proof.
  intros Hsingle. revert s Hsingle.
  induction engines as [|pEngine later IH]; intros s Hsingle;
    cbn [TriggerRedrawCursor_loop].
  - exists []. rewrite record_nil. repeat split.
  - rewrite run_bind.
    set (r := answer env (events s) pEngine (InvalidateCursor updateCoord)).
    change (call env pEngine (InvalidateCursor updateCoord) s)
      with (r, record [EngineEv pEngine (InvalidateCursor updateCoord) r] s).
    cbn [fst snd]. rewrite run_bind.
    assert (Hlog : exists l,
               LOG_IF_FAILED (hr_of r)
                 (record [EngineEv pEngine (InvalidateCursor updateCoord) r] s)
               = (hr_of r,
                  record (EngineEv pEngine (InvalidateCursor updateCoord) r :: l) s)
               /\ forallb (fun ev => negb (is_thread_event ev)) l = true
               /\ calls_of l = []).
    { unfold LOG_IF_FAILED. destruct (FAILED (hr_of r)).
      - exists [Log (hr_of r)]. rewrite run_bind. cbn. now rewrite record_record.
      - exists []. cbn. auto. }
    destruct Hlog as (l & Hl & Hquiet & Hnone). rewrite Hl. cbn [fst snd].
    rewrite run_bind. unfold gets. cbn [fst snd record _pData]. rewrite Hsingle.
    destruct (IH (record (EngineEv pEngine (InvalidateCursor updateCoord) r :: l) s)
                Hsingle) as (evs & Hrun & Hq & Hcalls).
    rewrite Hrun, record_record.
    exists ((EngineEv pEngine (InvalidateCursor updateCoord) r :: l) ++ evs).
    split; [reflexivity|]. split.
    + rewrite forallb_app. cbn [forallb is_thread_event negb andb].
      now rewrite Hquiet, Hq.
    + cbn [app calls_of map]. now rewrite calls_of_app, Hnone, Hcalls.
Qed.

(** The loop for a cursor two cells wide, from the engine numbered [k]
    on: the coordinate has moved right once for every engine before. *)
Lemma TriggerRedrawCursor_loop_double (engines : list IRenderEngine) (x y : Z) :
  forall (k : nat) (s : Renderer),
    IsCursorDoubleWidth (_pData s) = true ->
    exists evs,
      TriggerRedrawCursor_loop env engines
        {| X := SHORT_of (x + Z.of_nat k); Y := y |} s
      = (tt, record evs s)
      /\ calls_of evs
         = flat_map
             (fun ke =>
                [(snd ke, InvalidateCursor
                            {| X := SHORT_of (x + Z.of_nat (fst ke)); Y := y |});
                 (snd ke, InvalidateCursor
                            {| X := SHORT_of (x + Z.of_nat (fst ke) + 1); Y := y |})])
             (combine (seq k (length engines)) engines).
Proof.
  induction engines as [|pEngine later IH]; intros k s Hdouble;
    cbn [TriggerRedrawCursor_loop].
  - exists []. rewrite record_nil. split; reflexivity.
  - set (c1 := {| X := SHORT_of (x + Z.of_nat k); Y := y |}).
    set (c2 := {| X := SHORT_of (x + Z.of_nat k + 1); Y := y |}).
    assert (Hc2 : {| X := SHORT_of (X c1 + 1); Y := Y c1 |} = c2).
    { unfold c1, c2. cbn [X Y]. now rewrite SHORT_of_add. }
    assert (Hnext : c2 = {| X := SHORT_of (x + Z.of_nat (S k)); Y := y |}).
    { unfold c2. do 2 f_equal. lia. }
    assert (Hlog : forall (c : EngineCall) (s0 : Renderer), exists r l,
               (r0 <- call env pEngine c ;; LOG_IF_FAILED (hr_of r0)) s0
               = (hr_of r, record (EngineEv pEngine c r :: l) s0)
               /\ calls_of l = []).
    { intros c s0. rewrite run_bind.
      set (r := answer env (events s0) pEngine c).
      change (call env pEngine c s0) with (r, record [EngineEv pEngine c r] s0).
      cbn [fst snd]. exists r. unfold LOG_IF_FAILED. destruct (FAILED (hr_of r)).
      - exists [Log (hr_of r)]. rewrite run_bind. cbn. now rewrite record_record.
      - exists []. cbn. auto. }
    destruct (Hlog (InvalidateCursor c1) s) as (r1 & l1 & Hrun1 & Hnone1).
    rewrite run_bind in Hrun1.
    rewrite run_bind, run_bind.
    apply (f_equal snd) in Hrun1. cbn [snd] in Hrun1. rewrite Hrun1.
    rewrite run_bind. unfold gets. cbn [fst snd record _pData]. rewrite Hdouble.
    rewrite Hc2.
    set (s1 := record (EngineEv pEngine (InvalidateCursor c1) r1 :: l1) s).
    destruct (Hlog (InvalidateCursor c2) s1) as (r2 & l2 & Hrun2 & Hnone2).
    rewrite run_bind in Hrun2.
    rewrite run_bind, run_bind.
    apply (f_equal snd) in Hrun2. cbn [snd] in Hrun2. rewrite Hrun2.
    destruct (IH (S k) (record (EngineEv pEngine (InvalidateCursor c2) r2 :: l2) s1)
                Hdouble) as (evs & Hrun & Hcalls).
    rewrite <- Hnext in Hrun. rewrite Hrun. unfold s1. rewrite !record_record.
    eexists. split; [reflexivity|].
    rewrite !calls_of_app. cbn [calls_of app length seq combine flat_map fst snd].
    rewrite ?calls_of_app, Hnone1, Hnone2, Hcalls. cbn [app].
    fold c1. fold c2. reflexivity.
Qed.

(** X6. With a cursor one cell wide, TriggerRedrawCursor for a position
    inside the viewport tells every attached engine, in order, to
    invalidate one and the same cell, the position relative to the
    viewport's origin, and then wakes the paint thread once; it makes no
    other call. For a position outside the viewport it does nothing at
    all: no call, no wake-up. *)
Theorem TriggerRedrawCursor_single_width (pcoord : COORD) (s : Renderer) :
  IsCursorDoubleWidth (_pData s) = false ->
  let view := GetViewport (_pData s) in
  let s' := snd (TriggerRedrawCursor env pcoord s) in
  if IsInBounds env view pcoord
  then exists evs,
         logged_since s s' = evs ++ [ThreadEv NotifyPaint]
         /\ forallb (fun ev => negb (is_thread_event ev)) evs = true
         /\ calls_of evs
            = map (fun pEngine =>
                     (pEngine, InvalidateCursor (ConvertToOrigin env view pcoord)))
                  (_rgpEngines s)
  else s' = s.
Proof.
  intros Hsingle view s'. subst s'. unfold TriggerRedrawCursor.
  rewrite run_bind. unfold gets. cbn [fst snd]. fold view.
  destruct (IsInBounds env view pcoord); [|reflexivity].
  rewrite !run_bind. unfold gets. cbn [fst snd].
  destruct (TriggerRedrawCursor_loop_single (_rgpEngines s)
              (ConvertToOrigin env view pcoord) s Hsingle)
    as (evs & Hrun & Hquiet & Hcalls).
  rewrite Hrun. cbn [fst snd]. exists evs. split; [|now split].
  unfold _NotifyPaintFrame. rewrite run_bind. unfold emit, modify.
  cbn [fst snd]. rewrite record_record. unfold logged_since.
  cbn [set_pThread record events].
  rewrite skipn_app, skipn_all, Nat.sub_diag. reflexivity.
Qed.

(** X7. With a cursor two cells wide, TriggerRedrawCursor for a position
    inside the viewport tells every attached engine to invalidate two
    cells side by side, and the coordinate it has moved right for one
    engine stays moved for the next: the engine numbered k (from 0) is
    told the cells k and k + 1 columns right of the cursor's, in SHORT
    arithmetic. The first engine is told the cursor's own two cells. *)
Theorem TriggerRedrawCursor_double_width_drifts (pcoord : COORD) (s : Renderer) :
  let view := GetViewport (_pData s) in
  let c := ConvertToOrigin env view pcoord in
  IsCursorDoubleWidth (_pData s) = true ->
  IsInBounds env view pcoord = true ->
  -32768 <= X c <= 32767 ->
  calls_of (logged_since s (snd (TriggerRedrawCursor env pcoord s)))
  = flat_map
      (fun ke =>
         [(snd ke, InvalidateCursor
                     {| X := SHORT_of (X c + Z.of_nat (fst ke)); Y := Y c |});
          (snd ke, InvalidateCursor
                     {| X := SHORT_of (X c + Z.of_nat (fst ke) + 1); Y := Y c |})])
      (combine (seq 0 (length (_rgpEngines s))) (_rgpEngines s)).
Proof.
  intros view c Hdouble Hin Hrange. unfold TriggerRedrawCursor.
  rewrite run_bind. unfold gets. cbn [fst snd]. fold view. rewrite Hin.
  rewrite !run_bind. unfold gets. cbn [fst snd]. fold c.
  destruct (TriggerRedrawCursor_loop_double (_rgpEngines s) (X c) (Y c) 0 s Hdouble)
    as (evs & Hrun & Hcalls).
  assert (Hc : {| X := SHORT_of (X c + Z.of_nat 0); Y := Y c |} = c).
  { cbn [Z.of_nat]. rewrite Z.add_0_r, SHORT_of_small by assumption. now destruct c. }
  rewrite Hc in Hrun. rewrite Hrun. cbn [fst snd].
  unfold _NotifyPaintFrame. rewrite run_bind. unfold emit, modify.
  cbn [fst snd]. rewrite record_record. unfold logged_since.
  cbn [set_pThread record events].
  rewrite skipn_app, skipn_all, Nat.sub_diag. cbn [app skipn].
  rewrite calls_of_app, Hcalls. cbn [calls_of]. now rewrite app_nil_r.
Qed.

End CursorTrigger.

(** The cursor is one cell wide and sits at the origin of the viewport;
    two engines are attached. *)
Lemma TriggerRedrawCursor_single_width_witness :
  let s := renderer_of (blankData 3 1 false) [1%nat; 2%nat] in
  let s' := snd (TriggerRedrawCursor agreeable {| X := 0; Y := 0 |} s) in
  exists evs,
    logged_since s s' = evs ++ [ThreadEv NotifyPaint]
    /\ forallb (fun ev => negb (is_thread_event ev)) evs = true
    /\ calls_of evs
       = map (fun pEngine =>
                (pEngine,
                 InvalidateCursor
                   (ConvertToOrigin agreeable (GetViewport (_pData s))
                      {| X := 0; Y := 0 |})))
             (_rgpEngines s).
Proof.
  intros s.
  exact (TriggerRedrawCursor_single_width agreeable {| X := 0; Y := 0 |} s eq_refl).
Defined.

(** The cursor is two cells wide and sits at the origin of the viewport;
    two engines are attached. *)
Lemma TriggerRedrawCursor_double_width_drifts_witness :
  let s := renderer_of (blankData 3 1 true) [1%nat; 2%nat] in
  calls_of (logged_since s (snd (TriggerRedrawCursor agreeable {| X := 0; Y := 0 |} s)))
  = [(1%nat, InvalidateCursor {| X := 0; Y := 0 |});
     (1%nat, InvalidateCursor {| X := 1; Y := 0 |});
     (2%nat, InvalidateCursor {| X := 1; Y := 0 |});
     (2%nat, InvalidateCursor {| X := 2; Y := 0 |})].
Proof.
  intros s.
  apply (TriggerRedrawCursor_double_width_drifts agreeable {| X := 0; Y := 0 |} s);
    [reflexivity | reflexivity | cbn; lia].
Defined.

(** * Painting the selection *)

Lemma flat_map_filter_map {A B} (keep : A -> bool) (f : A -> B) (l : list A) :
  flat_map (fun a => if keep a then [f a] else []) l = map f (filter keep l).
Proof.
  induction l as [|a l IH]; [reflexivity|]. cbn [flat_map filter].
  destruct (keep a); cbn [app map]; now rewrite IH.
Qed.

Lemma LOG_IF_FAILED_run (hr : HRESULT) (s : Renderer) :
  LOG_IF_FAILED hr s = (hr, record (if FAILED hr then [Log hr] else []) s).
Proof.
  unfold LOG_IF_FAILED. destruct (FAILED hr); [reflexivity|].
  now rewrite record_nil.
Qed.

(** A call under LOG_IF_FAILED whose result is not used: the call, and
    the Log of its failure after it. *)
Lemma logged_call_run (env : Environment) (pEngine : IRenderEngine)
    (c : EngineCall) (s : Renderer) :
  let r := answer env (events s) pEngine c in
  (r <- call env pEngine c ;; LOG_IF_FAILED (hr_of r) ;; ret tt) s
  = (tt, record (EngineEv pEngine c r
                   :: (if FAILED (hr_of r) then [Log (hr_of r)] else []))
                s).
Proof.
  intros r. unfold bind at 1.
  change (call env pEngine c s) with (r, record [EngineEv pEngine c r] s).
  cbn iota. unfold bind. rewrite LOG_IF_FAILED_run. cbn [ret].
  now rewrite record_record.
Qed.

Section PaintingTheSelection.

Variable env : Environment.
Variable pEngine : IRenderEngine.

(** The loop of _PaintSelection over the rectangles of the selection. *)
Lemma PaintSelection_loop_logged (dirtyView : Viewport)
    (rectangles : list SMALL_RECT) :
  forall s : Renderer,
    exists evs,
      snd (for_each rectangles
             (fun rect =>
                let (inside, rect) := TrimToViewport env dirtyView rect in
                if inside then
                  r <- call env pEngine (PaintSelection rect) ;;
                  LOG_IF_FAILED (hr_of r) ;; ret tt
                else ret tt)
             s)
      = record evs s
      /\ each_logged pEngine
           (map (fun rect => PaintSelection (snd (TrimToViewport env dirtyView rect)))
                (filter (fun rect => fst (TrimToViewport env dirtyView rect))
                        rectangles))
           evs.
Proof.
  induction rectangles as [|rect rectangles IH]; intros s; cbn [for_each filter map].
  - exists []. rewrite record_nil. split; [reflexivity | constructor].
  - rewrite run_bind.
    destruct (TrimToViewport env dirtyView rect) as [inside trimmed] eqn:Htrim.
    cbn [fst snd]. destruct inside; cbn [map]; rewrite ?Htrim; cbn [snd].
    + rewrite logged_call_run. cbn [fst snd].
      set (r := answer env (events s) pEngine (PaintSelection trimmed)).
      match goal with |- context [record ?l s] =>
        destruct (IH (record l s)) as (evs & Hs & Hlog); exists (l ++ evs) end.
      rewrite Hs, record_record. split; [reflexivity|].
      cbn [app]. now constructor.
    + cbn [ret fst snd]. apply IH.
Qed.

(** X8. _PaintSelection asks the engine for its dirty rectangle and then
    paints every selection rectangle (as _GetSelectionRects gives them)
    that TrimToViewport finds inside the dirty rectangle, trimmed to it, in
    order, and no other: a rectangle outside is skipped. Each PaintSelection
    call that fails is followed in the log by the Log of its failure, a
    call that does not fail is followed by none, and the later rectangles
    are painted either way. When the selection cannot be got, the failure
    is logged after the dirty rectangle was asked for, and nothing is
    painted. Nothing of the Renderer changes but the log. *)
Theorem PaintSelection_paints_what_meets_the_dirty_area (s : Renderer) :
  let r := answer env (events s) pEngine GetDirtyRectInChars in
  let dirtyView := FromInclusive (rect_of r) in
  let s' := snd (_PaintSelection env pEngine s) in
  match fst (_GetSelectionRects env s) with
  | Returns rectangles =>
      exists evs,
        s' = record (EngineEv pEngine GetDirtyRectInChars r :: evs) s
        /\ each_logged pEngine
             (map (fun rect =>
                     PaintSelection (snd (TrimToViewport env dirtyView rect)))
                  (filter (fun rect => fst (TrimToViewport env dirtyView rect))
                          rectangles))
             evs
  | Throws hr =>
      s' = record [EngineEv pEngine GetDirtyRectInChars r; Log hr] s
  end.
Proof.
  intros r dirtyView s'. subst s'. unfold _PaintSelection. rewrite run_bind.
  change (call env pEngine GetDirtyRectInChars s)
    with (r, record [EngineEv pEngine GetDirtyRectInChars r] s).
  cbn [fst snd]. fold dirtyView. rewrite run_bind.
  set (s1 := record [EngineEv pEngine GetDirtyRectInChars r] s).
  rewrite (GetSelectionRects_run env s1).
  rewrite (GetSelectionRects_of_data env s s1) by reflexivity.
  destruct (fst (_GetSelectionRects env s)) as [rectangles|hr].
  - destruct (PaintSelection_loop_logged dirtyView rectangles s1)
      as (evs & Hs & Hlog).
    exists evs. split; [|exact Hlog].
    rewrite Hs. unfold s1. now rewrite record_record.
  - unfold emit, modify. cbn [snd]. unfold s1. now rewrite record_record.
Qed.

End PaintingTheSelection.

(** * Painting text *)

Section TextPainting.

Variable env : Environment.
Variable pEngine : IRenderEngine.

(** What the walk of the wide-glyph helper keeps true of its two arrays:
    they are equally long, cchSegment counts them, it never passes iLine,
    every width is 1 or 2, and the target stays on its line. *)
Lemma DoubleByte_walk_arrays (pwsLine : list WCHAR) (cchLine : Z) :
  forall (it : list CharRowCell) (iLine : Z) (st : DbcsSegment),
    length (pwsSegment st) = length (rgSegmentWidth st) ->
    cchSegment st = Z.of_nat (length (pwsSegment st)) ->
    cchSegment st <= iLine ->
    Forall (fun w => w = 1 \/ w = 2) (rgSegmentWidth st) ->
    let st' := DoubleByte_walk pwsLine cchLine iLine it st in
    length (pwsSegment st') = length (rgSegmentWidth st')
    /\ cchSegment st' = Z.of_nat (length (pwsSegment st'))
    /\ cchSegment st' <= Z.max iLine cchLine
    /\ Forall (fun w => w = 1 \/ w = 2) (rgSegmentWidth st')
    /\ Y (coordTargetAdjustable st') = Y (coordTargetAdjustable st).
Proof.
  induction it as [|cell it IH]; intros iLine st Hlen Hcount Hbound Hwidths st';
    subst st'; cbn [DoubleByte_walk].
  - repeat split; try assumption; lia.
  - destruct (iLine <? cchLine) eqn:Hlt; [|repeat split; try assumption; lia].
    apply Z.ltb_lt in Hlt.
    match goal with |- context [DoubleByte_walk _ _ _ _ ?st1] =>
      set (next := st1) end.
    assert (Hnext : length (pwsSegment next) = length (rgSegmentWidth next)
                    /\ cchSegment next = Z.of_nat (length (pwsSegment next))
                    /\ cchSegment next <= iLine + 1
                    /\ Forall (fun w => w = 1 \/ w = 2) (rgSegmentWidth next)
                    /\ Y (coordTargetAdjustable next) = Y (coordTargetAdjustable st)).
    { subst next.
      destruct (negb (IsTrailing (DbcsAttr cell)));
        [|destruct (iLine =? 0)];
        cbn [pwsSegment rgSegmentWidth cchSegment coordTargetAdjustable Y];
        rewrite ?length_app, ?Forall_app; cbn [length].
      - repeat split; try assumption; try lia.
        destruct (IsLeading (DbcsAttr cell)); auto.
      - repeat split; try assumption; try lia. auto.
      - repeat split; try assumption; lia. }
    destruct Hnext as (Hl & Hc & Hb & Hw & Hy).
    destruct (IH (iLine + 1) next Hl Hc Hb Hw) as (Hl' & Hc' & Hb' & Hw' & Hy').
    repeat split; try assumption; [lia | congruence].
Qed.

(** Within the length the text was promised to have, the walk reads the
    text inside its first cchLine characters only. *)
Lemma DoubleByte_walk_reads (pwsLine : list WCHAR) (cchLine : Z) :
  (Z.to_nat cchLine <= length pwsLine)%nat ->
  forall (it : list CharRowCell) (iLine : Z) (st : DbcsSegment),
    0 <= iLine ->
    Forall (fun g => In g (firstn (Z.to_nat cchLine) pwsLine)) (pwsSegment st) ->
    Forall (fun g => In g (firstn (Z.to_nat cchLine) pwsLine))
           (pwsSegment (DoubleByte_walk pwsLine cchLine iLine it st)).
Proof.
  intros Hfits. induction it as [|cell it IH]; intros iLine st Hpos Hst;
    cbn [DoubleByte_walk]; [assumption|].
  destruct (iLine <? cchLine) eqn:Hlt; [|assumption]. apply Z.ltb_lt in Hlt.
  assert (Hread : In (nth (Z.to_nat iLine) pwsLine 0)
                     (firstn (Z.to_nat cchLine) pwsLine)).
  { assert (Hi : (Z.to_nat iLine < Z.to_nat cchLine)%nat) by lia.
    pose proof (nth_firstn (Z.to_nat cchLine) pwsLine (Z.to_nat iLine) 0) as Hnth.
    apply Nat.ltb_lt in Hi as Hb. rewrite Hb in Hnth. rewrite <- Hnth.
    apply nth_In. rewrite firstn_length_le by assumption. exact Hi. }
  apply IH; [lia|].
  destruct (negb (IsTrailing (DbcsAttr cell))); [|destruct (iLine =? 0)];
    cbn [pwsSegment]; try assumption;
    apply Forall_app; (split; [assumption | now constructor]).
Qed.

(** X9. The wide-glyph helper, asked for a length cchLine of a text that
    has at least that many characters (its _In_reads_(cchLine) contract),
    does one of two things, as its two allocations of cchLine elements
    turn out. When both succeed it makes exactly one call, PaintBufferLine
    into its engine: with as many glyphs as widths, that number as the
    count, a count no larger than the length allocated (neither array is
    overrun), every glyph one of the first cchLine characters of the text,
    every width 1 or 2, the target on the line asked for and the wrap flag
    as given; and it gives back the failure of that call, or S_OK. When the
    first or the second allocation fails it makes no call and gives
    E_OUTOFMEMORY. Nothing of the Renderer changes but the log. *)
Theorem DoubleByteHelper_arrays_fit (pwsLine : list WCHAR) (it : list CharRowCell)
    (cchLine : Z) (coordTarget : COORD) (lineWrapped : bool) (s : Renderer) :
  0 <= cchLine ->
  (Z.to_nat cchLine <= length pwsLine)%nat ->
  let run := _PaintBufferOutputDoubleByteHelper env pEngine pwsLine it cchLine
               coordTarget lineWrapped s in
  let first := allocates env (events s) cchLine in
  let second := allocates env (events s ++ [Alloc cchLine true]) cchLine in
  if first && second then
    exists text widths target trimLeft r,
      snd run
      = record [Alloc cchLine true; Alloc cchLine true;
                EngineEv pEngine
                  (PaintBufferLine text widths (Z.of_nat (length text)) target
                     trimLeft lineWrapped) r] s
      /\ fst run = (if FAILED (hr_of r) then hr_of r else S_OK)
      /\ length text = length widths
      /\ Z.of_nat (length text) <= cchLine
      /\ Forall (fun g => In g (firstn (Z.to_nat cchLine) pwsLine)) text
      /\ Forall (fun w => w = 1 \/ w = 2) widths
      /\ Y target = Y coordTarget
  else
    fst run = E_OUTOFMEMORY
    /\ snd run
       = record (if first then [Alloc cchLine true; Alloc cchLine false]
                 else [Alloc cchLine false]) s.
Proof.
  intros Hsize Hfits run first second. subst run first second.
  unfold _PaintBufferOutputDoubleByteHelper, bind, make_unique_nothrow.
  destruct (allocates env (events s) cchLine); cbn [negb andb];
    [|now cbn [ret fst snd]].
  cbn [record events].
  destruct (allocates env (events s ++ [Alloc cchLine true]) cchLine); cbn [negb];
    [|cbn [ret fst snd]; now rewrite record_record].
  set (start := {| pwsSegment := []; rgSegmentWidth := []; cchSegment := 0;
                   coordTargetAdjustable := coordTarget; fTrimLeft := false |}).
  set (st := DoubleByte_walk pwsLine cchLine 0 it start).
  destruct (DoubleByte_walk_arrays pwsLine cchLine it 0 start)
    as (Hl & Hc & Hb & Hw & Hy);
    [reflexivity | reflexivity | cbn; lia | constructor |].
  pose proof (DoubleByte_walk_reads pwsLine cchLine Hfits it 0 start
                (Z.le_refl 0) (Forall_nil _)) as Hreads.
  fold st in Hl, Hc, Hb, Hw, Hy, Hreads. cbn [coordTargetAdjustable start] in Hy.
  replace (Z.min (cchSegment st) cchLine) with (Z.of_nat (length (pwsSegment st)))
    by lia.
  unfold call.
  set (call_made := PaintBufferLine _ _ _ _ _ _).
  set (r := answer env _ pEngine call_made).
  exists (pwsSegment st), (rgSegmentWidth st), (coordTargetAdjustable st),
         (fTrimLeft st), r.
  fold call_made. repeat split; try assumption; try lia.
  - destruct (FAILED (hr_of r)); cbn [ret snd]; now rewrite !record_record.
  - now destruct (FAILED (hr_of r)).
Qed.

(** ** The screen line a row is drawn on *)

Lemma rows_DoubleByteHelper (ok : Z -> bool) (pwsLine : list WCHAR)
    (it : list CharRowCell) (cchLine : Z) (coordTarget : COORD) (lineWrapped : bool) :
  ok (Y coordTarget) = true ->
  logs (target_rows ok)
       (_PaintBufferOutputDoubleByteHelper env pEngine pwsLine it cchLine
          coordTarget lineWrapped).
Proof.
  intros Hok. unfold _PaintBufferOutputDoubleByteHelper. repeat logs_step.
  cbn [target_rows].
  destruct (DoubleByte_walk_arrays pwsLine cchLine it 0
              {| pwsSegment := []; rgSegmentWidth := []; cchSegment := 0;
                 coordTargetAdjustable := coordTarget; fTrimLeft := false |})
    as (_ & _ & _ & _ & Hy);
    [reflexivity | reflexivity | cbn; lia | constructor |].
  rewrite Hy. exact Hok.
Qed.

Lemma rows_GridLineHelper (ok : Z -> bool) (a : TextAttribute) (cchLine : Z)
    (coordTarget : COORD) :
  ok (Y coordTarget) = true ->
  logs (target_rows ok)
       (_PaintBufferOutputGridLineHelper env pEngine a cchLine coordTarget).
Proof.
  intros Hok. unfold _PaintBufferOutputGridLineHelper. repeat logs_step.
  exact Hok.
Qed.

Lemma rows_ColorHelper_loop (ok : Z -> bool) (Row : ROW) (cchLine iFirstAttr : Z)
    (lineWrapped : bool) (fuel : nat) :
  forall st : ColorSegment,
    ok (Y (coordOffset st)) = true ->
    logs (target_rows ok)
         (ColorHelper_loop env fuel pEngine Row cchLine iFirstAttr lineWrapped st).
Proof.
  induction fuel as [|fuel IH]; intros st Hok; cbn [ColorHelper_loop].
  - apply logs_ret.
  - destruct (GetAttrByColumn _ _) as [attr cAttrApplies].
    apply logs_bind; [unfold _UpdateDrawingBrushes; repeat logs_step | intros ?].
    repeat logs_step;
      try (now apply rows_DoubleByteHelper); try (now apply rows_GridLineHelper);
      apply IH; exact Hok.
Qed.

Lemma rows_RasterFontHelper (ok : Z -> bool) (Row : ROW) (pwsLine : list WCHAR)
    (it : list CharRowCell) (cchLine iFirstAttr : Z) (coordTarget : COORD)
    (lineWrapped : bool) :
  ok (Y coordTarget) = true ->
  logs (target_rows ok)
       (_PaintBufferOutputRasterFontHelper env pEngine Row pwsLine it cchLine
          iFirstAttr coordTarget lineWrapped).
Proof.
  intros Hok.
  unfold _PaintBufferOutputRasterFontHelper, _PaintBufferOutputColorHelper.
  repeat logs_step; now apply rows_ColorHelper_loop.
Qed.

Lemma rows_PaintBufferOutput_rows (ok : Z -> bool) (view : Viewport)
    (textBuffer : TextBuffer) (viewDirty : Viewport) (rows : list Z) :
  (forall iRow, In iRow rows -> ok (SHORT_of (iRow - vTop view)) = true) ->
  logs (target_rows ok)
       (_PaintBufferOutput_rows env pEngine view textBuffer viewDirty rows).
Proof.
  induction rows as [|iRow rows IH]; intros Hok; cbn [_PaintBufferOutput_rows].
  - apply logs_ret.
  - assert (Hlater : logs (target_rows ok)
                       (_PaintBufferOutput_rows env pEngine view textBuffer
                          viewDirty rows)).
    { apply IH. intros r Hr. apply Hok. now right. }
    repeat logs_step; try exact Hlater;
      first [apply rows_RasterFontHelper; cbn [Y] | cbn [target_rows Y]];
      apply Hok; now left.
Qed.

Lemma In_rows_through (top bottom iRow : Z) :
  In iRow (rows_through top bottom) -> top <= iRow <= bottom.
Proof.
  unfold rows_through. intros H. apply in_map_iff in H as (k & <- & Hk).
  apply in_seq in Hk. lia.
Qed.

(** The rows of a buffer paint up to a row whose text cannot be read. *)
Lemma rows_until_unreadable (view : Viewport) (textBuffer : TextBuffer)
    (viewDirty : Viewport) (bad : Z) (hr : HRESULT) (before : list Z) :
  size_t_of (vLeft viewDirty) < size_t_of (RightExclusive viewDirty) ->
  GetTextRaw (GetCharRow (GetRowByOffset textBuffer bad)) = Throws hr ->
  logs (target_rows
          (fun y => existsb (fun iRow => SHORT_of (iRow - vTop view) =? y) before))
       (_PaintBufferOutput_rows env pEngine view textBuffer viewDirty
          (before ++ [bad])).
Proof.
  intros Hsome Hbad. apply Z.gtb_lt in Hsome.
  induction before as [|iRow before IH]; cbn [app _PaintBufferOutput_rows];
    rewrite Hsome.
  - rewrite Hbad. now apply logs_emit.
  - destruct (GetTextRaw (GetCharRow (GetRowByOffset textBuffer iRow)));
      [|now apply logs_emit].
    apply logs_bind; [|intros _].
    + apply rows_RasterFontHelper. cbn [Y existsb]. now rewrite Z.eqb_refl.
    + apply logs_bind; [|intros _].
      * repeat logs_step. cbn [target_rows Y existsb]. now rewrite Z.eqb_refl.
      * revert IH. apply logs_weaken. intros ev.
        destruct ev as [e c ?| | | | |]; try reflexivity.
        destruct c; try reflexivity; cbn [target_rows existsb];
          intros ->; apply orb_true_r.
Qed.

Lemma ends_logging_bind {A B} (P : Event -> bool) (Q : HRESULT -> Prop)
    (m : M A) (k : A -> M B) :
  logs P m -> (forall a, ends_logging Q (k a)) -> ends_logging Q (bind m k).
Proof.
  intros Hm Hk s. rewrite run_bind. destruct (Hm s) as (evs & Hs & _).
  rewrite Hs. destruct (Hk (fst (m s)) (record evs s)) as (evs' & hr & Hs' & HQ).
  exists (evs ++ evs'), hr. rewrite Hs', record_record, app_assoc. now split.
Qed.

(** The last thing these rows log is the failure to read a row's text:
    that of [bad], or of a row before it that cannot be read either. *)
Lemma rows_end_in_the_failure (view : Viewport) (textBuffer : TextBuffer)
    (viewDirty : Viewport) (bad : Z) (hr : HRESULT) (before : list Z) :
  size_t_of (vLeft viewDirty) < size_t_of (RightExclusive viewDirty) ->
  GetTextRaw (GetCharRow (GetRowByOffset textBuffer bad)) = Throws hr ->
  ends_logging
    (fun hr' =>
       hr' = hr
       \/ exists iRow, In iRow before
                       /\ GetTextRaw (GetCharRow (GetRowByOffset textBuffer iRow))
                          = Throws hr')
    (_PaintBufferOutput_rows env pEngine view textBuffer viewDirty
       (before ++ [bad])).
Proof.
  intros Hsome Hbad. apply Z.gtb_lt in Hsome.
  induction before as [|iRow before IH]; cbn [app _PaintBufferOutput_rows];
    rewrite Hsome.
  - rewrite Hbad. intros s. exists [], hr. split; [reflexivity | now left].
  - destruct (GetTextRaw (GetCharRow (GetRowByOffset textBuffer iRow)))
      as [rowText|hr0] eqn:Hrow.
    + apply (ends_logging_bind (target_rows (fun _ => true)));
        [now apply rows_RasterFontHelper | intros _].
      apply (ends_logging_bind (target_rows (fun _ => true)));
        [repeat logs_step; reflexivity | intros _].
      intros s. destruct (IH s) as (evs & hr' & Hs & [Hhr | (r & Hin & Hr)]);
        exists evs, hr'; (split; [assumption|]);
        [now left | right; exists r; split; [now right | assumption]].
    + intros s. exists [], hr0. split; [reflexivity|].
      right. exists iRow. split; [now left | assumption].
Qed.

(** X10. The row loop of _PaintBufferOutput ends at the first row whose
    text cannot be read. With columns to draw, and the text of row [bad]
    throwing when it is read, what the loop does over the rows [before],
    [bad] and [after] is what it does over [before] and [bad] alone: the
    rows after it are neither read nor drawn, every text and grid line
    draw made lands on the screen line of one of the rows before it, and
    the last event of the log is the Log of the failure to read: that of
    [bad], or, when a row before it cannot be read either, that of such a
    row. *)
Theorem PaintBufferOutput_ends_at_an_unreadable_row (view : Viewport)
    (textBuffer : TextBuffer) (viewDirty : Viewport) (before after : list Z)
    (bad : Z) (hr : HRESULT) (s : Renderer) :
  size_t_of (vLeft viewDirty) < size_t_of (RightExclusive viewDirty) ->
  GetTextRaw (GetCharRow (GetRowByOffset textBuffer bad)) = Throws hr ->
  let s' := snd (_PaintBufferOutput_rows env pEngine view textBuffer viewDirty
                   (before ++ bad :: after) s) in
  _PaintBufferOutput_rows env pEngine view textBuffer viewDirty
    (before ++ bad :: after) s
  = _PaintBufferOutput_rows env pEngine view textBuffer viewDirty
      (before ++ [bad]) s
  /\ forallb
       (target_rows
          (fun y => existsb (fun iRow => SHORT_of (iRow - vTop view) =? y) before))
       (logged_since s s')
     = true
  /\ exists evs hr',
       s' = record (evs ++ [Log hr']) s
       /\ (hr' = hr
           \/ exists iRow,
                In iRow before
                /\ GetTextRaw (GetCharRow (GetRowByOffset textBuffer iRow))
                   = Throws hr').
Proof.
  intros Hsome Hbad s'. subst s'.
  assert (Hsame : forall s0,
             _PaintBufferOutput_rows env pEngine view textBuffer viewDirty
               (before ++ bad :: after) s0
             = _PaintBufferOutput_rows env pEngine view textBuffer viewDirty
                 (before ++ [bad]) s0).
  { pose proof Hsome as Hgt. apply Z.gtb_lt in Hgt.
    induction before as [|iRow before IH]; intros s0;
      cbn [app _PaintBufferOutput_rows]; rewrite Hgt.
    - now rewrite Hbad.
    - destruct (GetTextRaw (GetCharRow (GetRowByOffset textBuffer iRow)));
        [|reflexivity].
      apply bind_ext. intros _ s1. apply bind_ext. intros _ s2. apply IH. }
  split; [apply Hsame|]. rewrite Hsame. split.
  - destruct (rows_until_unreadable view textBuffer viewDirty bad hr before
                Hsome Hbad s) as (evs & Hs & HP).
    now rewrite Hs, logged_since_record.
  - exact (rows_end_in_the_failure view textBuffer viewDirty bad hr before
             Hsome Hbad s).
Qed.

(** X11. With a viewport no taller than a SHORT can count, every text
    draw and every grid line draw of _PaintBufferOutput lands on a screen
    line of the viewport, between line 0 and the viewport's last line,
    whatever dirty rectangle the engine gave and whatever size the buffer
    has: the two trims of the dirty rectangle leave no row outside the
    viewport. *)
Theorem PaintBufferOutput_draws_on_the_viewport_lines (s : Renderer) :
  let view := GetViewport (_pData s) in
  BottomInclusive view - vTop view <= 32767 ->
  forallb
    (target_rows (fun y => (0 <=? y) && (y <=? BottomInclusive view - vTop view)))
    (logged_since s (snd (_PaintBufferOutput env pEngine s)))
  = true.
Proof.
  intros view Hheight. unfold _PaintBufferOutput. rewrite !run_bind.
  unfold gets. cbn [fst snd]. fold view.
  set (r := answer env (events s) pEngine GetDirtyRectInChars).
  change (call env pEngine GetDirtyRectInChars s)
    with (r, record [EngineEv pEngine GetDirtyRectInChars r] s).
  cbn [fst snd].
  match goal with
  | |- context [_PaintBufferOutput_rows env pEngine view ?tb ?vd ?rows ?s1] =>
      destruct (rows_PaintBufferOutput_rows
                  (fun y => (0 <=? y) && (y <=? BottomInclusive view - vTop view))
                  view tb vd rows) with (s := s1) as (evs & Hs & HP)
  end.
  - intros iRow Hin. apply In_rows_through in Hin.
    unfold vTop, BottomInclusive in Hin. cbn [ToInclusive Top Bottom] in Hin.
    fold (vTop view) (BottomInclusive view) in Hin.
    rewrite SHORT_of_small by lia.
    apply andb_true_iff. split; apply Z.leb_le; lia.
  - rewrite Hs, record_record, logged_since_record by reflexivity.
    cbn [app forallb target_rows]. exact HP.
Qed.

End TextPainting.

(** A leading and trailing pair asked for in full; both arrays are
    allocated. *)
Lemma DoubleByteHelper_arrays_fit_witness :
  let s := renderer_of (blankData 6 1 false) [7%nat] in
  let pwsLine := [20013; 20013] in
  let run := _PaintBufferOutputDoubleByteHelper agreeable 7%nat pwsLine
               [{| Char := 20013; DbcsAttr := Leading |};
                {| Char := 20013; DbcsAttr := Trailing |}]
               2 {| X := 4; Y := 0 |} false s in
  exists text widths target trimLeft r,
    snd run
    = record [Alloc 2 true; Alloc 2 true;
              EngineEv 7%nat
                (PaintBufferLine text widths (Z.of_nat (length text)) target
                   trimLeft false) r] s
    /\ fst run = (if FAILED (hr_of r) then hr_of r else S_OK)
    /\ length text = length widths
    /\ Z.of_nat (length text) <= 2
    /\ Forall (fun g => In g (firstn (Z.to_nat 2) pwsLine)) text
    /\ Forall (fun w => w = 1 \/ w = 2) widths
    /\ Y target = Y {| X := 4; Y := 0 |}.
Proof.
  intros s pwsLine.
  refine (DoubleByteHelper_arrays_fit agreeable 7%nat pwsLine
            [{| Char := 20013; DbcsAttr := Leading |};
             {| Char := 20013; DbcsAttr := Trailing |}]
            2 {| X := 4; Y := 0 |} false s _ _).
  - lia.
  - cbn. lia.
Defined.

(** Three rows are dirty and the middle one cannot be read. *)
Lemma PaintBufferOutput_ends_at_an_unreadable_row_witness :
  let view := FromInclusive {| Left := 0; Top := 0; Right := 1; Bottom := 2 |} in
  let s := renderer_of (blankData 2 3 false) [7%nat] in
  let s' := snd (_PaintBufferOutput_rows agreeable 7%nat view holedBuffer view
                   ([0] ++ 1 :: [2]) s) in
  _PaintBufferOutput_rows agreeable 7%nat view holedBuffer view ([0] ++ 1 :: [2]) s
  = _PaintBufferOutput_rows agreeable 7%nat view holedBuffer view ([0] ++ [1]) s
  /\ forallb
       (target_rows
          (fun y => existsb (fun iRow => SHORT_of (iRow - vTop view) =? y) [0]))
       (logged_since s s')
     = true
  /\ exists evs hr',
       s' = record (evs ++ [Log hr']) s
       /\ (hr' = E_OUTOFMEMORY
           \/ exists iRow,
                In iRow [0]
                /\ GetTextRaw (GetCharRow (GetRowByOffset holedBuffer iRow))
                   = Throws hr').
Proof.
  intros view s.
  apply (PaintBufferOutput_ends_at_an_unreadable_row agreeable 7%nat view
           holedBuffer view [0] [2] 1 E_OUTOFMEMORY s).
  - cbn. lia.
  - reflexivity.
Defined.

(** A viewport of two lines over a buffer of two rows. *)
Lemma PaintBufferOutput_draws_on_the_viewport_lines_witness :
  let s := renderer_of (blankData 2 2 false) [7%nat] in
  let view := GetViewport (_pData s) in
  forallb
    (target_rows (fun y => (0 <=? y) && (y <=? BottomInclusive view - vTop view)))
    (logged_since s (snd (_PaintBufferOutput agreeable 7%nat s)))
  = true.
Proof.
  intros s.
  apply (PaintBufferOutput_draws_on_the_viewport_lines agreeable 7%nat s).
  cbn. lia.
Defined.

(** ** Grid lines *)

Section Decorations.

Variable env : Environment.
Variable pEngine : IRenderEngine.
Variable pData : IRenderData.

Hypothesis Hnot : IsGridLineDrawingAllowed pData = false.

Let plain_draw := fun ev : Event => negb (is_decoration ev).

Lemma logs_for_of_logs {A} (P : Event -> bool) (m : M A) :
  logs P m -> logs_for pData P m.
Proof. intros Hm s _. apply Hm. Qed.

Lemma logs_for_bind {A B} (P : Event -> bool) (m : M A) (k : A -> M B) :
  logs_for pData P m -> (forall a, logs_for pData P (k a)) ->
  logs_for pData P (bind m k).
Proof.
  intros Hm Hk s Hs. rewrite run_bind. destruct (Hm s Hs) as (evs & Hrun & HP).
  rewrite Hrun. destruct (Hk (fst (m s)) (record evs s) Hs) as (evs' & Hrun' & HP').
  exists (evs ++ evs'). rewrite Hrun', record_record. split; [reflexivity|].
  now rewrite forallb_app, HP, HP'.
Qed.

Lemma logs_for_gets_pData {A} (P : Event -> bool) (k : IRenderData -> M A) :
  logs_for pData P (k pData) -> logs_for pData P (bind (gets _pData) k).
Proof.
  intros Hk s Hs. rewrite run_bind. unfold gets. cbn [fst snd]. rewrite Hs.
  now apply Hk.
Qed.

Lemma undecorated_ColorHelper_loop (Row : ROW) (cchLine iFirstAttr : Z)
    (lineWrapped : bool) (fuel : nat) :
  forall st : ColorSegment,
    logs_for pData plain_draw
      (ColorHelper_loop env fuel pEngine Row cchLine iFirstAttr lineWrapped st).
Proof.
  induction fuel as [|fuel IH]; intros st; cbn [ColorHelper_loop].
  - apply logs_for_of_logs, logs_ret.
  - destruct (GetAttrByColumn _ _) as [attr cAttrApplies].
    apply logs_for_bind;
      [apply logs_for_of_logs; unfold _UpdateDrawingBrushes; repeat logs_step
      | intros ?].
    apply logs_for_bind; [apply logs_for_of_logs; repeat logs_step | intros ?].
    destruct (_ <=? 0); [apply logs_for_of_logs, logs_ret|].
    apply logs_for_bind;
      [apply logs_for_of_logs; unfold _PaintBufferOutputDoubleByteHelper;
       repeat logs_step
      | intros ?].
    apply logs_for_bind; [apply logs_for_of_logs; repeat logs_step | intros ?].
    apply logs_for_gets_pData. rewrite Hnot.
    apply logs_for_bind; [apply logs_for_of_logs, logs_ret | intros ?].
    destruct (_ && _); [apply IH | apply logs_for_of_logs, logs_ret].
Qed.

Lemma undecorated_RasterFontHelper (Row : ROW) (pwsLine : list WCHAR)
    (it : list CharRowCell) (cchLine iFirstAttr : Z) (coordTarget : COORD)
    (lineWrapped : bool) :
  logs_for pData plain_draw
    (_PaintBufferOutputRasterFontHelper env pEngine Row pwsLine it cchLine
       iFirstAttr coordTarget lineWrapped).
Proof.
  unfold _PaintBufferOutputRasterFontHelper, _PaintBufferOutputColorHelper.
  apply logs_for_bind; [apply logs_for_of_logs, logs_gets | intros pData0].
  apply logs_for_bind; [apply logs_for_of_logs; repeat logs_step | intros ?].
  apply undecorated_ColorHelper_loop.
Qed.

Lemma logs_for_weaken {A} (P Q : Event -> bool) (m : M A) :
  (forall ev, P ev = true -> Q ev = true) ->
  logs_for pData P m -> logs_for pData Q m.
Proof.
  intros HPQ Hm s Hs. destruct (Hm s Hs) as (evs & Hrun & HP).
  exists evs. split; [assumption|]. now apply (forallb_weaken P Q).
Qed.

(** The grid lines of the buffer paint are the frames of the debug
    switch. *)
Lemma undecorated_PaintBufferOutput :
  logs_for pData
    (fun ev => negb (is_decoration ev) || (_fDebug env && debug_frame ev))
    (_PaintBufferOutput env pEngine).
Proof.
  unfold _PaintBufferOutput.
  apply logs_for_bind; [apply logs_for_of_logs, logs_gets | intros pData0].
  apply logs_for_bind; [apply logs_for_of_logs; repeat logs_step | intros r].
  match goal with |- logs_for _ _ (_PaintBufferOutput_rows _ _ ?v ?tb ?vd ?rows) =>
    generalize rows as l; generalize vd as viewDirty end.
  intros viewDirty l. induction l as [|iRow l IH]; cbn [_PaintBufferOutput_rows].
  - apply logs_for_of_logs, logs_ret.
  - destruct (_ >? _); [|exact IH].
    destruct (GetTextRaw _); [|apply logs_for_of_logs; now apply logs_emit].
    apply logs_for_bind; [|intros _].
    + apply (logs_for_weaken plain_draw); [|apply undecorated_RasterFontHelper].
      intros ev Hev. unfold plain_draw in Hev. now rewrite Hev.
    + apply logs_for_bind; [|intros _; exact IH].
      apply logs_for_of_logs.
      destruct (_fDebug env) eqn:Hdebug; [|apply logs_ret].
      destruct (_ && _); [|apply logs_ret].
      repeat logs_step.
Qed.

Lemma undecorated_PaintIme (AreaInfo : ConversionAreaInfo) (textBuffer : TextBuffer) :
  logs_for pData plain_draw (_PaintIme env pEngine AreaInfo textBuffer).
Proof.
  unfold _PaintIme. destruct (negb (IsHidden AreaInfo));
    [|apply logs_for_of_logs, logs_ret].
  apply logs_for_bind; [apply logs_for_of_logs; repeat logs_step | intros r].
  destruct (TrimToViewport env _ _) as [inside srDirty].
  destruct inside; [|apply logs_for_of_logs, logs_ret].
  match goal with |- logs_for _ _ (_PaintIme_rows _ _ _ _ ?vd ?rows) =>
    generalize rows as l; generalize vd as viewDirty end.
  intros viewDirty l. induction l as [|iRow l IH]; cbn [_PaintIme_rows].
  - apply logs_for_of_logs, logs_ret.
  - destruct (GetTextRaw _); [|apply logs_for_of_logs; now apply logs_emit].
    apply logs_for_bind; [apply undecorated_RasterFontHelper | intros _; exact IH].
Qed.

Lemma undecorated_PaintImeCompositionString :
  logs_for pData plain_draw (_PaintImeCompositionString env pEngine).
Proof.
  unfold _PaintImeCompositionString.
  apply logs_for_bind; [apply logs_for_of_logs, logs_gets | intros pData0].
  generalize 0%nat as n. generalize (ConvAreaCompStr pData0) as areas.
  induction areas as [|area areas IH]; intros n;
    cbn [_PaintImeCompositionString_from].
  - apply logs_for_of_logs, logs_ret.
  - apply logs_for_bind; [apply logs_for_of_logs, logs_gets | intros pData1].
    apply logs_for_bind; [|intros _; apply IH].
    destruct (GetImeCompositionStringBuffer pData1 n);
      [apply undecorated_PaintIme | apply logs_for_of_logs; now apply logs_emit].
Qed.

End Decorations.

Section TextWithoutGridLines.

Variable env : Environment.
Variable pEngine : IRenderEngine.

(** X12. While the content provider does not allow grid lines, painting
    the text draws none of the lines the cells ask for, whatever their
    line attributes: _PaintImeCompositionString makes no
    PaintBufferGridLines call at all, and the only such calls of
    _PaintBufferOutput are the frames of its debug switch, which it draws
    without asking whether grid lines are allowed: the right and the
    bottom line, one column long, in RGB(0x99, 0x77, 0x31). With _fDebug
    off, or in a build without DBG, _PaintBufferOutput makes none
    either. *)
Theorem no_grid_lines_unless_allowed (s : Renderer) :
  IsGridLineDrawingAllowed (_pData s) = false ->
  forallb (fun ev => negb (is_decoration ev) || (_fDebug env && debug_frame ev))
          (logged_since s (snd (_PaintBufferOutput env pEngine s))) = true
  /\ forallb (fun ev => negb (is_decoration ev))
             (logged_since s (snd (_PaintImeCompositionString env pEngine s))) = true.
Proof.
  intros Hnot. split.
  - destruct (undecorated_PaintBufferOutput env pEngine (_pData s) Hnot s eq_refl)
      as (evs & Hs & HP).
    now rewrite Hs, logged_since_record.
  - destruct (undecorated_PaintImeCompositionString env pEngine (_pData s) Hnot s
                eq_refl) as (evs & Hs & HP).
    now rewrite Hs, logged_since_record.
Qed.

(** The loop over the conversion areas when every area is hidden. *)
Lemma hidden_areas_make_no_call (areas : list ConversionAreaInfo) :
  forallb IsHidden areas = true ->
  forall i : nat, logs no_call (_PaintImeCompositionString_from env pEngine i areas).
Proof.
  induction areas as [|area areas IH]; intros Hhidden i;
    cbn [_PaintImeCompositionString_from].
  - apply logs_ret.
  - cbn [forallb] in Hhidden. apply andb_prop in Hhidden as [Harea Hlater].
    apply logs_bind; [apply logs_gets | intros pData].
    apply logs_bind; [|intros _; now apply IH].
    destruct (GetImeCompositionStringBuffer pData i); [|now apply logs_emit].
    unfold _PaintIme. rewrite Harea. apply logs_ret.
Qed.

(** X13. With every conversion area hidden, _PaintImeCompositionString
    makes no call into the engine, not even for its dirty rectangle,
    however many areas there are; all it may log is the failure to get an
    area's buffer. *)
Theorem hidden_IME_areas_are_not_painted (s : Renderer) :
  forallb IsHidden (ConvAreaCompStr (_pData s)) = true ->
  forallb no_call (logged_since s (snd (_PaintImeCompositionString env pEngine s)))
  = true.
Proof.
  intros Hhidden. unfold _PaintImeCompositionString. rewrite run_bind.
  unfold gets. cbn [fst snd].
  destruct (hidden_areas_make_no_call _ Hhidden 0%nat s) as (evs & Hs & HP).
  now rewrite Hs, logged_since_record.
Qed.

End TextWithoutGridLines.

(** Two wrapped rows, grid lines not allowed, painted with the debug
    switch set: the one grid line call of each row is its debug frame.
    Painted with the switch off, the same rows get none. *)
Lemma no_grid_lines_unless_allowed_witness :
  let s := renderer_of (wrappedData 2) [7%nat] in
  let frames := fun env : Environment =>
    filter is_decoration (logged_since s (snd (_PaintBufferOutput env 7%nat s))) in
  (forallb (fun ev => negb (is_decoration ev) || (_fDebug debugging && debug_frame ev))
           (logged_since s (snd (_PaintBufferOutput debugging 7%nat s))) = true
   /\ forallb (fun ev => negb (is_decoration ev))
              (logged_since s (snd (_PaintImeCompositionString debugging 7%nat s)))
      = true)
  /\ length (frames debugging) = 2%nat
  /\ frames redrawing = [].
Proof.
  intros s frames. split; [|split; reflexivity].
  apply (no_grid_lines_unless_allowed debugging 7%nat s). reflexivity.
Defined.

(** Two conversion areas, both hidden. *)
Lemma hidden_IME_areas_are_not_painted_witness :
  let s := renderer_of (dataWithAreas 2 1 [areaAtOrigin true; areaAtOrigin true])
             [7%nat] in
  forallb no_call
          (logged_since s (snd (_PaintImeCompositionString agreeable 7%nat s)))
  = true.
Proof.
  intros s. apply (hidden_IME_areas_are_not_painted agreeable 7%nat s). reflexivity.
Defined.

(** * The console lock over many frames *)

Section LockDiscipline.

Variable env : Environment.

Let quiet := fun ev : Event => negb (is_thread_event ev).

Lemma frame_log_locks (pEngine : IRenderEngine) (fl : list Event) :
  frame_log pEngine fl ->
  filter is_lock_operation fl = [LockConsole; UnlockConsole]
  /\ forallb quiet fl = true.
Proof.
  intros [check r paints tail Hc Hp Ht].
  assert (Hcl : filter is_lock_operation check = []).
  { apply (forallb_filter_none scroll_checking); [|assumption].
    intros [e c ?| | | | |]; cbn; try discriminate; reflexivity. }
  assert (Hpl : filter is_lock_operation paints = []).
  { apply (forallb_filter_none (painting pEngine)); [|assumption].
    intros [e c ?| | | | |]; cbn; try discriminate; reflexivity. }
  assert (Hcq : forallb quiet check = true).
  { revert Hc. apply forallb_weaken.
    intros [e c ?| | | | |]; cbn; try discriminate; reflexivity. }
  assert (Hpq : forallb quiet paints = true).
  { revert Hp. apply forallb_weaken.
    intros [e c ?| | | | |]; cbn; try discriminate; reflexivity. }
  split.
  - cbn [filter is_lock_operation]. rewrite filter_app, Hcl.
    cbn [app filter is_lock_operation]. rewrite filter_app, Hpl.
    cbn [app filter is_lock_operation].
    destruct Ht as [->|[r' ->]]; reflexivity.
  - cbn [forallb]. rewrite forallb_app, Hcq. cbn [forallb].
    rewrite forallb_app, Hpq. cbn [forallb].
    destruct Ht as [->|[r' ->]]; reflexivity.
Qed.

Lemma logged_frame_locks (pEngine : IRenderEngine) (evs : list Event) :
  logged_frame pEngine evs ->
  filter is_lock_operation evs = [LockConsole; UnlockConsole]
  /\ forallb quiet evs = true.
Proof.
  intros (fl & Hfl & Hevs). destruct (frame_log_locks pEngine fl Hfl) as [Hl Hq].
  destruct Hevs as [->|(hr & _ & ->)]; [now split|].
  rewrite filter_app, forallb_app, Hl, Hq. now split.
Qed.

Lemma frames_locks (engines : list IRenderEngine) (frames : list (list Event)) :
  Forall2 logged_frame engines frames ->
  filter is_lock_operation (concat frames)
  = flat_map (fun _ => [LockConsole; UnlockConsole]) engines
  /\ forallb quiet (concat frames) = true.
Proof.
  induction 1 as [|pEngine frame engines frames Hframe _ IH]; [now split|].
  destruct IH as [Hl Hq]. destruct (logged_frame_locks _ _ Hframe) as [Hl0 Hq0].
  cbn [concat flat_map]. rewrite filter_app, forallb_app, Hl0, Hq0, Hl, Hq.
  now split.
Qed.

Lemma PaintFrame_loop_run (engines : list IRenderEngine) (s : Renderer) :
  exists frames v,
    snd (for_each engines
           (fun pEngine =>
              hr <- _PaintFrameForEngine env pEngine ;; LOG_IF_FAILED hr ;; ret tt)
           s)
    = record (concat frames) (set_srViewportPrevious v s)
    /\ Forall2 logged_frame engines frames.
Proof.
  revert s. induction engines as [|pEngine later IH]; intros s; cbn [for_each].
  - exists [], (_srViewportPrevious s).
    rewrite set_srViewportPrevious_same. cbn [concat]. rewrite record_nil.
    split; [reflexivity | constructor].
  - rewrite run_bind.
    destruct (logged_frame_run env pEngine s) as (evs & Hs & Hframe). rewrite Hs.
    destruct (IH (record evs (set_srViewportPrevious
                                (ToInclusive (GetViewport (_pData s))) s)))
      as (frames & v & Hs' & Hframes).
    rewrite Hs'. exists (evs :: frames), v. split; [|now constructor].
    cbn [concat]. now rewrite set_srViewportPrevious_record, record_record.
Qed.

(** X14. PaintFrame takes the console lock and lets it go once for every
    attached engine, in turn: in what it logs, the lock operations are one
    LockConsole and UnlockConsole pair per engine, never nested, so the
    lock is not held when PaintFrame returns, whatever the frames gave
    back. It does not wake the paint thread, and it leaves the engines,
    the paint thread and the remembered selection as they were. *)
Theorem PaintFrame_locks_once_per_engine (s : Renderer) :
  let s' := snd (PaintFrame env s) in
  filter is_lock_operation (logged_since s s')
  = flat_map (fun _ => [LockConsole; UnlockConsole]) (_rgpEngines s)
  /\ forallb (fun ev => negb (is_thread_event ev)) (logged_since s s') = true
  /\ _rgpEngines s' = _rgpEngines s
  /\ _pThread s' = _pThread s
  /\ _previousSelection s' = _previousSelection s.
Proof.
  intros s'. subst s'. unfold PaintFrame. rewrite !run_bind. unfold gets.
  cbn [fst snd ret].
  destruct (PaintFrame_loop_run (_rgpEngines s) s) as (frames & v & Hs & Hframes).
  rewrite Hs, logged_since_record by reflexivity.
  destruct (frames_locks _ _ Hframes) as [Hl Hq].
  repeat split; assumption.
Qed.

(** The lock operations of the turns of a teardown: a pair for each turn
    that repainted. *)
Lemma turns_locks (engines : list IRenderEngine) (turns : list (list Event)) :
  Forall2 prepared_and_repainted engines turns ->
  exists n,
    (n <= length engines)%nat
    /\ filter is_lock_operation (concat turns)
       = concat (repeat [LockConsole; UnlockConsole] n).
Proof.
  induction 1 as [|pEngine turn engines turns Hturn _ IH].
  - exists 0%nat. split; [apply Nat.le_refl | reflexivity].
  - destruct IH as (n & Hn & Hlocks).
    destruct Hturn as (r & failure & frame & -> & Hfailure & Hframe).
    assert (Hfl : filter is_lock_operation failure = []).
    { destruct Hfailure as [->|[hr ->]]; reflexivity. }
    cbn [concat length]. rewrite filter_app. cbn [filter is_lock_operation].
    rewrite filter_app, Hfl, Hlocks. cbn [app].
    destruct (wants_final_repaint r).
    + destruct (logged_frame_locks _ _ Hframe) as [Hl _]. rewrite Hl.
      exists (S n). split; [now apply le_n_S | reflexivity].
    + subst frame. exists n. split; [now apply Nat.le_le_succ_r | reflexivity].
Qed.

(** X15. TriggerTeardown holds the console lock only inside the final
    frames it paints: the lock operations it logs are LockConsole and
    UnlockConsole pairs, one after the other, at most one pair per
    attached engine, so the lock is never taken twice and is not held when
    TriggerTeardown returns. *)
Theorem TriggerTeardown_releases_the_lock (s : Renderer) :
  exists n,
    (n <= length (_rgpEngines s))%nat
    /\ filter is_lock_operation (logged_since s (snd (TriggerTeardown env s)))
       = concat (repeat [LockConsole; UnlockConsole] n).
Proof.
  unfold TriggerTeardown. rewrite !run_bind. unfold emit, modify, gets.
  cbn [fst snd].
  set (s1 := set_pThread _ _).
  destruct (teardown_loop_run env (_rgpEngines s) s1) as (turns & v & Hs & Hturns).
  change (_rgpEngines s1) with (_rgpEngines s). rewrite Hs.
  destruct (turns_locks _ _ Hturns) as (n & Hn & Hlocks).
  exists n. split; [assumption|].
  replace (logged_since s (record (concat turns) (set_srViewportPrevious v s1)))
    with (ThreadEv (WaitForPaintCompletionAndDisable INFINITE) :: concat turns).
  - cbn [filter is_lock_operation]. exact Hlocks.
  - unfold logged_since. cbn [record events set_srViewportPrevious s1 set_pThread].
    rewrite <- app_assoc, skipn_app, skipn_all, Nat.sub_diag. reflexivity.
Qed.

End LockDiscipline.

(** * A row is never overdrawn *)

Section Budget.

Variable env : Environment.
Variable pEngine : IRenderEngine.

Lemma glyphs_drawn_app (a b : list Event) :
  glyphs_drawn (a ++ b) = glyphs_drawn a + glyphs_drawn b.
Proof.
  induction a as [|ev a IH]; [reflexivity|].
  destruct ev as [e c r| | | | |]; cbn [app glyphs_drawn]; try assumption.
  destruct c; try assumption. rewrite IH. lia.
Qed.

Lemma columns_lined_app (a b : list Event) :
  columns_lined (a ++ b) = columns_lined a + columns_lined b.
Proof.
  induction a as [|ev a IH]; [reflexivity|].
  destruct ev as [e c r| | | | |]; cbn [app columns_lined]; try assumption.
  destruct c; try assumption. rewrite IH. lia.
Qed.

Lemma no_line_draw_counts (evs : list Event) :
  forallb no_line_draw evs = true -> glyphs_drawn evs = 0 /\ columns_lined evs = 0.
Proof.
  induction evs as [|ev evs IH]; [now split|]. cbn [forallb].
  intros H. apply andb_prop in H as [Hev Hevs]. specialize (IH Hevs).
  destruct ev as [e c r| | | | |]; cbn [glyphs_drawn columns_lined]; try assumption.
  destruct c; try assumption; discriminate.
Qed.

Lemma draws_nothing {A} (m : M A) : logs no_line_draw m -> draws_at_most 0 0 m.
Proof.
  intros Hm s. destruct (Hm s) as (evs & Hs & HP). exists evs.
  destruct (no_line_draw_counts evs HP) as [-> ->]. repeat split; [assumption|lia..].
Qed.

Lemma draws_at_most_bind {A B} (g1 c1 g2 c2 g c : Z) (m : M A) (k : A -> M B) :
  draws_at_most g1 c1 m -> (forall a, draws_at_most g2 c2 (k a)) ->
  g1 + g2 <= g -> c1 + c2 <= c ->
  draws_at_most g c (bind m k).
Proof.
  intros Hm Hk Hg Hc s. rewrite run_bind.
  destruct (Hm s) as (evs & Hs & Hg1 & Hc1). rewrite Hs.
  destruct (Hk (fst (m s)) (record evs s)) as (evs' & Hs' & Hg2 & Hc2).
  exists (evs ++ evs'). rewrite Hs', record_record.
  rewrite glyphs_drawn_app, columns_lined_app. repeat split; lia.
Qed.

Lemma draws_at_most_quiet {A B} (g c : Z) (m : M A) (k : A -> M B) :
  logs no_line_draw m -> (forall a, draws_at_most g c (k a)) ->
  draws_at_most g c (bind m k).
Proof.
  intros Hm Hk.
  apply (draws_at_most_bind 0 0 g c); [now apply draws_nothing | assumption | lia..].
Qed.

Lemma draws_at_most_ret {A} (g c : Z) (a : A) :
  0 <= g -> 0 <= c -> draws_at_most g c (ret a).
Proof.
  intros Hg Hc s. exists []. rewrite record_nil. repeat split; assumption.
Qed.

(** The wide-glyph helper draws no more glyphs than it was asked for. *)
Lemma DoubleByteHelper_budget (pwsLine : list WCHAR) (it : list CharRowCell)
    (cchLine : Z) (coordTarget : COORD) (lineWrapped : bool) :
  0 <= cchLine ->
  draws_at_most cchLine 0
    (_PaintBufferOutputDoubleByteHelper env pEngine pwsLine it cchLine coordTarget
       lineWrapped).
Proof.
  intros Hsize s.
  unfold _PaintBufferOutputDoubleByteHelper, bind, make_unique_nothrow.
  destruct (allocates env (events s) cchLine); cbn [negb];
    [|eexists; split; [reflexivity|]; cbn; lia].
  cbn [record events].
  destruct (allocates env (events s ++ [Alloc cchLine true]) cchLine); cbn [negb];
    [|eexists; split; [cbn [ret snd]; now rewrite record_record|]; cbn; lia].
  unfold call. set (st := DoubleByte_walk pwsLine cchLine 0 it _).
  set (call_made := PaintBufferLine _ _ _ _ _ _).
  set (r := answer env _ pEngine call_made).
  exists [Alloc cchLine true; Alloc cchLine true; EngineEv pEngine call_made r].
  split.
  - destruct (FAILED (hr_of r)); cbn [ret snd]; now rewrite !record_record.
  - unfold call_made. cbn [glyphs_drawn columns_lined]. lia.
Qed.

Lemma GridLineHelper_budget (a : TextAttribute) (cchLine : Z) (coordTarget : COORD) :
  draws_at_most 0 cchLine
    (_PaintBufferOutputGridLineHelper env pEngine a cchLine coordTarget).
Proof.
  intros s. unfold _PaintBufferOutputGridLineHelper. rewrite !run_bind.
  unfold gets. cbn [fst snd].
  match goal with |- context [call env pEngine ?c s] =>
    set (call_made := c); set (r := answer env (events s) pEngine c);
    change (call env pEngine call_made s)
      with (r, record [EngineEv pEngine call_made r] s)
  end.
  cbn [fst snd]. unfold LOG_IF_FAILED. destruct (FAILED (hr_of r)).
  - exists [EngineEv pEngine call_made r; Log (hr_of r)]. split.
    + rewrite !run_bind. cbn. now rewrite record_record.
    + unfold call_made. cbn [glyphs_drawn columns_lined]. lia.
  - exists [EngineEv pEngine call_made r]. split; [reflexivity|].
    unfold call_made. cbn [glyphs_drawn columns_lined]. lia.
Qed.

(** The loop of the colour helper, [cchWritten] glyphs into a line of
    [cchLine]: what is left of the line bounds what it draws. *)
Lemma ColorHelper_loop_budget (Row : ROW) (cchLine iFirstAttr : Z)
    (lineWrapped : bool) (fuel : nat) :
  cchLine < 18446744073709551616 ->
  forall st : ColorSegment,
    0 <= cchWritten st <= cchLine ->
    draws_at_most (cchLine - cchWritten st) (cchLine - cchWritten st)
      (ColorHelper_loop env fuel pEngine Row cchLine iFirstAttr lineWrapped st).
Proof.
  intros Hsize. induction fuel as [|fuel IH]; intros st Hwritten;
    cbn [ColorHelper_loop].
  - apply draws_at_most_ret; lia.
  - destruct (GetAttrByColumn _ _) as [attr cAttrApplies].
    apply draws_at_most_quiet;
      [unfold _UpdateDrawingBrushes; repeat logs_step | intros ?].
    apply draws_at_most_quiet; [repeat logs_step | intros ?].
    rewrite (size_t_of_small (cchLine - cchWritten st)) by lia.
    set (cchSegment := Z.min (cchLine - cchWritten st) cAttrApplies).
    destruct (cchSegment <=? 0) eqn:Hseg; [apply draws_at_most_ret; lia|].
    apply Z.leb_gt in Hseg.
    assert (Hfits : cchSegment <= cchLine - cchWritten st) by (subst cchSegment; lia).
    apply (draws_at_most_bind cchSegment 0
             (cchLine - cchWritten st - cchSegment) (cchLine - cchWritten st));
      [apply DoubleByteHelper_budget; lia | intros hrLine | lia | lia].
    apply draws_at_most_quiet; [repeat logs_step | intros ?].
    apply draws_at_most_quiet; [apply logs_gets | intros pData].
    apply (draws_at_most_bind 0 cchSegment
             (cchLine - cchWritten st - cchSegment)
             (cchLine - cchWritten st - cchSegment));
      [|intros _|lia|lia].
    + destruct (IsGridLineDrawingAllowed pData);
        [apply GridLineHelper_budget | apply draws_at_most_ret; lia].
    + cbn [cchWritten itSegment].
      rewrite (size_t_of_small (cchWritten st + cchSegment)) by lia.
      destruct (_ && _); [|apply draws_at_most_ret; lia].
      match goal with |- draws_at_most _ _ (ColorHelper_loop _ _ _ _ _ _ _ ?st') =>
        specialize (IH st') end.
      cbn [cchWritten] in IH.
      replace (cchLine - cchWritten st - cchSegment)
        with (cchLine - (cchWritten st + cchSegment)) by lia.
      apply IH. lia.
Qed.

Lemma bind_assoc {A B C} (m : M A) (k : A -> M B) (h : B -> M C) (s : Renderer) :
  bind (bind m k) h s = bind m (fun a => bind (k a) h) s.
Proof. unfold bind. now destruct (m s). Qed.

(** The loop of the colour helper, with cells for all that is left of the
    line: it draws one segment after the other, each of a positive length,
    up to the end of the line, or up to a turn that finds nothing to
    draw. *)
Lemma ColorHelper_loop_segments (Row : ROW) (cchLine iFirstAttr : Z)
    (lineWrapped : bool) :
  cchLine < 18446744073709551616 ->
  forall (fuel : nat) (st : ColorSegment),
    0 <= cchWritten st <= cchLine ->
    (length (itSegment st) < fuel)%nat ->
    cchLine - cchWritten st <= Z.of_nat (length (itSegment st)) ->
    exists segments closing,
      Forall (fun segment => 0 < RunLength segment) segments
      /\ cchWritten st + columns_of segments <= cchLine
      /\ (closing = None -> cchWritten st + columns_of segments = cchLine)
      /\ forall s : Renderer,
           ColorHelper_loop env fuel pEngine Row cchLine iFirstAttr lineWrapped st s
           = (draw_runs env pEngine segments (pwsSegmentAt st) (itSegment st)
                (coordOffset st) lineWrapped ;;
              closing_turn env pEngine closing) s.
Proof.
  intros Hsize. induction fuel as [|fuel IH]; intros st Hwritten Hfuel Hcover; [lia|].
  cbn [ColorHelper_loop].
  destruct (GetAttrByColumn _ _) as [attr cAttrApplies].
  rewrite (size_t_of_small (cchLine - cchWritten st)) by lia.
  set (cchSegment := Z.min (cchLine - cchWritten st) cAttrApplies).
  destruct (cchSegment <=? 0) eqn:Hseg.
  - exists [], (Some attr). cbn [columns_of map fold_right].
    split; [constructor | split; [lia | split; [discriminate|]]].
    intros s. cbn [draw_runs closing_turn].
    change ((ret tt ;;
             hrBrushes <- _UpdateDrawingBrushes env pEngine attr false ;;
             LOG_IF_FAILED hrBrushes ;; ret tt) s)
      with ((hrBrushes <- _UpdateDrawingBrushes env pEngine attr false ;;
             LOG_IF_FAILED hrBrushes ;; ret tt) s).
    apply bind_ext; intros hrBrushes s1. apply bind_ext; intros _ s2.
    reflexivity.
  - apply Z.leb_gt in Hseg.
    assert (Hfits : cchSegment <= cchLine - cchWritten st) by (subst cchSegment; lia).
    rewrite (size_t_of_small (cchWritten st + cchSegment)) by lia.
    cbn [cchWritten itSegment].
    set (segment := {| RunAttr := attr; RunLength := cchSegment |}).
    assert (Hleft : length (skipn (Z.to_nat cchSegment) (itSegment st))
                    = (length (itSegment st) - Z.to_nat cchSegment)%nat)
      by apply length_skipn.
    match goal with
    | |- context [ColorHelper_loop env fuel pEngine Row cchLine iFirstAttr
                    lineWrapped ?next] => set (st' := next)
    end.
    destruct ((cchWritten st + cchSegment <? cchLine)
              && negb (Nat.eqb (length (skipn (Z.to_nat cchSegment) (itSegment st)))
                               0)) eqn:Hmore.
    + apply andb_prop in Hmore as [Hshort Hcells].
      apply Z.ltb_lt in Hshort. apply negb_true_iff, Nat.eqb_neq in Hcells.
      destruct (IH st') as (segments & closing & Hpos & Hsum & Hall & Hrun).
      * cbn [st' cchWritten]. lia.
      * cbn [st' itSegment]. lia.
      * cbn [st' cchWritten itSegment]. lia.
      * cbn [st' cchWritten] in Hsum, Hall.
        exists (segment :: segments), closing.
        change (columns_of (segment :: segments))
          with (cchSegment + columns_of segments).
        split; [constructor; [exact Hseg | exact Hpos] | split; [lia | split]].
        { intros Hnone. specialize (Hall Hnone). lia. }
        intros s. cbn [draw_runs]. cbn [segment RunAttr RunLength].
        rewrite bind_assoc. apply bind_ext; intros hrBrushes s1.
        rewrite bind_assoc. apply bind_ext; intros _ s2.
        rewrite bind_assoc. apply bind_ext; intros hrLine s3.
        rewrite bind_assoc. apply bind_ext; intros _ s4.
        rewrite bind_assoc. apply bind_ext; intros pData s5.
        rewrite bind_assoc. apply bind_ext; intros _ s6.
        apply Hrun.
    + exists [segment], None.
      change (columns_of [segment]) with (cchSegment + 0).
      assert (Hend : cchWritten st + cchSegment = cchLine).
      { apply andb_false_iff in Hmore as [Hshort | Hcells].
        - apply Z.ltb_ge in Hshort. lia.
        - apply negb_false_iff, Nat.eqb_eq in Hcells. lia. }
      split; [repeat constructor; exact Hseg | split; [lia | split; [lia|]]].
      intros s. cbn [draw_runs closing_turn]. cbn [segment RunAttr RunLength].
      rewrite bind_assoc. apply bind_ext; intros hrBrushes s1.
      rewrite bind_assoc. apply bind_ext; intros _ s2.
      rewrite bind_assoc. apply bind_ext; intros hrLine s3.
      rewrite bind_assoc. apply bind_ext; intros _ s4.
      rewrite bind_assoc. apply bind_ext; intros pData s5.
      rewrite bind_assoc. apply bind_ext; intros _ s6.
      reflexivity.
Qed.

(** X16. The colour helper draws the line it was given in consecutive
    segments and never past its end. For a line of cchLine characters,
    with a text and cells of at least that many (what its callers pass,
    and what its reads take for granted), whatever the attribute runs of
    the row: there are segments, each of a positive length, whose lengths
    add up to no more than cchLine, and to cchLine exactly unless the loop
    is left by a turn that finds nothing to draw (which updates the brushes
    once more and draws nothing); and the helper does what drawing these
    segments one after the other does: for each a brush update, the
    wide-glyph helper over the length of the segment, and its grid lines
    if they are allowed, each segment starting in the text, in the cells
    and at the target where the segment before it ended. So the counts of
    all its PaintBufferLine calls add up to no more than cchLine, and so
    do the counts of all its PaintBufferGridLines calls. *)
Theorem ColorHelper_never_overdraws (Row : ROW) (pwsLine : list WCHAR)
    (it : list CharRowCell) (cchLine iFirstAttr : Z) (coordTarget : COORD)
    (lineWrapped : bool) :
  0 <= cchLine < 18446744073709551616 ->
  (Z.to_nat cchLine <= length pwsLine)%nat ->
  (Z.to_nat cchLine <= length it)%nat ->
  exists segments closing,
    Forall (fun segment => 0 < RunLength segment) segments
    /\ columns_of segments <= cchLine
    /\ (closing = None -> columns_of segments = cchLine)
    /\ forall s : Renderer,
         let run := _PaintBufferOutputColorHelper env pEngine Row pwsLine it cchLine
                      iFirstAttr coordTarget lineWrapped s in
         run = (draw_runs env pEngine segments pwsLine it coordTarget lineWrapped ;;
                closing_turn env pEngine closing) s
         /\ glyphs_drawn (logged_since s (snd run)) <= cchLine
         /\ columns_lined (logged_since s (snd run)) <= cchLine.
Proof.
  intros Hsize Htext Hcells. unfold _PaintBufferOutputColorHelper.
  set (start := {| cchWritten := 0; coordOffset := coordTarget;
                   pwsSegmentAt := pwsLine; itSegment := it |}).
  destruct (ColorHelper_loop_segments Row cchLine iFirstAttr lineWrapped
              (proj2 Hsize) (S (length it)) start)
    as (segments & closing & Hpos & Hsum & Hall & Hrun).
  - cbn [start cchWritten]. lia.
  - cbn [start itSegment]. lia.
  - cbn [start cchWritten itSegment]. lia.
  - cbn [start cchWritten] in Hsum, Hall.
    exists segments, closing. split; [exact Hpos | split; [lia | split]].
    { intros Hnone. specialize (Hall Hnone). lia. }
    intros s. cbv zeta. split; [apply Hrun|].
    destruct (ColorHelper_loop_budget Row cchLine iFirstAttr lineWrapped
                (S (length it)) (proj2 Hsize) start
                (conj (Z.le_refl 0) (proj1 Hsize)) s)
      as (evs & Hs & Hg & Hc).
    rewrite Hs, logged_since_record by reflexivity.
    cbn [start cchWritten] in Hg, Hc. lia.
Qed.

(** X17. The raster font helper draws the line it was given and no more.
    For a line of cchLine characters, with a text and cells of at least
    that many and, where the font is a raster font, a text that its two
    code page conversions do not make shorter than cchLine (the colour
    helper reads cchLine characters of the text it is handed), whatever
    the allocations give: the glyphs of its PaintBufferLine calls, and the
    columns of its PaintBufferGridLines calls, add up to no more than
    cchLine, and every one of these draws lands on the screen line of the
    target it was given. *)
Theorem RasterFontHelper_keeps_to_the_line (Row : ROW) (pwsLine : list WCHAR)
    (it : list CharRowCell) (cchLine iFirstAttr : Z) (coordTarget : COORD)
    (lineWrapped : bool) (s : Renderer) :
  0 <= cchLine < 18446744073709551616 ->
  (Z.to_nat cchLine <= length pwsLine)%nat ->
  (Z.to_nat cchLine <= length it)%nat ->
  (IsTrueTypeFont (GetFontInfo (_pData s)) = true
   \/ (Z.to_nat cchLine
       <= length (MultiByteToWideChar env
                    (WideCharToMultiByte env (GetCodePage (GetFontInfo (_pData s)))
                       (firstn (Z.to_nat (int_of cchLine)) pwsLine))))%nat) ->
  let s' := snd (_PaintBufferOutputRasterFontHelper env pEngine Row pwsLine it
                   cchLine iFirstAttr coordTarget lineWrapped s) in
  glyphs_drawn (logged_since s s') <= cchLine
  /\ columns_lined (logged_since s s') <= cchLine
  /\ forallb (target_rows (fun y => y =? Y coordTarget)) (logged_since s s') = true.
Proof.
  intros Hsize Htext Hcells Hconverted s'. subst s'.
  assert (Hbudget : draws_at_most cchLine cchLine
                      (_PaintBufferOutputRasterFontHelper env pEngine Row pwsLine it
                         cchLine iFirstAttr coordTarget lineWrapped)).
  { unfold _PaintBufferOutputRasterFontHelper, _PaintBufferOutputColorHelper.
    apply draws_at_most_quiet; [apply logs_gets | intros pData].
    apply draws_at_most_quiet; [repeat logs_step | intros pwsData].
    replace cchLine with (cchLine - 0) at 1 2 by lia.
    apply (ColorHelper_loop_budget Row cchLine iFirstAttr lineWrapped
             (S (length it)) (proj2 Hsize)
             {| cchWritten := 0; coordOffset := coordTarget;
                pwsSegmentAt := pwsData; itSegment := it |}).
    cbn [cchWritten]. lia. }
  destruct (Hbudget s) as (evs & Hs & Hg & Hc).
  destruct (rows_RasterFontHelper env pEngine (fun y => y =? Y coordTarget) Row
              pwsLine it cchLine iFirstAttr coordTarget lineWrapped
              (Z.eqb_refl _) s) as (evs' & Hs' & Hrows).
  rewrite Hs in Hs'. apply record_inj in Hs'. subst evs'.
  rewrite Hs, logged_since_record by reflexivity. now repeat split.
Qed.

End Budget.

(** The row of two plain cells and one underlined cell, drawn in full
    with grid lines allowed. *)
Lemma ColorHelper_never_overdraws_witness :
  exists segments closing,
    Forall (fun segment => 0 < RunLength segment) segments
    /\ columns_of segments <= 3
    /\ (closing = None -> columns_of segments = 3)
    /\ forall s : Renderer,
         let run := _PaintBufferOutputColorHelper agreeable 7%nat twoStyleRow
                      [32; 32; 32] (repeat blankCell 3) 3 0 {| X := 0; Y := 0 |}
                      false s in
         run = (draw_runs agreeable 7%nat segments [32; 32; 32] (repeat blankCell 3)
                  {| X := 0; Y := 0 |} false ;;
                closing_turn agreeable 7%nat closing) s
         /\ glyphs_drawn (logged_since s (snd run)) <= 3
         /\ columns_lined (logged_since s (snd run)) <= 3.
Proof.
  apply (ColorHelper_never_overdraws agreeable 7%nat twoStyleRow [32; 32; 32]
           (repeat blankCell 3) 3 0 {| X := 0; Y := 0 |} false).
  - lia.
  - cbn. lia.
  - cbn. lia.
Defined.

(** The same row through a raster font whose code page conversions
    change nothing. *)
Lemma RasterFontHelper_keeps_to_the_line_witness :
  let data := dataOf 3 1 false true [] in
  let raster :=
    {| GetViewport := GetViewport data;
       GetTextBuffer := GetTextBuffer data;
       GetFontInfo := {| IsTrueTypeFont := false; GetCodePage := 437 |};
       GetDefaultBrushColors := GetDefaultBrushColors data;
       GetForegroundColor := GetForegroundColor data;
       GetBackgroundColor := GetBackgroundColor data;
       GetCursorPosition := GetCursorPosition data;
       IsCursorVisible := IsCursorVisible data;
       GetCursorHeight := GetCursorHeight data;
       GetCursorStyle := GetCursorStyle data;
       GetCursorColor := GetCursorColor data;
       IsCursorDoubleWidth := IsCursorDoubleWidth data;
       ConvAreaCompStr := ConvAreaCompStr data;
       GetImeCompositionStringBuffer := GetImeCompositionStringBuffer data;
       IsGridLineDrawingAllowed := IsGridLineDrawingAllowed data;
       GetSelectionRects := GetSelectionRects data;
       GetConsoleTitle := GetConsoleTitle data |} in
  let s := renderer_of raster [7%nat] in
  let s' := snd (_PaintBufferOutputRasterFontHelper agreeable 7%nat twoStyleRow
                   [32; 32; 32] (repeat blankCell 3) 3 0 {| X := 0; Y := 0 |}
                   false s) in
  glyphs_drawn (logged_since s s') <= 3
  /\ columns_lined (logged_since s s') <= 3
  /\ forallb (target_rows (fun y => y =? Y {| X := 0; Y := 0 |})) (logged_since s s')
     = true.
Proof.
  intros data raster s.
  apply (RasterFontHelper_keeps_to_the_line agreeable 7%nat twoStyleRow [32; 32; 32]
           (repeat blankCell 3) 3 0 {| X := 0; Y := 0 |} false s).
  - lia.
  - cbn. lia.
  - cbn. lia.
  - right. vm_compute. lia.
Defined.

(** * The layers of a frame *)

(** Every method that paints text logs only the brush updates of colour
    runs, text draws, grid line draws, the reading of the dirty rectangle,
    Logs and allocations. *)
Section TextCalls.

Variable env : Environment.
Variable pEngine : IRenderEngine.
Variable P : Event -> bool.

Hypothesis P_brushes :
  forall fg bg legacy bold r,
    P (EngineEv pEngine (UpdateDrawingBrushes fg bg legacy bold false) r) = true.
Hypothesis P_line :
  forall text widths cch target trimLeft wrapped r,
    P (EngineEv pEngine (PaintBufferLine text widths cch target trimLeft wrapped) r)
    = true.
Hypothesis P_grid :
  forall lines color cch target r,
    P (EngineEv pEngine (PaintBufferGridLines lines color cch target) r) = true.
Hypothesis P_dirty : forall r, P (EngineEv pEngine GetDirtyRectInChars r) = true.
Hypothesis P_log : forall hr, P (Log hr) = true.
Hypothesis P_alloc : forall n ok, P (Alloc n ok) = true.

Lemma text_ColorHelper_loop (Row : ROW) (cchLine iFirstAttr : Z) (lineWrapped : bool)
    (fuel : nat) (st : ColorSegment) :
  logs P (ColorHelper_loop env fuel pEngine Row cchLine iFirstAttr lineWrapped st).
Proof.
  revert st. induction fuel as [|fuel IH]; intros st; cbn [ColorHelper_loop].
  - apply logs_ret.
  - destruct (GetAttrByColumn _ _) as [attr cAttrApplies].
    apply logs_bind;
      [unfold _UpdateDrawingBrushes; repeat logs_step; auto | intros ?].
    apply logs_bind; [repeat logs_step; auto | intros ?].
    destruct (_ <=? 0); [apply logs_ret|].
    apply logs_bind;
      [unfold _PaintBufferOutputDoubleByteHelper; repeat logs_step; auto | intros ?].
    apply logs_bind; [repeat logs_step; auto | intros ?].
    apply logs_bind; [apply logs_gets | intros pData].
    apply logs_bind;
      [destruct (IsGridLineDrawingAllowed pData);
       [unfold _PaintBufferOutputGridLineHelper; repeat logs_step; auto
       | apply logs_ret]
      | intros ?].
    destruct (_ && _); [apply IH | apply logs_ret].
Qed.

Lemma text_RasterFontHelper (Row : ROW) (pwsLine : list WCHAR)
    (it : list CharRowCell) (cchLine iFirstAttr : Z) (coordTarget : COORD)
    (lineWrapped : bool) :
  logs P (_PaintBufferOutputRasterFontHelper env pEngine Row pwsLine it cchLine
            iFirstAttr coordTarget lineWrapped).
Proof.
  unfold _PaintBufferOutputRasterFontHelper, _PaintBufferOutputColorHelper.
  apply logs_bind; [apply logs_gets | intros pData].
  apply logs_bind; [repeat logs_step; auto | intros pwsData].
  apply text_ColorHelper_loop.
Qed.

Lemma text_PaintBufferOutput : logs P (_PaintBufferOutput env pEngine).
Proof.
  unfold _PaintBufferOutput.
  apply logs_bind; [apply logs_gets | intros pData].
  apply logs_bind; [repeat logs_step; auto | intros r].
  match goal with |- logs _ (_PaintBufferOutput_rows _ _ ?v ?tb ?vd ?rows) =>
    generalize rows as l; generalize vd as viewDirty end.
  intros viewDirty l. induction l as [|iRow l IH]; cbn [_PaintBufferOutput_rows].
  - apply logs_ret.
  - destruct (_ >? _); [|exact IH].
    destruct (GetTextRaw _); [|apply logs_emit; auto].
    apply logs_bind; [apply text_RasterFontHelper | intros _].
    apply logs_bind; [repeat logs_step; auto | intros _; exact IH].
Qed.

Lemma text_PaintIme (AreaInfo : ConversionAreaInfo) (textBuffer : TextBuffer) :
  logs P (_PaintIme env pEngine AreaInfo textBuffer).
Proof.
  unfold _PaintIme. destruct (negb (IsHidden AreaInfo)); [|apply logs_ret].
  apply logs_bind; [repeat logs_step; auto | intros r].
  destruct (TrimToViewport env _ _) as [inside srDirty].
  destruct inside; [|apply logs_ret].
  match goal with |- logs _ (_PaintIme_rows _ _ _ _ ?vd ?rows) =>
    generalize rows as l; generalize vd as viewDirty end.
  intros viewDirty l. induction l as [|iRow l IH]; cbn [_PaintIme_rows].
  - apply logs_ret.
  - destruct (GetTextRaw _); [|apply logs_emit; auto].
    apply logs_bind; [apply text_RasterFontHelper | intros _; exact IH].
Qed.

Lemma text_PaintImeCompositionString :
  logs P (_PaintImeCompositionString env pEngine).
Proof.
  unfold _PaintImeCompositionString.
  apply logs_bind; [apply logs_gets | intros pData].
  generalize 0%nat as n. generalize (ConvAreaCompStr pData) as areas.
  induction areas as [|area areas IH]; intros n;
    cbn [_PaintImeCompositionString_from].
  - apply logs_ret.
  - apply logs_bind; [apply logs_gets | intros pData1].
    apply logs_bind; [|intros _; apply IH].
    destruct (GetImeCompositionStringBuffer pData1 n);
      [apply text_PaintIme | apply logs_emit; auto].
Qed.

End TextCalls.

Section Layers.

Variable env : Environment.
Variable pEngine : IRenderEngine.

Lemma layers_app (a b : list Event) : layers (a ++ b) = layers a ++ layers b.
Proof.
  induction a as [|ev a IH]; [reflexivity|].
  destruct ev as [e c r| | | | |]; cbn [app layers]; try assumption.
  destruct (layer c); cbn [app]; now rewrite IH.
Qed.

Lemma layer_is_layers (k : nat) (evs : list Event) :
  forallb (layer_is k) evs = true -> Forall (eq k) (layers evs).
Proof.
  induction evs as [|ev evs IH]; [constructor|]. cbn [forallb].
  intros H. apply andb_prop in H as [Hev Hevs]. specialize (IH Hevs).
  destruct ev as [e c r| | | | |]; cbn [layers]; try assumption.
  cbn [layer_is] in Hev. destruct (layer c); [|assumption].
  constructor; [|assumption]. apply Nat.eqb_eq in Hev. congruence.
Qed.

Lemma nondecreasing_from (k : nat) (same above : list nat) :
  Forall (eq k) same -> Forall (fun n => (k <= n)%nat) above ->
  nondecreasing above = true ->
  nondecreasing (same ++ above) = true
  /\ Forall (fun n => (k <= n)%nat) (same ++ above).
Proof.
  intros Hsame Habove Hsorted. induction Hsame as [|a same <- _ IH];
    [now split|].
  destruct IH as [IHsorted IHabove]. split; [|constructor; [apply Nat.le_refl|assumption]].
  cbn [app nondecreasing]. destruct (same ++ above) as [|b rest] eqn:Hrest;
    [reflexivity|].
  rewrite IHsorted, andb_true_r. apply Nat.leb_le.
  now apply Forall_inv in IHabove.
Qed.

Lemma paints_up_layer {A B} (k : nat) (m : M A) (f : A -> M B) :
  logs (layer_is k) m -> (forall a, paints_up_from k (f a)) ->
  paints_up_from k (bind m f).
Proof.
  intros Hm Hf s. rewrite run_bind. destruct (Hm s) as (evs & Hs & HP).
  rewrite Hs. destruct (Hf (fst (m s)) (record evs s)) as (evs' & Hs' & Hsorted & Habove).
  exists (evs ++ evs'). rewrite Hs', record_record, layers_app.
  split; [reflexivity|].
  now apply nondecreasing_from; [apply layer_is_layers | |].
Qed.

Lemma paints_up_higher {A} (k : nat) (m : M A) :
  paints_up_from (S k) m -> paints_up_from k m.
Proof.
  intros Hm s. destruct (Hm s) as (evs & Hs & Hsorted & Habove).
  exists evs. split; [assumption|]. split; [assumption|].
  revert Habove. apply Forall_impl. intros n Hn. now apply Nat.lt_le_incl.
Qed.

Lemma paints_up_nothing {A} (k : nat) (m : M A) :
  logs (layer_is k) m -> paints_up_from k m.
Proof.
  intros Hm s. destruct (Hm s) as (evs & Hs & HP). exists evs.
  split; [assumption|].
  destruct (nondecreasing_from k (layers evs) [] (layer_is_layers k evs HP))
    as [Hsorted Habove]; [constructor | reflexivity |].
  rewrite app_nil_r in Hsorted, Habove. now split.
Qed.

(** The ways out of a frame paint no layer. *)
Lemma paints_up_way_out (k : nat) (hr : HRESULT) :
  paints_up_from k (endPaint env pEngine ;; unlock ;; ret hr).
Proof.
  apply paints_up_nothing. unfold endPaint, unlock. repeat logs_step.
Qed.

(** X18. A frame paints bottom to top. In the log of
    _PaintFrameForEngine the draw calls come layer by layer: the
    background; then the text of the buffer and of the IME composition
    areas with their grid lines; then the selection; then the cursor. No
    draw of a layer is made once a draw of a layer above it has been made,
    so the cursor is struck over the selection, and the selection over the
    text, on every way through the frame. *)
Theorem frame_paints_bottom_to_top (s : Renderer) :
  nondecreasing (layers (logged_since s (snd (_PaintFrameForEngine env pEngine s))))
  = true.
Proof.
  unfold _PaintFrameForEngine.
  match goal with
  | |- context [bind (call env pEngine StartPaint) ?k] =>
      assert (Hk : forall r, paints_up_from 0 (k r)); [|set (rest := k) in *]
  end.
  { intros r. cbv beta zeta.
    destruct (FAILED (hr_of r));
      [apply paints_up_nothing; unfold unlock; repeat logs_step|].
    destruct (hr_of r =? S_FALSE);
      [apply paints_up_nothing; unfold unlock; repeat logs_step|].
    apply paints_up_layer; [apply logs_gets | intros pData].
    apply paints_up_layer;
      [unfold _UpdateDrawingBrushes; repeat logs_step | intros hrBrushes].
    destruct (FAILED hrBrushes); [apply paints_up_way_out|].
    apply paints_up_layer;
      [unfold _PerformScrolling; repeat logs_step | intros hrScroll].
    destruct (FAILED hrScroll); [apply paints_up_way_out|].
    apply paints_up_layer;
      [unfold _PaintBackground; repeat logs_step | intros hrBackground].
    destruct (FAILED hrBackground); [apply paints_up_way_out|].
    apply paints_up_higher.
    apply paints_up_layer;
      [apply text_PaintBufferOutput; intros; reflexivity | intros _].
    apply paints_up_layer;
      [apply text_PaintImeCompositionString; intros; reflexivity | intros _].
    apply paints_up_higher.
    apply paints_up_layer;
      [unfold _PaintSelection; repeat logs_step; apply logs_GetSelectionRects
      | intros _].
    apply paints_up_higher.
    apply paints_up_layer; [unfold _PaintCursor; repeat logs_step | intros _].
    apply paints_up_layer; [unfold _PaintTitle; repeat logs_step | intros hrTitle].
    destruct (FAILED hrTitle); [apply paints_up_way_out|].
    apply paints_up_nothing. unfold endPaint, unlock. repeat logs_step. }
  rewrite !run_bind. unfold emit, modify. cbn [fst snd].
  destruct (CheckViewportAndScroll_run env (record [LockConsole] s))
    as (check & Hcheck & Hscroll & _).
  cbn [record _pData _srViewportPrevious] in Hcheck. rewrite Hcheck.
  cbn [fst snd].
  match goal with |- context [call env pEngine StartPaint ?s1] =>
    set (r := answer env (events s1) pEngine StartPaint);
    change (call env pEngine StartPaint s1)
      with (r, record [EngineEv pEngine StartPaint r] s1)
  end.
  cbn [fst snd].
  match goal with |- context [rest r ?s1] =>
    destruct (Hk r s1) as (evs & Hs & Hsorted & _) end.
  rewrite Hs, !record_record. unfold logged_since.
  cbn [record events set_srViewportPrevious].
  rewrite <- !app_assoc, skipn_app, skipn_all, Nat.sub_diag.
  cbn [skipn app layers]. rewrite !layers_app.
  assert (Hnone : layers check = []).
  { clear -Hscroll. induction check as [|ev check IH]; [reflexivity|].
    cbn [forallb] in Hscroll. apply andb_prop in Hscroll as [Hev Hcheck].
    destruct ev as [e c ?| | | | |]; cbn [layers]; try (now apply IH).
    destruct c; try discriminate; now apply IH. }
  rewrite Hnone. cbn [app layers layer]. exact Hsorted.
Qed.

End Layers.

(** * The loop of the colour helper ends by itself *)

(** X19. The do-while loop of _PaintBufferOutputColorHelper ends by its
    own condition within one turn per cell of the row from [it] on, and
    one more: let it go round as many times as one likes above that
    number, it makes the calls, and leaves the Renderer, that
    _PaintBufferOutputColorHelper does. Every turn that goes round again
    has moved the cell iterator at least one cell nearer to the end of the
    row. *)
Theorem ColorHelper_loop_ends_by_itself (env : Environment)
    (pEngine : IRenderEngine) (Row : ROW) (pwsLine : list WCHAR)
    (it : list CharRowCell) (cchLine iFirstAttr : Z) (coordTarget : COORD)
    (lineWrapped : bool) (turns : nat) (s : Renderer) :
  (length it < turns)%nat ->
  ColorHelper_loop env turns pEngine Row cchLine iFirstAttr lineWrapped
    {| cchWritten := 0; coordOffset := coordTarget;
       pwsSegmentAt := pwsLine; itSegment := it |} s
  = _PaintBufferOutputColorHelper env pEngine Row pwsLine it cchLine iFirstAttr
      coordTarget lineWrapped s.
Proof.
  intros Hturns. unfold _PaintBufferOutputColorHelper.
  apply ColorHelper_loop_enough_fuel; cbn [itSegment]; [assumption|].
  apply Nat.lt_succ_diag_r.
Qed.

(** The row of two plain cells and one underlined cell, with a hundred
    turns allowed. *)
Lemma ColorHelper_loop_ends_by_itself_witness :
  let s := renderer_of (dataOf 3 1 false true []) [7%nat] in
  ColorHelper_loop agreeable 100 7%nat twoStyleRow 3 0 false
    {| cchWritten := 0; coordOffset := {| X := 0; Y := 0 |};
       pwsSegmentAt := [32; 32; 32]; itSegment := repeat blankCell 3 |} s
  = _PaintBufferOutputColorHelper agreeable 7%nat twoStyleRow [32; 32; 32]
      (repeat blankCell 3) 3 0 {| X := 0; Y := 0 |} false s.
Proof.
  intros s.
  apply (ColorHelper_loop_ends_by_itself agreeable 7%nat twoStyleRow [32; 32; 32]
           (repeat blankCell 3) 3 0 {| X := 0; Y := 0 |} false 100 s).
  cbn. lia.
Defined.

(** * A frame and the other engines *)

(** X20. A frame for one engine draws into no other. Of the calls
    _PaintFrameForEngine makes, only the viewport updates and the scroll
    invalidations of its viewport check go to the other attached engines;
    every other call (StartPaint, every brush update and draw, EndPaint,
    Present) goes to the engine the frame is for. *)
Theorem frame_draws_into_its_engine_only (env : Environment)
    (pEngine : IRenderEngine) (s : Renderer) :
  forallb (own_or_viewport pEngine)
          (logged_since s (snd (_PaintFrameForEngine env pEngine s))) = true.
Proof.
  destruct (PaintFrameForEngine_log env pEngine s) as [check r paints tail Hc Hp Ht].
  cbn [forallb own_or_viewport]. rewrite forallb_app. cbn [forallb own_or_viewport].
  rewrite forallb_app, Nat.eqb_refl.
  rewrite (forallb_weaken scroll_checking (own_or_viewport pEngine) check),
          (forallb_weaken (painting pEngine) (own_or_viewport pEngine) paints);
    try assumption.
  - destruct Ht as [->|[r' ->]]; cbn [forallb own_or_viewport andb];
      now rewrite ?Nat.eqb_refl.
  - intros [e c ?| | | | |]; cbn; try discriminate; try reflexivity.
    destruct c; cbn; rewrite ?andb_false_r; try discriminate;
      intros H; apply andb_prop in H as [He _]; try exact He; reflexivity.
  - intros [e c ?| | | | |]; cbn; try discriminate; try reflexivity.
    destruct c; cbn; try discriminate; reflexivity.
Qed.
